(** * Payment gateway with asynchronous processing: webhook delivery,
      refunds, idempotency keys and the payment worker.

    The development embeds the job handlers and the route handlers of the
    gateway as functions in a state-and-exception monad over an explicit
    world (the relational tables, the three job queues, the clock, the
    process environment and the outbound network), and proves the properties
    of the design document about them.

    Platform primitives the handlers call are modelled once, below:
    Node's [crypto.createHmac('sha256', key)] after FIPS 180-4 and RFC 2104
    (checked on the published test vectors), [JSON.stringify] on a small JSON
    value type, PostgreSQL's [jsonb] input conversion, and axios' default
    [validateStatus]. *)

From Stdlib Require Import ZArith List String Ascii Bool Lia DecimalString Sorted.
Import ListNotations.
Local Open Scope string_scope.
Local Open Scope list_scope.
Local Open Scope Z_scope.

(** String concatenation, written apart from list append. *)
Infix "+++" := String.append (at level 60, right associativity).

(** ** Node's [crypto] module: SHA-256, HMAC, hex digests *)

Module Crypto.

(** 32-bit words are [Z] in [0, 2^32); every operation wraps explicitly. *)
Definition wrap32 (x : Z) : Z := x mod 4294967296.
Definition add32 (x y : Z) : Z := wrap32 (x + y).
Definition rotr (n x : Z) : Z :=
  Z.lor (Z.shiftr x n) (wrap32 (Z.shiftl x (32 - n))).
Definition not32 (x : Z) : Z := 4294967295 - x.

Definition Ch (x y z : Z) : Z := Z.lxor (Z.land x y) (Z.land (not32 x) z).
Definition Maj (x y z : Z) : Z :=
  Z.lxor (Z.lxor (Z.land x y) (Z.land x z)) (Z.land y z).
Definition bsig0 (x : Z) : Z := Z.lxor (Z.lxor (rotr 2 x) (rotr 13 x)) (rotr 22 x).
Definition bsig1 (x : Z) : Z := Z.lxor (Z.lxor (rotr 6 x) (rotr 11 x)) (rotr 25 x).
Definition ssig0 (x : Z) : Z := Z.lxor (Z.lxor (rotr 7 x) (rotr 18 x)) (Z.shiftr x 3).
Definition ssig1 (x : Z) : Z := Z.lxor (Z.lxor (rotr 17 x) (rotr 19 x)) (Z.shiftr x 10).

(** Round constants, FIPS 180-4 section 4.2.2. *)
Definition round_constants : list Z :=
  [ 0x428A2F98; 0x71374491; 0xB5C0FBCF; 0xE9B5DBA5;
    0x3956C25B; 0x59F111F1; 0x923F82A4; 0xAB1C5ED5;
    0xD807AA98; 0x12835B01; 0x243185BE; 0x550C7DC3;
    0x72BE5D74; 0x80DEB1FE; 0x9BDC06A7; 0xC19BF174;
    0xE49B69C1; 0xEFBE4786; 0x0FC19DC6; 0x240CA1CC;
    0x2DE92C6F; 0x4A7484AA; 0x5CB0A9DC; 0x76F988DA;
    0x983E5152; 0xA831C66D; 0xB00327C8; 0xBF597FC7;
    0xC6E00BF3; 0xD5A79147; 0x06CA6351; 0x14292967;
    0x27B70A85; 0x2E1B2138; 0x4D2C6DFC; 0x53380D13;
    0x650A7354; 0x766A0ABB; 0x81C2C92E; 0x92722C85;
    0xA2BFE8A1; 0xA81A664B; 0xC24B8B70; 0xC76C51A3;
    0xD192E819; 0xD6990624; 0xF40E3585; 0x106AA070;
    0x19A4C116; 0x1E376C08; 0x2748774C; 0x34B0BCB5;
    0x391C0CB3; 0x4ED8AA4A; 0x5B9CCA4F; 0x682E6FF3;
    0x748F82EE; 0x78A5636F; 0x84C87814; 0x8CC70208;
    0x90BEFFFA; 0xA4506CEB; 0xBEF9A3F7; 0xC67178F2 ].

Definition initial_hash : list Z :=
  [ 0x6A09E667; 0xBB67AE85; 0x3C6EF372; 0xA54FF53A;
    0x510E527F; 0x9B05688C; 0x1F83D9AB; 0x5BE0CD19 ].

(** Big-endian packing of bytes into words and back. *)
Fixpoint words_of_bytes (bs : list Z) : list Z :=
  match bs with
  | b0 :: b1 :: b2 :: b3 :: rest =>
      (((b0 * 256 + b1) * 256 + b2) * 256 + b3) :: words_of_bytes rest
  | _ => []
  end.

Definition bytes_of_word (w : Z) : list Z :=
  [ (w / 16777216) mod 256; (w / 65536) mod 256; (w / 256) mod 256; w mod 256 ].

Definition bytes_of_len64 (bits : Z) : list Z :=
  bytes_of_word (bits / 4294967296) ++ bytes_of_word (wrap32 bits).

(** Message padding: a 1 bit, zeros up to 56 mod 64, the bit length. *)
Definition pad (msg : list Z) : list Z :=
  let len := Z.of_nat (List.length msg) in
  let zeros := Z.to_nat ((55 - len) mod 64) in
  msg ++ [128] ++ repeat 0 zeros ++ bytes_of_len64 (8 * len).

(** The message schedule is kept as a sliding window of sixteen words:
    the head is W[t], and the word sixteen places on is appended. *)
Definition next_window (win : list Z) : list Z :=
  match win with
  | w0 :: rest =>
      let w1 := nth 0 rest 0 in
      let w9 := nth 8 rest 0 in
      let w14 := nth 13 rest 0 in
      rest ++ [add32 (add32 (add32 (ssig1 w14) w9) (ssig0 w1)) w0]
  | [] => []
  end.

Record regs := Regs { ra : Z; rb : Z; rc : Z; rd : Z; re : Z; rf : Z; rg : Z; rh : Z }.

Definition round (k wt : Z) (r : regs) : regs :=
  let t1 := add32 (add32 (add32 (add32 (rh r) (bsig1 (re r))) (Ch (re r) (rf r) (rg r))) k) wt in
  let t2 := add32 (bsig0 (ra r)) (Maj (ra r) (rb r) (rc r)) in
  Regs (add32 t1 t2) (ra r) (rb r) (rc r) (add32 (rd r) t1) (re r) (rf r) (rg r).

Fixpoint rounds (ks : list Z) (win : list Z) (r : regs) : regs :=
  match ks with
  | [] => r
  | k :: ks' => rounds ks' (next_window win) (round k (nth 0 win 0) r)
  end.

Definition regs_of (h : list Z) : regs :=
  Regs (nth 0 h 0) (nth 1 h 0) (nth 2 h 0) (nth 3 h 0)
       (nth 4 h 0) (nth 5 h 0) (nth 6 h 0) (nth 7 h 0).

Definition compress (h : list Z) (block : list Z) : list Z :=
  let r := rounds round_constants (words_of_bytes block) (regs_of h) in
  [ add32 (nth 0 h 0) (ra r); add32 (nth 1 h 0) (rb r);
    add32 (nth 2 h 0) (rc r); add32 (nth 3 h 0) (rd r);
    add32 (nth 4 h 0) (re r); add32 (nth 5 h 0) (rf r);
    add32 (nth 6 h 0) (rg r); add32 (nth 7 h 0) (rh r) ].

(** Absorb the padded message 64 bytes at a time; [fuel] bounds the number
    of blocks and is taken as the byte length, which is always enough. *)
Fixpoint absorb (fuel : nat) (h : list Z) (bs : list Z) : list Z :=
  match fuel, bs with
  | _, [] => h
  | O, _ => h
  | S fuel', _ => absorb fuel' (compress h (firstn 64 bs)) (skipn 64 bs)
  end.

Definition sha256 (msg : list Z) : list Z :=
  let padded := pad msg in
  flat_map bytes_of_word (absorb (List.length padded) initial_hash padded).

(** RFC 2104 with the 64-byte block of SHA-256: a key longer than a block
    is hashed first, a shorter one is extended with zero bytes. *)
Definition block_key (key : list Z) : list Z :=
  let k := if (64 <? Z.of_nat (List.length key)) then sha256 key else key in
  k ++ repeat 0 (64 - List.length k)%nat.

Definition hmac_sha256 (key msg : list Z) : list Z :=
  let k := block_key key in
  let inner := sha256 (map (Z.lxor 54) k ++ msg) in
  sha256 (map (Z.lxor 92) k ++ inner).

(** [Buffer.from(s)]: the bytes of a string. Characters are modelled by
    [ascii], one byte each. *)
Fixpoint bytes_of_string (s : string) : list Z :=
  match s with
  | EmptyString => []
  | String c s' => Z.of_nat (nat_of_ascii c) :: bytes_of_string s'
  end.

Definition hex_digit (n : Z) : ascii :=
  nth (Z.to_nat n)
      ["0"; "1"; "2"; "3"; "4"; "5"; "6"; "7"; "8"; "9"; "a"; "b"; "c"; "d"; "e"; "f"]%char
      "0"%char.

(** [digest('hex')] *)
Fixpoint hex (bs : list Z) : string :=
  match bs with
  | [] => EmptyString
  | b :: bs' => String (hex_digit (b / 16)) (String (hex_digit (b mod 16)) (hex bs'))
  end.

(** [crypto.createHmac('sha256', key).update(data).digest('hex')] *)
Definition createHmac_sha256_hex (key data : string) : string :=
  hex (hmac_sha256 (bytes_of_string key) (bytes_of_string data)).

(** The two messages that HMAC hashes: the inner one is the key block under
    the inner pad followed by the message, the outer one the key block under
    the outer pad followed by the digest of the inner one. *)
Definition hmac_inner_input (key msg : list Z) : list Z :=
  map (Z.lxor 54) (block_key key) ++ msg.

Definition hmac_outer_input (key msg : list Z) : list Z :=
  map (Z.lxor 92) (block_key key) ++ sha256 (hmac_inner_input key msg).

(** Two different messages with the same SHA-256 digest. *)
Definition collision (a b : list Z) : Prop := a <> b /\ sha256 a = sha256 b.

(** The string with the given bytes. *)
Fixpoint string_of_bytes (bs : list Z) : string :=
  match bs with
  | [] => EmptyString
  | b :: rest => String (ascii_of_nat (Z.to_nat b)) (string_of_bytes rest)
  end.

(** Well-formed UTF-8 (RFC 3629, section 4) with no NUL in it: the byte
    sequences that are the text of a JavaScript string constant, of an
    environment variable and of a PostgreSQL [VARCHAR]. *)
Definition tail_byte (b : Z) : bool := (128 <=? b) && (b <=? 191).

Fixpoint utf8_text (bs : list Z) : bool :=
  match bs with
  | [] => true
  | b1 :: rest1 =>
      if (1 <=? b1) && (b1 <=? 127) then utf8_text rest1
      else
        match rest1 with
        | [] => false
        | b2 :: rest2 =>
            if (194 <=? b1) && (b1 <=? 223) then tail_byte b2 && utf8_text rest2
            else
              match rest2 with
              | [] => false
              | b3 :: rest3 =>
                  if (224 <=? b1) && (b1 <=? 239) then
                    (if b1 =? 224 then (160 <=? b2) && (b2 <=? 191)
                     else if b1 =? 237 then (128 <=? b2) && (b2 <=? 159)
                     else tail_byte b2)
                    && tail_byte b3 && utf8_text rest3
                  else
                    match rest3 with
                    | [] => false
                    | b4 :: rest4 =>
                        (240 <=? b1) && (b1 <=? 244)
                        && (if b1 =? 240 then (144 <=? b2) && (b2 <=? 191)
                            else if b1 =? 244 then (128 <=? b2) && (b2 <=? 143)
                            else tail_byte b2)
                        && tail_byte b3 && tail_byte b4 && utf8_text rest4
                    end
              end
        end
  end.

End Crypto.

(** ** JSON values, [JSON.stringify], [Date.prototype.toISOString] and
       PostgreSQL's [jsonb] input conversion *)

Module JSON.

(** An object keeps its members in insertion order, as a JavaScript object
    with non-numeric keys does; a member whose value is [undefined] is simply
    left out when the object is built. *)
#[local] Set Warnings "-register-all".
Inductive json : Type :=
| JNull
| JBool (b : bool)
| JNum (n : Z)
| JStr (s : string)
| JArr (items : list json)
| JObj (members : list (string * json)).

Definition decimal (n : Z) : string := NilZero.string_of_int (Z.to_int n).

Definition hex4 (n : Z) : string :=
  String (Crypto.hex_digit ((n / 4096) mod 16))
    (String (Crypto.hex_digit ((n / 256) mod 16))
       (String (Crypto.hex_digit ((n / 16) mod 16))
          (String (Crypto.hex_digit (n mod 16)) EmptyString))).

(** Escaping of one character inside a JSON string literal. *)
Definition escape_char (c : ascii) : string :=
  let n := Z.of_nat (nat_of_ascii c) in
  if n =? 34 then "\" +++ String c EmptyString
  else if n =? 92 then "\\"
  else if n =? 8 then "\b"
  else if n =? 12 then "\f"
  else if n =? 10 then "\n"
  else if n =? 13 then "\r"
  else if n =? 9 then "\t"
  else if n <? 32 then "\u" +++ hex4 n
  else String c EmptyString.

Fixpoint escape (s : string) : string :=
  match s with
  | EmptyString => EmptyString
  | String c s' => escape_char c +++ escape s'
  end.

Definition dquote : string := String (ascii_of_nat 34) EmptyString.
Definition quote (s : string) : string := dquote +++ escape s +++ dquote.

Fixpoint join (sep : string) (parts : list string) : string :=
  match parts with
  | [] => EmptyString
  | [x] => x
  | x :: rest => x +++ sep +++ join sep rest
  end.

(** [JSON.stringify(value)] with no replacer and no indentation. *)
Fixpoint stringify (j : json) : string :=
  match j with
  | JNull => "null"
  | JBool true => "true"
  | JBool false => "false"
  | JNum n => decimal n
  | JStr s => quote s
  | JArr items => "[" +++ join "," (map stringify items) +++ "]"
  | JObj members =>
      "{" +++ join "," (map (fun kv => match kv with
                                      | (k, v) => quote k +++ ":" +++ stringify v
                                      end) members) +++ "}"
  end.

(** *** Dates *)

Fixpoint pad_left (width : nat) (s : string) : string :=
  match width with
  | O => s
  | S w' => if (String.length s <=? w')%nat then "0" +++ pad_left w' s else s
  end.

Definition digits (width : nat) (n : Z) : string := pad_left width (decimal n).

(** Calendar date of a day count since 1970-01-01 (proleptic Gregorian). *)
Definition civil_from_days (days : Z) : Z * Z * Z :=
  let z := days + 719468 in
  let era := z / 146097 in
  let doe := z - era * 146097 in
  let yoe := (doe - doe / 1460 + doe / 36524 - doe / 146096) / 365 in
  let doy := doe - (365 * yoe + yoe / 4 - yoe / 100) in
  let mp := (5 * doy + 2) / 153 in
  let d := doy - (153 * mp + 2) / 5 + 1 in
  let m := if mp <? 10 then mp + 3 else mp - 9 in
  let y := yoe + era * 400 + (if m <=? 2 then 1 else 0) in
  (y, m, d).

(** [new Date(ms).toISOString()], for years 0000 to 9999. *)
Definition toISOString (ms : Z) : string :=
  let days := ms / 86400000 in
  let rest := ms mod 86400000 in
  match civil_from_days days with
  | (y, m, d) =>
      digits 4 y +++ "-" +++ digits 2 m +++ "-" +++ digits 2 d +++ "T" +++
      digits 2 (rest / 3600000) +++ ":" +++ digits 2 ((rest / 60000) mod 60) +++ ":" +++
      digits 2 ((rest / 1000) mod 60) +++ "." +++ digits 3 (rest mod 1000) +++ "Z"
  end.

(** A [Date] inside a value handed to [JSON.stringify] is printed through
    [toJSON], that is as its ISO string. *)
Definition JDate (ms : Z) : json := JStr (toISOString ms).

(** *** [jsonb] *)

(** Order of object keys inside a [jsonb] value: shorter keys first, keys of
    equal length bytewise. *)
Definition jsonb_key_lt (a b : string) : bool :=
  if (String.length a <? String.length b)%nat then true
  else if (String.length b <? String.length a)%nat then false
  else match String.compare a b with Lt => true | _ => false end.

(** Insertion of a member into an ordered member list; a key that is
    already there takes the new value (the last duplicate wins). *)
Fixpoint jsonb_insert (k : string) (v : json) (ms : list (string * json))
  : list (string * json) :=
  match ms with
  | [] => [(k, v)]
  | (k', v') :: rest =>
      if String.eqb k k' then (k, v) :: rest
      else if jsonb_key_lt k k' then (k, v) :: (k', v') :: rest
      else (k', v') :: jsonb_insert k v rest
  end.

(** What a [jsonb] column holds, and hands back on [SELECT], for a JSON
    text: white space and the order of the keys are not kept. *)
Fixpoint jsonb_in (j : json) : json :=
  match j with
  | JArr items => JArr (map jsonb_in items)
  | JObj members =>
      JObj ((fix go (ms acc : list (string * json)) : list (string * json) :=
               match ms with
               | [] => acc
               | (k, v) :: rest => go rest (jsonb_insert k (jsonb_in v) acc)
               end) members [])
  | other => other
  end.

(** Lookup of a member, as [obj.key] does. *)
Fixpoint member (k : string) (ms : list (string * json)) : option json :=
  match ms with
  | [] => None
  | (k', v) :: rest => if String.eqb k k' then Some v else member k rest
  end.

(** [key: value || undefined] and [key: value] for nullable columns. *)
Definition opt_member (k : string) (v : option string) : list (string * json) :=
  match v with
  | Some s => if String.eqb s EmptyString then [] else [(k, JStr s)]
  | None => []
  end.

Definition nullable (v : option string) : json :=
  match v with Some s => JStr s | None => JNull end.

End JSON.
Export JSON.

(** ** The data model: the tables of the migrations, the queues, the world *)

Module Store.

(** Timestamps are milliseconds since the epoch, as [Date.now()] counts
    them; identifiers and status columns are strings, as in the schema.
    Primary keys are enforced where a handler inserts; foreign keys and
    column lengths are not part of the model. *)

Record Merchant := mkMerchant {
  mer_id : string;
  mer_webhook_url : option string;
  mer_webhook_secret : option string }.

Record Order := mkOrder {
  ord_id : string;
  ord_merchant_id : string;
  ord_amount : Z;
  ord_currency : string;
  ord_receipt : option string;
  ord_status : string;
  ord_created_at : Z }.

Record Payment := mkPayment {
  pay_id : string;
  pay_order_id : string;
  pay_merchant_id : string;
  pay_amount : Z;
  pay_currency : string;
  pay_method : string;
  pay_card_number : option string;
  pay_card_expiry : option string;
  pay_card_cvv : option string;
  pay_vpa : option string;
  pay_status : string;
  pay_error_code : option string;
  pay_error_description : option string;
  pay_captured : bool;
  pay_created_at : Z;
  pay_updated_at : Z }.

Record Refund := mkRefund {
  ref_id : string;
  ref_payment_id : string;
  ref_merchant_id : string;
  ref_amount : Z;
  ref_reason : option string;
  ref_status : string;
  ref_created_at : Z;
  ref_processed_at : option Z }.

Record WebhookLog := mkWebhookLog {
  log_id : string;
  log_merchant_id : string;
  log_event : string;
  log_payload : json;
  log_status : string;
  log_attempts : Z;
  log_last_attempt_at : option Z;
  log_next_retry_at : option Z;
  log_response_code : option Z;
  log_response_body : option string;
  log_created_at : Z }.

Record IdempotencyKey := mkIdempotencyKey {
  idk_key : string;
  idk_merchant_id : string;
  idk_response : json;
  idk_created_at : Z;
  idk_expires_at : Z }.

Record Database := mkDatabase {
  merchants : list Merchant;
  orders : list Order;
  payments : list Payment;
  refunds : list Refund;
  webhook_logs : list WebhookLog;
  idempotency_keys : list IdempotencyKey }.

Definition set_orders (v : list Order) (d : Database) : Database :=
  mkDatabase (merchants d) v (payments d) (refunds d) (webhook_logs d) (idempotency_keys d).
Definition set_payments (v : list Payment) (d : Database) : Database :=
  mkDatabase (merchants d) (orders d) v (refunds d) (webhook_logs d) (idempotency_keys d).
Definition set_refunds (v : list Refund) (d : Database) : Database :=
  mkDatabase (merchants d) (orders d) (payments d) v (webhook_logs d) (idempotency_keys d).
Definition set_webhook_logs (v : list WebhookLog) (d : Database) : Database :=
  mkDatabase (merchants d) (orders d) (payments d) (refunds d) v (idempotency_keys d).
Definition set_idempotency_keys (v : list IdempotencyKey) (d : Database) : Database :=
  mkDatabase (merchants d) (orders d) (payments d) (refunds d) (webhook_logs d) v.

(** *** Jobs (config/queue.js): three Bull queues *)

Record PaymentJobData := mkPaymentJobData { paymentId : string }.
Record RefundJobData := mkRefundJobData { refundId : string }.
Record WebhookJobData := mkWebhookJobData {
  webhookLogId : string;
  merchantId : string;
  event : string;
  payload : json }.

(** [queue.add(name, data, { delay })]; the delay is 0 when no option is
    given. *)
Record Job (D : Type) := mkJob {
  job_name : string;
  job_data : D;
  job_delay : Z }.
Arguments mkJob {D} _ _ _.
Arguments job_name {D} _.
Arguments job_data {D} _.
Arguments job_delay {D} _.

Record Queues := mkQueues {
  paymentQueue : list (Job PaymentJobData);
  webhookQueue : list (Job WebhookJobData);
  refundQueue : list (Job RefundJobData) }.

Definition set_paymentQueue (v : list (Job PaymentJobData)) (q : Queues) : Queues :=
  mkQueues v (webhookQueue q) (refundQueue q).
Definition set_webhookQueue (v : list (Job WebhookJobData)) (q : Queues) : Queues :=
  mkQueues (paymentQueue q) v (refundQueue q).
Definition set_refundQueue (v : list (Job RefundJobData)) (q : Queues) : Queues :=
  mkQueues (paymentQueue q) (webhookQueue q) v.

(** *** The outbound HTTP call *)

Record HttpRequest := mkHttpRequest {
  req_url : string;
  req_body : string;
  req_headers : list (string * string);
  req_timeout : Z }.

(** What comes back on the wire: a response with a status and a body, or
    nothing (connection refused, timeout, DNS failure). *)
Inductive WireOutcome :=
| Responded (status : Z) (data : json)
| NoResponse (message : string).

(** *** The process environment *)

Record Env := mkEnv {
  WEBHOOK_RETRY_INTERVALS_TEST : option string;
  TEST_MODE : option string;
  TEST_PROCESSING_DELAY : option string;
  TEST_PAYMENT_SUCCESS : option string }.

(** *** The world a handler runs in

    [random] is the sequence of results of the coming [Math.random()] calls,
    each given as the numerator [k] of the double [k / 2^53];
    [uuids] feeds [gen_random_uuid()]; [faults] tells for each coming call
    to the store or to a queue whether it rejects ([true]) or goes through;
    an exhausted list means no more faults. [network] is the merchant's side
    of the wire and [sent] records every request that was posted. *)
Record World := mkWorld {
  db : Database;
  queues : Queues;
  clock : Z;
  env : Env;
  random : list Z;
  uuids : list string;
  faults : list bool;
  network : HttpRequest -> WireOutcome;
  sent : list HttpRequest }.

Definition set_db (v : Database) (w : World) : World :=
  mkWorld v (queues w) (clock w) (env w) (random w) (uuids w) (faults w) (network w) (sent w).
Definition set_queues (v : Queues) (w : World) : World :=
  mkWorld (db w) v (clock w) (env w) (random w) (uuids w) (faults w) (network w) (sent w).
Definition set_random (v : list Z) (w : World) : World :=
  mkWorld (db w) (queues w) (clock w) (env w) v (uuids w) (faults w) (network w) (sent w).
Definition set_uuids (v : list string) (w : World) : World :=
  mkWorld (db w) (queues w) (clock w) (env w) (random w) v (faults w) (network w) (sent w).
Definition set_faults (v : list bool) (w : World) : World :=
  mkWorld (db w) (queues w) (clock w) (env w) (random w) (uuids w) v (network w) (sent w).
Definition set_sent (v : list HttpRequest) (w : World) : World :=
  mkWorld (db w) (queues w) (clock w) (env w) (random w) (uuids w) (faults w) (network w) v.

End Store.
Export Store.

(** ** Effects: state and exceptions *)

Module Effects.

(** A thrown JavaScript [Error]. *)
Inductive Exn := Error (message : string).

(** The state survives a throw: what was written before stays written. *)
Inductive Result (A : Type) :=
| Ok (a : A) (w : World)
| Throw (e : Exn) (w : World).
Arguments Ok {A} _ _.
Arguments Throw {A} _ _.

Definition M (A : Type) : Type := World -> Result A.

Definition ret {A} (a : A) : M A := fun w => Ok a w.

Definition bind {A B} (m : M A) (k : A -> M B) : M B :=
  fun w => match m w with
           | Ok a w' => k a w'
           | Throw e w' => Throw e w'
           end.

Definition throw {A} (e : Exn) : M A := fun w => Throw e w.

(** [try { m } catch (e) { h e }] *)
Definition try_catch {A} (m : M A) (h : Exn -> M A) : M A :=
  fun w => match m w with
           | Ok a w' => Ok a w'
           | Throw e w' => h e w'
           end.

Definition gets {A} (f : World -> A) : M A := fun w => Ok (f w) w.
Definition modify (f : World -> World) : M unit := fun w => Ok tt (f w).

Definition world_of {A} (r : Result A) : World :=
  match r with Ok _ w => w | Throw _ w => w end.

Definition value_of {A} (r : Result A) : option A :=
  match r with Ok a _ => Some a | Throw _ _ => None end.

End Effects.
Export Effects.

Notation "x <- m ;; k" := (bind m (fun x => k))
  (at level 61, m at next level, right associativity).
Notation "m ;;; k" := (bind m (fun _ => k))
  (at level 61, right associativity).

(** ** The platform calls of the handlers *)

Module Platform.

(** One round trip to PostgreSQL or Redis: it rejects when the fault
    schedule says so, and then nothing has been read or written. *)
Definition io : M unit :=
  fun w => match faults w with
           | true :: rest => Throw (Error "connection error") (set_faults rest w)
           | false :: rest => Ok tt (set_faults rest w)
           | [] => Ok tt w
           end.

(** [db.query] for a statement that reads. *)
Definition query {A} (f : Database -> A) : M A :=
  io ;;; gets (fun w => f (db w)).

(** [db.query] for a statement that writes; the statement sees the clock
    for [CURRENT_TIMESTAMP]. *)
Definition execute (f : Z -> Database -> Database) : M unit :=
  io ;;; modify (fun w => set_db (f (clock w) (db w)) w).

(** [Date.now()] *)
Definition Date_now : M Z := gets clock.

(** [Math.random()], as the numerator over [2^53]. *)
Definition Math_random : M Z :=
  fun w => match random w with
           | k :: rest => Ok k (set_random rest w)
           | [] => Ok 0 w
           end.

(** [gen_random_uuid()], the default of [webhook_logs.id]. *)
Definition gen_random_uuid : M string :=
  fun w => match uuids w with
           | u :: rest => Ok u (set_uuids rest w)
           | [] => Ok "00000000-0000-0000-0000-000000000000" w
           end.

(** [value || null] on a request field, [!value] on a nullable column. *)
Definition truthy (v : option string) : bool :=
  match v with
  | Some s => negb (String.eqb s EmptyString)
  | None => false
  end.

Definition or_null (v : option string) : option string :=
  if truthy v then v else None.

(** [process.env.NAME === 'true'] *)
Definition env_is (v : option string) (s : string) : bool :=
  match v with Some x => String.eqb x s | None => false end.

(** axios with its default [validateStatus]: the promise resolves on
    a status in [200, 300) and rejects otherwise, with [error.response]
    set when a response was received. *)
Inductive AxiosResult :=
| Resolved (status : Z) (data : json)
| RejectedWithResponse (status : Z) (data : json)
| RejectedNoResponse (message : string).

Definition validateStatus (status : Z) : bool :=
  (200 <=? status) && (status <? 300).

Definition axios_settle (o : WireOutcome) : AxiosResult :=
  match o with
  | Responded status data =>
      if validateStatus status then Resolved status data
      else RejectedWithResponse status data
  | NoResponse message => RejectedNoResponse message
  end.

(** [axios.post(url, body, { headers, timeout })]: the body, a string, goes
    out as it is. The call itself never throws here: a rejection is a
    value, taken apart by the caller's [try]/[catch]. *)
Definition axios_post (r : HttpRequest) : M AxiosResult :=
  fun w => Ok (axios_settle (network w r)) (set_sent (sent w ++ [r]) w).

(** *** Doubles

    A result of [Math.random()] is the double [k / 2^53]. Its product with
    an integer [n] below [2^53] is the exact product [k * n / 2^53] rounded
    to the 53 bits of a double, to nearest and to even on a tie;
    [round_to_53] does that on numerators over [2^53]. *)
Definition two53 : Z := 9007199254740992.

Definition round_to_53 (m : Z) : Z :=
  if m <? two53 then m
  else
    let s := Z.log2 m - 52 in
    let q := m / 2 ^ s in
    let r := m mod 2 ^ s in
    let half := 2 ^ (s - 1) in
    let q' := if r <? half then q
              else if half <? r then q + 1
              else if Z.even q then q else q + 1 in
    q' * 2 ^ s.

(** [Math.floor(Math.random() * n)] for the draw [k / 2^53]. *)
Definition floor_of_product (k n : Z) : Z := round_to_53 (k * n) / two53.

(** *** Strings

    A string of the model is the UTF-8 encoding of a JavaScript string, one
    [ascii] per byte. JavaScript counts a string in UTF-16 code units: one
    for a character of up to three bytes, two for a character of four. *)

(** The bytes that follow a byte that starts a character. *)
Definition continuation_bytes (c : ascii) : nat :=
  let n := nat_of_ascii c in
  if (n <? 192)%nat then 0%nat
  else if (n <? 224)%nat then 1%nat
  else if (n <? 240)%nat then 2%nat
  else 3%nat.

Definition utf16_units (c : ascii) : nat :=
  if (nat_of_ascii c <? 240)%nat then 1%nat else 2%nat.

(** U+FFFD, which the UTF-8 encoder writes for a surrogate left alone. *)
Definition replacement_character : string :=
  String (ascii_of_nat 239) (String (ascii_of_nat 191) (String (ascii_of_nat 189) EmptyString)).

(** [s.length], from a position where [pending] bytes of a character that
    is already counted are still to come. *)
Fixpoint utf16_length_from (pending : nat) (s : string) : nat :=
  match s with
  | EmptyString => 0%nat
  | String c rest =>
      match pending with
      | S p => utf16_length_from p rest
      | O => (utf16_units c + utf16_length_from (continuation_bytes c) rest)%nat
      end
  end.

Definition utf16_length (s : string) : nat := utf16_length_from 0 s.

(** The first [n] code units. A cut between the two code units of a
    four-byte character leaves its first half, a surrogate on its own, which
    reaches the store as U+FFFD. *)
Fixpoint cut_utf16 (n pending : nat) (s : string) : string :=
  match s with
  | EmptyString => EmptyString
  | String c rest =>
      match pending with
      | S p => String c (cut_utf16 n p rest)
      | O =>
          if (utf16_units c <=? n)%nat
          then String c (cut_utf16 (n - utf16_units c) (continuation_bytes c) rest)
          else if (n =? 0)%nat then EmptyString
          else replacement_character
      end
  end.

(** [s.substring(0, n)] *)
Definition substring0 (n : nat) (s : string) : string := cut_utf16 n 0 s.

(** Strings of one-byte characters, on which bytes, characters and code
    units are the same thing. *)
Definition is_ascii (s : string) : bool :=
  forallb (fun c => (nat_of_ascii c <? 128)%nat) (list_ascii_of_string s).

End Platform.
Export Platform.

(** ** Statements and queue calls shared by the handlers *)

Module Sql.

Definition payments_by_id (id : string) (d : Database) : list Payment :=
  filter (fun p => String.eqb (pay_id p) id) (payments d).

Definition payments_by_id_and_merchant (id merchant : string) (d : Database) : list Payment :=
  filter (fun p => String.eqb (pay_id p) id && String.eqb (pay_merchant_id p) merchant)
         (payments d).

Definition orders_by_id_and_merchant (id merchant : string) (d : Database) : list Order :=
  filter (fun o => String.eqb (ord_id o) id && String.eqb (ord_merchant_id o) merchant)
         (orders d).

Definition merchants_by_id (id : string) (d : Database) : list Merchant :=
  filter (fun m => String.eqb (mer_id m) id) (merchants d).

Definition refunds_by_id (id : string) (d : Database) : list Refund :=
  filter (fun r => String.eqb (ref_id r) id) (refunds d).

Definition webhook_logs_by_id (id : string) (d : Database) : list WebhookLog :=
  filter (fun l => String.eqb (log_id l) id) (webhook_logs d).

Definition webhook_logs_by_id_and_merchant (id merchant : string) (d : Database)
  : list WebhookLog :=
  filter (fun l => String.eqb (log_id l) id && String.eqb (log_merchant_id l) merchant)
         (webhook_logs d).

Definition idempotency_match (key merchant : string) (r : IdempotencyKey) : bool :=
  String.eqb (idk_key r) key && String.eqb (idk_merchant_id r) merchant.

Definition idempotency_keys_by_key (key merchant : string) (d : Database)
  : list IdempotencyKey :=
  filter (idempotency_match key merchant) (idempotency_keys d).

(** [status IN ('pending', 'processed')] *)
Definition counts_as_refunded (r : Refund) : bool :=
  String.eqb (ref_status r) "pending" || String.eqb (ref_status r) "processed".

Fixpoint sum (l : list Z) : Z :=
  match l with
  | [] => 0
  | x :: rest => x + sum rest
  end.

(** [SELECT COALESCE(SUM(amount), 0) FROM refunds
     WHERE payment_id = $1 AND status IN ('pending', 'processed')] *)
Definition total_refunded (payment_id : string) (d : Database) : Z :=
  sum (map ref_amount
           (filter (fun r => String.eqb (ref_payment_id r) payment_id && counts_as_refunded r)
                   (refunds d))).

(** *** Column types

    The columns that take a value of the caller as it comes are checked by
    PostgreSQL when the row is written: an [INTEGER] holds 32 bits, a
    [VARCHAR(n)] at most [n] characters, and text holds no NUL. A text that
    is too long for its column is an error unless all that exceeds the [n]
    characters is spaces, which are then cut off. *)
Definition fits_integer (v : Z) : bool := (-2147483648 <=? v) && (v <=? 2147483647).

(** A byte inside a character, after its first. *)
Definition is_tail (c : ascii) : bool :=
  let n := nat_of_ascii c in ((128 <=? n) && (n <? 192))%nat.

(** The characters of a text: the bytes that start one. *)
Definition characters (s : string) : nat :=
  List.length (filter (fun c => negb (is_tail c)) (list_ascii_of_string s)).

Definition has_nul (s : string) : bool :=
  existsb (fun c => (nat_of_ascii c =? 0)%nat) (list_ascii_of_string s).

(** The first [n] characters of a text and what is left after them. *)
Fixpoint split_characters (n : nat) (s : string) : string * string :=
  match s with
  | EmptyString => (EmptyString, EmptyString)
  | String c rest =>
      if is_tail c then
        let (kept, excess) := split_characters n rest in (String c kept, excess)
      else
        match n with
        | O => (EmptyString, s)
        | S m => let (kept, excess) := split_characters m rest in (String c kept, excess)
        end
  end.

(** What a [VARCHAR(n)] column stores for a text, [None] when it refuses
    it. *)
Definition varchar (n : nat) (s : string) : option string :=
  if has_nul s then None
  else
    let (kept, excess) := split_characters n s in
    if forallb (fun c => Ascii.eqb c " "%char) (list_ascii_of_string excess)
    then Some kept else None.

(** The same for a column that may be [NULL]. *)
Definition varchar_null (n : nat) (s : option string) : option (option string) :=
  match s with
  | None => Some None
  | Some text => option_map Some (varchar n text)
  end.

(** The text of a value of a [UUID] column as PostgreSQL prints it: 32
    lower-case hexadecimal digits in groups of 8, 4, 4, 4 and 12. Two UUIDs
    are equal exactly when these texts are. *)
Definition is_hex_digit (c : ascii) : bool :=
  let n := nat_of_ascii c in
  ((48 <=? n) && (n <=? 57) || (97 <=? n) && (n <=? 102))%nat.

Fixpoint hex_digits (n : nat) (s : string) : option string :=
  match n with
  | O => Some s
  | S m =>
      match s with
      | String c rest => if is_hex_digit c then hex_digits m rest else None
      | EmptyString => None
      end
  end.

Definition hex_group (n : nat) (s : string) : option string :=
  match hex_digits n s with
  | Some (String "-"%char rest) => Some rest
  | _ => None
  end.

Definition is_uuid (s : string) : bool :=
  match hex_group 8 s with
  | Some s1 =>
      match hex_group 4 s1 with
      | Some s2 =>
          match hex_group 4 s2 with
          | Some s3 =>
              match hex_group 4 s3 with
              | Some s4 =>
                  match hex_digits 12 s4 with
                  | Some EmptyString => true
                  | _ => false
                  end
              | None => false
              end
          | None => false
          end
      | None => false
      end
  | None => false
  end.

Definition data_exception : Exn := Error "value out of range for the type of the column".

(** An [INSERT] is refused when the primary key is taken. *)
Definition unique_violation : Exn := Error "duplicate key value violates unique constraint".

Definition insert_row {R} (taken : Database -> bool) (row : Z -> R)
           (put : R -> Database -> Database) : M R :=
  io ;;;
  (fun w => if taken (db w) then Throw unique_violation w
            else Ok (row (clock w)) (set_db (put (row (clock w)) (db w)) w)).

Definition add_payment_job (name : string) (data : PaymentJobData) (delay : Z) : M unit :=
  io ;;; modify (fun w =>
    set_queues (set_paymentQueue (paymentQueue (queues w) ++ [mkJob name data delay]) (queues w)) w).

Definition add_webhook_job (name : string) (data : WebhookJobData) (delay : Z) : M unit :=
  io ;;; modify (fun w =>
    set_queues (set_webhookQueue (webhookQueue (queues w) ++ [mkJob name data delay]) (queues w)) w).

Definition add_refund_job (name : string) (data : RefundJobData) (delay : Z) : M unit :=
  io ;;; modify (fun w =>
    set_queues (set_refundQueue (refundQueue (queues w) ++ [mkJob name data delay]) (queues w)) w).

End Sql.
Export Sql.

(** ** services/IdempotencyService.js *)

Module IdempotencyService.

Definition delete_key (key merchant : string) (_ : Z) (d : Database) : Database :=
  set_idempotency_keys
    (filter (fun r => negb (idempotency_match key merchant r)) (idempotency_keys d)) d.

Definition checkIdempotencyKey (key merchant : string) : M (option json) :=
  try_catch
    (rows <- query (idempotency_keys_by_key key merchant) ;;
     match rows with
     | [] => ret None
     | record :: _ =>
         now <- Date_now ;;
         if idk_expires_at record <=? now then
           execute (delete_key key merchant) ;;; ret None
         else ret (Some (idk_response record))
     end)
    (fun _ => ret None).

(** [INSERT ... ON CONFLICT (key, merchant_id) DO UPDATE
     SET response = $3, expires_at = $4] *)
Definition upsert_key (key merchant : string) (response : json) (expiresAt : Z)
           (now : Z) (d : Database) : Database :=
  if existsb (idempotency_match key merchant) (idempotency_keys d) then
    set_idempotency_keys
      (map (fun r => if idempotency_match key merchant r
                     then mkIdempotencyKey (idk_key r) (idk_merchant_id r)
                                           (jsonb_in response) (idk_created_at r) expiresAt
                     else r)
           (idempotency_keys d)) d
  else
    set_idempotency_keys
      (idempotency_keys d ++ [mkIdempotencyKey key merchant (jsonb_in response) now expiresAt]) d.

Definition storeIdempotencyKey (key merchant : string) (response : json) : M unit :=
  try_catch
    (now <- Date_now ;;
     let expiresAt := now + 24 * 60 * 60 * 1000 in
     execute (upsert_key key merchant response expiresAt))
    (fun _ => ret tt).

End IdempotencyService.
Export IdempotencyService.

(** ** services/WebhookService.js *)

Module WebhookService.

Definition generateWebhookSignature (payload : json) (webhookSecret : string) : string :=
  let payloadString := stringify payload in
  Crypto.createHmac_sha256_hex webhookSecret payloadString.

Definition new_webhook_log (id merchant event : string) (payload : json) (now : Z)
  : WebhookLog :=
  mkWebhookLog id merchant event (jsonb_in payload) "pending" 0 None None None None now.

(** [INSERT INTO webhook_logs (merchant_id, event, payload, status, attempts)
     VALUES (...) RETURNING id] *)
Definition insert_webhook_log (merchant event : string) (payload : json) : M string :=
  io ;;;
  id <- gen_random_uuid ;;
  (fun w => if existsb (fun l => String.eqb (log_id l) id) (webhook_logs (db w))
            then Throw unique_violation w
            else Ok id (set_db (set_webhook_logs
                                  (webhook_logs (db w)
                                     ++ [new_webhook_log id merchant event payload (clock w)])
                                  (db w)) w)).

Definition createWebhookLog (merchant event : string) (data : json) : M unit :=
  try_catch
    (merchantResult <- query (merchants_by_id merchant) ;;
     match merchantResult with
     | [] => ret tt
     | m :: _ =>
         if negb (truthy (mer_webhook_url m)) then ret tt
         else
           now <- Date_now ;;
           let payload := JObj [("event", JStr event);
                                ("timestamp", JNum (now / 1000));
                                ("data", data)] in
           id <- insert_webhook_log merchant event payload ;;
           add_webhook_job "deliver-webhook" (mkWebhookJobData id merchant event payload) 0
     end)
    (fun _ => ret tt).

End WebhookService.
Export WebhookService.

(** ** jobs/DeliverWebhookJob.js *)

Module DeliverWebhookJob.

(** [a[i]]: [undefined] outside the array. *)
Definition array_get (a : list Z) (i : Z) : option Z :=
  if i <? 0 then None else nth_error a (Z.to_nat i).

(** [v || d] on a number: [undefined] and [0] both give way to [d]. *)
Definition or_default (v : option Z) (d : Z) : Z :=
  match v with
  | Some x => if x =? 0 then d else x
  | None => d
  end.

Definition testIntervals : list Z := [0; 5000; 10000; 15000; 20000].
Definition prodIntervals : list Z := [0; 60000; 300000; 1800000; 7200000].

Definition getRetryDelay (e : Env) (attemptNumber : Z) : Z :=
  let testMode := env_is (WEBHOOK_RETRY_INTERVALS_TEST e) "true" in
  if testMode then or_default (array_get testIntervals attemptNumber) 20000
  else or_default (array_get prodIntervals attemptNumber) 7200000.

Definition calculateNextRetry (attemptNumber : Z) : M Z :=
  e <- gets env ;;
  now <- Date_now ;;
  ret (now + getRetryDelay e attemptNumber).

(** The value the job resolves with. *)
Inductive DeliverResult :=
| DeliverSkipped
| DeliverDone (webhookLogId : string) (deliverySuccess : bool) (attempts : Z).

Definition update_log (id : string) (f : WebhookLog -> WebhookLog) (d : Database) : Database :=
  set_webhook_logs (map (fun l => if String.eqb (log_id l) id then f l else l) (webhook_logs d)) d.

Definition mark_success (attempts : Z) (code : option Z) (body : option string) (now : Z)
           (l : WebhookLog) : WebhookLog :=
  mkWebhookLog (log_id l) (log_merchant_id l) (log_event l) (log_payload l)
               "success" attempts (Some now) (log_next_retry_at l) code body (log_created_at l).

Definition mark_failure (newStatus : string) (attempts : Z) (nextRetryAt : Z)
           (code : option Z) (body : option string) (now : Z) (l : WebhookLog) : WebhookLog :=
  mkWebhookLog (log_id l) (log_merchant_id l) (log_event l) (log_payload l)
               newStatus attempts (Some now) (Some nextRetryAt) code body (log_created_at l).

(** The inner [try]/[catch] around [axios.post]: response code, response
    body and the success flag. *)
Definition classify (r : AxiosResult) : option Z * option string * bool :=
  match r with
  | Resolved status data =>
      (Some status, Some (substring0 1000 (stringify data)),
       (200 <=? status) && (status <? 300))
  | RejectedWithResponse status data =>
      (Some status, Some (substring0 1000 (stringify data)), false)
  | RejectedNoResponse message =>
      (Some 0, Some message, false)
  end.

Definition deliverWebhook (job : Job WebhookJobData) : M DeliverResult :=
  let data := job_data job in
  try_catch
    (merchantResult <- query (merchants_by_id (merchantId data)) ;;
     match merchantResult with
     | [] => throw (Error ("Merchant not found: " +++ merchantId data))
     | merchant :: _ =>
         if negb (truthy (mer_webhook_url merchant)) then ret DeliverSkipped
         else
           logResult <- query (webhook_logs_by_id (webhookLogId data)) ;;
           match logResult with
           | [] => throw (Error ("Webhook log not found: " +++ webhookLogId data))
           | log :: _ =>
               let currentAttempts := log_attempts log + 1 in
               let payloadString := stringify (payload data) in
               match mer_webhook_secret merchant with
               | None => throw (Error "ERR_INVALID_ARG_TYPE: the key must be a string")
               | Some secret =>
                   let signature := Crypto.createHmac_sha256_hex secret payloadString in
                   let url := match mer_webhook_url merchant with
                              | Some u => u
                              | None => EmptyString
                              end in
                   response <- axios_post
                     (mkHttpRequest url payloadString
                        [("Content-Type", "application/json");
                         ("X-Webhook-Signature", signature)]
                        5000) ;;
                   match classify response with
                   | (responseCode, responseBody, deliverySuccess) =>
                       (if deliverySuccess then
                          execute (fun now =>
                            update_log (webhookLogId data)
                              (mark_success currentAttempts responseCode responseBody now))
                        else
                          nextRetryAt <- calculateNextRetry currentAttempts ;;
                          let newStatus := if 5 <=? currentAttempts
                                           then "failed" else "pending" in
                          execute (fun now =>
                            update_log (webhookLogId data)
                              (mark_failure newStatus currentAttempts nextRetryAt
                                            responseCode responseBody now)) ;;;
                          if currentAttempts <? 5 then
                            e <- gets env ;;
                            let retryDelay := getRetryDelay e currentAttempts in
                            add_webhook_job "deliver-webhook"
                              (mkWebhookJobData (webhookLogId data) (merchantId data)
                                                (event data) (payload data))
                              retryDelay
                          else ret tt) ;;;
                       ret (DeliverDone (webhookLogId data) deliverySuccess currentAttempts)
                   end
               end
           end
     end)
    (fun error => throw error).

End DeliverWebhookJob.
Export DeliverWebhookJob.

(** ** test-merchant/webhook-receiver.js *)

Module WebhookReceiver.

Fixpoint header (name : string) (hs : list (string * string)) : option string :=
  match hs with
  | [] => None
  | (n, v) :: rest => if String.eqb n name then Some v else header name rest
  end.

(** The check of the receiver: the HMAC of the raw body under its own
    secret against the signature header. *)
Definition verify (secret : string) (rawBody : string) (signature : option string) : bool :=
  let expectedSignature := Crypto.createHmac_sha256_hex secret rawBody in
  match signature with
  | Some s => String.eqb s expectedSignature
  | None => false
  end.

(** [app.post('/webhook', ...)]: 200 OK when the signature matches, 401
    otherwise. This is the handler, which runs behind [express.json()]; it
    is the whole receiver for the requests the middleware lets through with
    their raw body, see [express_json_accepts]. *)
Definition receiver (secret : string) (r : HttpRequest) : WireOutcome :=
  if verify secret (req_body r) (header "X-Webhook-Signature" (req_headers r))
  then Responded 200 (JStr "OK")
  else Responded 401 (JStr "Invalid signature").

(** [express.json()] with its defaults hands a body on to the handler when
    it is JSON text for an object or an array (strict mode; anything else is
    answered with 400) of at most 100kb (413 beyond). The bodies to be
    received here are the serialization of a payload. *)
Definition express_json_accepts (payload : json) : bool :=
  match payload with
  | JObj _ | JArr _ => Z.of_nat (String.length (stringify payload)) <=? 102400
  | _ => false
  end.

(** A secret that is its own HMAC key up to the zero padding: at most 64
    bytes, none of them NUL. The secrets that [merchants.webhook_secret], a
    [VARCHAR(64)], can hold are of this kind. *)
Definition plain_secret (s : string) : bool :=
  (String.length s <=? 64)%nat
  && forallb (fun b => negb (b =? 0)) (Crypto.bytes_of_string s).

End WebhookReceiver.
Export WebhookReceiver.

(** ** Timers and [parseInt] *)

Module Timers.

Definition set_clock (v : Z) (w : World) : World :=
  mkWorld (db w) (queues w) v (env w) (random w) (uuids w) (faults w) (network w) (sent w).

(** [await sleep(ms)]: the clock has moved on by [ms] when the handler
    resumes; a delay that is not a number ([None]) or is negative fires at
    once. *)
Definition sleep (ms : option Z) : M unit :=
  modify (fun w => match ms with
                   | Some d => if 0 <=? d then set_clock (clock w + d) w else w
                   | None => w
                   end).

(** White space as [parseInt] skips it: the characters of
    [StrWhiteSpaceChar], in UTF-8. *)
Definition white_1 (c : ascii) : bool :=
  let n := nat_of_ascii c in
  ((9 <=? n) && (n <=? 13) || (n =? 32))%nat.

Definition white_2 (c1 c2 : ascii) : bool :=
  ((nat_of_ascii c1 =? 194) && (nat_of_ascii c2 =? 160))%nat.

Definition white_3 (c1 c2 c3 : ascii) : bool :=
  let a := nat_of_ascii c1 in
  let b := nat_of_ascii c2 in
  let c := nat_of_ascii c3 in
  ((a =? 225) && (b =? 154) && (c =? 128)
   || (a =? 226) && (b =? 128)
      && ((128 <=? c) && (c <=? 138) || (c =? 168) || (c =? 169) || (c =? 175))
   || (a =? 226) && (b =? 129) && (c =? 159)
   || (a =? 227) && (b =? 128) && (c =? 128)
   || (a =? 239) && (b =? 187) && (c =? 191))%nat.

Fixpoint skip_white (s : string) : string :=
  match s with
  | EmptyString => s
  | String c1 rest1 =>
      if white_1 c1 then skip_white rest1
      else
        match rest1 with
        | EmptyString => s
        | String c2 rest2 =>
            if white_2 c1 c2 then skip_white rest2
            else
              match rest2 with
              | EmptyString => s
              | String c3 rest3 => if white_3 c1 c2 c3 then skip_white rest3 else s
              end
        end
  end.

(** The value of a digit in the radix, or nothing. *)
Definition digit_of (radix : Z) (c : ascii) : option Z :=
  let n := Z.of_nat (nat_of_ascii c) in
  let v := if (48 <=? n) && (n <=? 57) then n - 48
           else if (97 <=? n) && (n <=? 122) then n - 87
           else if (65 <=? n) && (n <=? 90) then n - 55
           else radix in
  if v <? radix then Some v else None.

(** The longest run of digits at the front; [None] when there is none. *)
Fixpoint parse_digits (radix : Z) (s : string) (acc : option Z) : option Z :=
  match s with
  | EmptyString => acc
  | String c rest =>
      match digit_of radix c with
      | Some d =>
          parse_digits radix rest
            (Some (match acc with Some a => radix * a + d | None => d end))
      | None => acc
      end
  end.

(** An unsigned numeral: a [0x] or [0X] in front makes it hexadecimal. *)
Definition parse_unsigned (s : string) : option Z :=
  match s with
  | String "0"%char (String "x"%char rest) => parse_digits 16 rest None
  | String "0"%char (String "X"%char rest) => parse_digits 16 rest None
  | _ => parse_digits 10 s None
  end.

(** [parseInt(s)] with no radix: leading white space, an optional sign, an
    optional [0x], the longest run of digits; [None] stands for [NaN]. The
    value is the double nearest to the integer that was read (the integer
    itself up to [2^53]); a numeral beyond the range of the doubles, which
    reads as [Infinity], is outside the model. *)
Definition parseInt (s : string) : option Z :=
  match skip_white s with
  | String "-"%char rest => option_map (fun v => - round_to_53 v) (parse_unsigned rest)
  | String "+"%char rest => option_map round_to_53 (parse_unsigned rest)
  | other => option_map round_to_53 (parse_unsigned other)
  end.

End Timers.
Export Timers.

(** ** jobs/ProcessPaymentJob.js *)

Module ProcessPaymentJob.

(** The doubles [0.9] and [0.95], as numerators over [2^53]. *)
Definition rate_upi : Z := 8106479329266893.
Definition rate_other : Z := 8556839292003942.

Definition set_status_success (id : string) (now : Z) (d : Database) : Database :=
  set_payments
    (map (fun p => if String.eqb (pay_id p) id
                   then mkPayment (pay_id p) (pay_order_id p) (pay_merchant_id p) (pay_amount p)
                          (pay_currency p) (pay_method p) (pay_card_number p) (pay_card_expiry p)
                          (pay_card_cvv p) (pay_vpa p) "success" (pay_error_code p)
                          (pay_error_description p) (pay_captured p) (pay_created_at p) now
                   else p) (payments d)) d.

Definition set_status_failed (id : string) (now : Z) (d : Database) : Database :=
  set_payments
    (map (fun p => if String.eqb (pay_id p) id
                   then mkPayment (pay_id p) (pay_order_id p) (pay_merchant_id p) (pay_amount p)
                          (pay_currency p) (pay_method p) (pay_card_number p) (pay_card_expiry p)
                          (pay_card_cvv p) (pay_vpa p) "failed" (Some "PAYMENT_FAILED")
                          (Some "Payment processing failed") (pay_captured p)
                          (pay_created_at p) now
                   else p) (payments d)) d.

(** The snapshot of the payment carried by the webhook event. *)
Definition payment_snapshot (payment : Payment) (status : string)
           (extra : list (string * json)) : json :=
  JObj [("payment",
         JObj ([("id", JStr (pay_id payment));
                ("order_id", JStr (pay_order_id payment));
                ("amount", JNum (pay_amount payment));
                ("currency", JStr (pay_currency payment));
                ("method", JStr (pay_method payment))]
               ++ opt_member "vpa" (pay_vpa payment)
               ++ [("status", JStr status)]
               ++ extra
               ++ [("created_at", JDate (pay_created_at payment))]))].

Definition processPayment (job : Job PaymentJobData) : M string :=
  let id := paymentId (job_data job) in
  try_catch
    (result <- query (payments_by_id id) ;;
     match result with
     | [] => throw (Error ("Payment not found: " +++ id))
     | payment :: _ =>
         e <- gets env ;;
         let testMode := env_is (TEST_MODE e) "true" in
         delay <- (if testMode then
                     ret (parseInt (if truthy (TEST_PROCESSING_DELAY e)
                                    then match TEST_PROCESSING_DELAY e with
                                         | Some s => s
                                         | None => "1000"
                                         end
                                    else "1000"))
                   else
                     r <- Math_random ;;
                     ret (Some (floor_of_product r 5000 + 5000))) ;;
         sleep delay ;;;
         isSuccess <- (if testMode then
                         ret (negb (env_is (TEST_PAYMENT_SUCCESS e) "false"))
                       else
                         let successRate := if String.eqb (pay_method payment) "upi"
                                            then rate_upi else rate_other in
                         r <- Math_random ;;
                         ret (r <? successRate)) ;;
         if isSuccess : bool then
           execute (set_status_success id) ;;;
           createWebhookLog (pay_merchant_id payment) "payment.success"
             (payment_snapshot payment "success" []) ;;;
           ret "success"
         else
           execute (set_status_failed id) ;;;
           createWebhookLog (pay_merchant_id payment) "payment.failed"
             (payment_snapshot payment "failed"
                [("error_code", JStr "PAYMENT_FAILED");
                 ("error_description", JStr "Payment processing failed")]) ;;;
           ret "failed"
     end)
    (fun error => throw error).

End ProcessPaymentJob.
Export ProcessPaymentJob.

(** ** jobs/ProcessRefundJob.js *)

Module ProcessRefundJob.

Definition set_refund_processed (id : string) (now : Z) (d : Database) : Database :=
  set_refunds
    (map (fun r => if String.eqb (ref_id r) id
                   then mkRefund (ref_id r) (ref_payment_id r) (ref_merchant_id r) (ref_amount r)
                                 (ref_reason r) "processed" (ref_created_at r) (Some now)
                   else r) (refunds d)) d.

Definition processRefund (job : Job RefundJobData) : M string :=
  let id := refundId (job_data job) in
  try_catch
    (result <- query (refunds_by_id id) ;;
     match result with
     | [] => throw (Error ("Refund not found: " +++ id))
     | refund :: _ =>
         paymentResult <- query (payments_by_id (ref_payment_id refund)) ;;
         match paymentResult with
         | [] => throw (Error ("Payment not found: " +++ ref_payment_id refund))
         | payment :: _ =>
             if negb (String.eqb (pay_status payment) "success") then
               throw (Error ("Payment not in refundable state: " +++ pay_status payment))
             else
               totalRefunded <- query (total_refunded (ref_payment_id refund)) ;;
               if pay_amount payment <? totalRefunded then
                 throw (Error "Refund amount exceeds payment amount")
               else
                 r <- Math_random ;;
                 sleep (Some (floor_of_product r 2000 + 3000)) ;;;
                 execute (set_refund_processed id) ;;;
                 now <- Date_now ;;
                 createWebhookLog (ref_merchant_id refund) "refund.processed"
                   (JObj [("refund",
                           JObj [("id", JStr (ref_id refund));
                                 ("payment_id", JStr (ref_payment_id refund));
                                 ("amount", JNum (ref_amount refund));
                                 ("reason", nullable (ref_reason refund));
                                 ("status", JStr "processed");
                                 ("created_at", JDate (ref_created_at refund));
                                 ("processed_at", JStr (toISOString now))])]) ;;;
                 ret "processed"
         end
     end)
    (fun error => throw error).

End ProcessRefundJob.
Export ProcessRefundJob.

(** ** HTTP responses of the route handlers *)

Module Http.

Record Response := mkResponse {
  res_status : Z;
  res_body : json }.

Definition error_body (code description : string) : json :=
  JObj [("error", JObj [("code", JStr code); ("description", JStr description)])].

Definition reject (status : Z) (code description : string) : Response :=
  mkResponse status (error_body code description).

Definition server_error : Response :=
  reject 500 "SERVER_ERROR" "Internal server error".

(** [if (value)] on a JSON value. *)
Definition json_truthy (j : json) : bool :=
  match j with
  | JNull => false
  | JBool b => b
  | JNum n => negb (n =? 0)
  | JStr s => negb (String.eqb s EmptyString)
  | _ => true
  end.

(** The bytes that go out for [res.json(body)]. *)
Definition body_bytes (r : Response) : string := stringify (res_body r).

End Http.
Export Http.

(** ** routes/payments.js

    The handlers run behind the [authenticate] middleware; they take the
    identifier of the merchant it attached to the request. *)

Module PaymentsRoute.

Definition chars : string :=
  "ABCDEFGHIJKLMNOPQRSTUVWXYZabcdefghijklmnopqrstuvwxyz0123456789".

(** [chars.charAt(i)]: the empty string outside the range. *)
Definition charAt (i : Z) (s : string) : string :=
  if i <? 0 then EmptyString
  else match String.get (Z.to_nat i) s with
       | Some c => String c EmptyString
       | None => EmptyString
       end.

Fixpoint generateRandomString (length : nat) : M string :=
  match length with
  | O => ret EmptyString
  | S n =>
      r <- Math_random ;;
      rest <- generateRandomString n ;;
      ret (charAt (floor_of_product r 62) chars +++ rest)
  end.

Record PaymentRequest := mkPaymentRequest {
  rq_order_id : string;
  rq_method : string;
  rq_card_number : option string;
  rq_card_expiry : option string;
  rq_card_cvv : option string;
  rq_vpa : option string;
  rq_idempotency_key : option string }.

Definition new_payment (id merchant : string) (order : Order) (req : PaymentRequest)
           (now : Z) : Payment :=
  mkPayment id (rq_order_id req) merchant (ord_amount order) (ord_currency order)
            (rq_method req) (or_null (rq_card_number req)) (or_null (rq_card_expiry req))
            (or_null (rq_card_cvv req)) (or_null (rq_vpa req))
            "pending" None None false now now.

Definition payment_response (payment : Payment) : json :=
  JObj ([("id", JStr (pay_id payment));
         ("order_id", JStr (pay_order_id payment));
         ("amount", JNum (pay_amount payment));
         ("currency", JStr (pay_currency payment));
         ("method", JStr (pay_method payment))]
        ++ opt_member "vpa" (pay_vpa payment)
        ++ opt_member "card_number" (pay_card_number payment)
        ++ [("status", JStr (pay_status payment));
            ("created_at", JDate (pay_created_at payment))]).

Definition idempotency_header (req : PaymentRequest) : option string :=
  if truthy (rq_idempotency_key req) then rq_idempotency_key req else None.

(** The request once no cached response was found. *)
Definition createPayment_fresh (merchant : string) (req : PaymentRequest) : M Response :=
  orderResult <- query (orders_by_id_and_merchant (rq_order_id req) merchant) ;;
  match orderResult with
  | [] => ret (reject 404 "NOT_FOUND_ERROR" "Order not found")
  | order :: _ =>
      if negb (String.eqb (rq_method req) "card" || String.eqb (rq_method req) "upi") then
        ret (reject 400 "BAD_REQUEST_ERROR" "Invalid payment method")
      else if String.eqb (rq_method req) "card"
              && (negb (truthy (rq_card_number req)) || negb (truthy (rq_card_expiry req))
                  || negb (truthy (rq_card_cvv req))) then
        ret (reject 400 "BAD_REQUEST_ERROR" "Card details are required for card payments")
      else if String.eqb (rq_method req) "upi" && negb (truthy (rq_vpa req)) then
        ret (reject 400 "BAD_REQUEST_ERROR" "VPA is required for UPI payments")
      else
        suffix <- generateRandomString 16 ;;
        let paymentId := "pay_" +++ suffix in
        payment <- insert_row
                     (fun d => existsb (fun p => String.eqb (pay_id p) paymentId) (payments d))
                     (new_payment paymentId merchant order req)
                     (fun p d => set_payments (payments d ++ [p]) d) ;;
        add_payment_job "process-payment" (mkPaymentJobData (pay_id payment)) 0 ;;;
        let response := payment_response payment in
        match idempotency_header req with
        | Some key => storeIdempotencyKey key merchant response
        | None => ret tt
        end ;;;
        ret (mkResponse 201 response)
  end.

(** [POST /api/v1/payments] *)
Definition createPayment (merchant : string) (req : PaymentRequest) : M Response :=
  try_catch
    (cachedResponse <- match idempotency_header req with
                        | Some key => checkIdempotencyKey key merchant
                        | None => ret None
                        end ;;
     match cachedResponse with
     | Some cached =>
         if json_truthy cached then ret (mkResponse 201 cached)
         else createPayment_fresh merchant req
     | None => createPayment_fresh merchant req
     end)
    (fun _ => ret server_error).

(** [POST /api/v1/payments/:id/capture] *)
Definition set_captured (id : string) (now : Z) (d : Database) : Database :=
  set_payments
    (map (fun p => if String.eqb (pay_id p) id
                   then mkPayment (pay_id p) (pay_order_id p) (pay_merchant_id p) (pay_amount p)
                          (pay_currency p) (pay_method p) (pay_card_number p) (pay_card_expiry p)
                          (pay_card_cvv p) (pay_vpa p) (pay_status p) (pay_error_code p)
                          (pay_error_description p) true (pay_created_at p) now
                   else p) (payments d)) d.

Definition capture_response (p : Payment) : json :=
  JObj [("id", JStr (pay_id p)); ("order_id", JStr (pay_order_id p));
        ("amount", JNum (pay_amount p)); ("currency", JStr (pay_currency p));
        ("method", JStr (pay_method p)); ("status", JStr (pay_status p));
        ("captured", JBool (pay_captured p));
        ("created_at", JDate (pay_created_at p)); ("updated_at", JDate (pay_updated_at p))].

Definition capturePayment (merchant id : string) (amount : option Z) : M Response :=
  try_catch
    (result <- query (payments_by_id_and_merchant id merchant) ;;
     match result with
     | [] => ret (reject 404 "NOT_FOUND_ERROR" "Payment not found")
     | payment :: _ =>
         if negb (String.eqb (pay_status payment) "success") then
           ret (reject 400 "BAD_REQUEST_ERROR" "Payment not in capturable state")
         else if match amount with
                 | Some a => negb (a =? 0) && negb (a =? pay_amount payment)
                 | None => false
                 end then
           ret (reject 400 "BAD_REQUEST_ERROR" "Capture amount must match payment amount")
         else
           execute (set_captured id) ;;;
           updatedResult <- query (payments_by_id id) ;;
           match updatedResult with
           | updatedPayment :: _ => ret (mkResponse 200 (capture_response updatedPayment))
           | [] => throw (Error "TypeError: cannot read properties of undefined")
           end
     end)
    (fun _ => ret server_error).

(** [POST /api/v1/payments/:payment_id/refunds] *)
Record RefundRequest := mkRefundRequest {
  rq_amount : option Z;
  rq_reason : option string }.

Definition new_refund (id payment_id merchant : string) (amount : Z) (reason : option string)
           (now : Z) : Refund :=
  mkRefund id payment_id merchant amount reason "pending" now None.

Definition refund_response (r : Refund) : json :=
  JObj [("id", JStr (ref_id r)); ("payment_id", JStr (ref_payment_id r));
        ("amount", JNum (ref_amount r)); ("reason", nullable (ref_reason r));
        ("status", JStr (ref_status r)); ("created_at", JDate (ref_created_at r))].

(** The handler up to and including the validation of the amount: the
    reads, ending on either a rejection or the amount to refund. *)
Definition createRefund_validate (merchant payment_id : string) (req : RefundRequest)
  : M (Response + Z) :=
  paymentResult <- query (payments_by_id_and_merchant payment_id merchant) ;;
  match paymentResult with
  | [] => ret (inl (reject 404 "NOT_FOUND_ERROR" "Payment not found"))
  | payment :: _ =>
      if negb (String.eqb (pay_status payment) "success") then
        ret (inl (reject 400 "BAD_REQUEST_ERROR" "Payment not in refundable state"))
      else
        totalRefunded <- query (total_refunded payment_id) ;;
        let availableAmount := pay_amount payment - totalRefunded in
        match rq_amount req with
        | None =>
            ret (inl (reject 400 "BAD_REQUEST_ERROR" "Refund amount must be a positive integer"))
        | Some amount =>
            if amount <=? 0 then
              ret (inl (reject 400 "BAD_REQUEST_ERROR"
                               "Refund amount must be a positive integer"))
            else if availableAmount <? amount then
              ret (inl (reject 400 "BAD_REQUEST_ERROR"
                               "Refund amount exceeds available amount"))
            else ret (inr amount)
        end
  end.

(** The rest of the handler: the insert, the job, the response. *)
Definition createRefund_commit (merchant payment_id : string) (req : RefundRequest)
           (amount : Z) : M Response :=
  suffix <- generateRandomString 16 ;;
  let refundId := "rfnd_" +++ suffix in
  refund <- insert_row
              (fun d => existsb (fun r => String.eqb (ref_id r) refundId) (refunds d))
              (new_refund refundId payment_id merchant amount (rq_reason req))
              (fun r d => set_refunds (refunds d ++ [r]) d) ;;
  add_refund_job "process-refund" (mkRefundJobData (ref_id refund)) 0 ;;;
  ret (mkResponse 201 (refund_response refund)).

Definition createRefund (merchant payment_id : string) (req : RefundRequest) : M Response :=
  try_catch
    (v <- createRefund_validate merchant payment_id req ;;
     match v with
     | inl rejection => ret rejection
     | inr amount => createRefund_commit merchant payment_id req amount
     end)
    (fun _ => ret server_error).

(** Two requests in flight at once. Every [await] hands control back to the
    event loop, so a second request may run between the last read of the
    first and its insert; this is the schedule in which both requests
    validate before either writes. *)
Definition createRefund_overlapped (merchant1 payment1 : string) (req1 : RefundRequest)
           (merchant2 payment2 : string) (req2 : RefundRequest) : M (Response * Response) :=
  v1 <- try_catch (createRefund_validate merchant1 payment1 req1)
                  (fun _ => ret (inl server_error)) ;;
  v2 <- try_catch (createRefund_validate merchant2 payment2 req2)
                  (fun _ => ret (inl server_error)) ;;
  r1 <- match v1 with
        | inl rejection => ret rejection
        | inr amount => try_catch (createRefund_commit merchant1 payment1 req1 amount)
                                  (fun _ => ret server_error)
        end ;;
  r2 <- match v2 with
        | inl rejection => ret rejection
        | inr amount => try_catch (createRefund_commit merchant2 payment2 req2 amount)
                                  (fun _ => ret server_error)
        end ;;
  ret (r1, r2).

End PaymentsRoute.
Export PaymentsRoute.

(** ** routes/webhooks.js *)

Module WebhooksRoute.

Definition reset_log (l : WebhookLog) : WebhookLog :=
  mkWebhookLog (log_id l) (log_merchant_id l) (log_event l) (log_payload l)
               "pending" 0 (log_last_attempt_at l) None
               (log_response_code l) (log_response_body l) (log_created_at l).

(** [POST /api/v1/webhooks/:webhook_id/retry]. The ids of the logs are the
    texts of the UUIDs of the column ([is_uuid]), and [webhook_id] is
    compared with them as such a text. *)
Definition retryWebhook (merchant webhook_id : string) : M Response :=
  try_catch
    (logResult <- query (webhook_logs_by_id_and_merchant webhook_id merchant) ;;
     match logResult with
     | [] => ret (reject 404 "NOT_FOUND" "Webhook log not found")
     | log :: _ =>
         execute (fun _ => update_log webhook_id reset_log) ;;;
         add_webhook_job "deliver-webhook"
           (mkWebhookJobData webhook_id merchant (log_event log) (log_payload log)) 0 ;;;
         ret (mkResponse 200 (JObj [("id", JStr webhook_id);
                                    ("status", JStr "pending");
                                    ("message", JStr "Webhook retry scheduled")]))
     end)
    (fun _ => ret (reject 500 "SERVER_ERROR" "Failed to retry webhook")).

End WebhooksRoute.
Export WebhooksRoute.

(** ** The design document's own words, for comparison with the code *)

Module Design.

(** "delay table (attempt 1-indexed, production): [0, 60_000, 300_000,
    1_800_000, 7_200_000] ms, clamped to the last entry beyond index 4" *)
Definition production_table : list Z := [0; 60000; 300000; 1800000; 7200000].

Definition production_delay (attempt : Z) : Z :=
  nth (Z.to_nat (Z.min attempt 4)) production_table 0.

(** "Any 2xx status is success; anything else (including network failure)
    is failure." *)
Definition wire_success (o : WireOutcome) : bool :=
  match o with
  | Responded status _ => (200 <=? status) && (status <? 300)
  | NoResponse _ => false
  end.

(** "sum of amounts of refunds in {pending, processed} for a payment must
    never exceed the payment's amount" *)
Definition refunds_within_amount (d : Database) : Prop :=
  forall p, In p (payments d) -> total_refunded (pay_id p) d <= pay_amount p.

(** "HTTP POST, body = UTF-8 JSON, header X-Webhook-Signature: hex
    HMAC-SHA256 of exact body bytes, keyed by merchant webhook secret",
    with the 5 s timeout. *)
Definition signed_request (url secret : string) (p : json) : HttpRequest :=
  let body := stringify p in
  mkHttpRequest url body
    [("Content-Type", "application/json");
     ("X-Webhook-Signature", Crypto.hex (Crypto.hmac_sha256 (Crypto.bytes_of_string secret)
                                                            (Crypto.bytes_of_string body)))]
    5000.

(** Terminal statuses of a payment. *)
Definition terminal (status : string) : bool :=
  String.eqb status "success" || String.eqb status "failed".

End Design.
Export Design.

(** ** Simplification is kept away from the primitives *)

Arguments Crypto.createHmac_sha256_hex : simpl never.
Arguments stringify : simpl never.
Arguments substring0 : simpl never.
Arguments toISOString : simpl never.
Arguments jsonb_in : simpl never.
Arguments String.eqb : simpl nomatch.

(** ** A concrete deployment, for running the handlers *)

Module Scenario.

Definition test_secret : string := "whsec_test_abc123".

Definition merchant1 : Merchant :=
  mkMerchant "m1" (Some "http://localhost:4000/webhook") (Some test_secret).

Definition order1 : Order :=
  mkOrder "order_1" "m1" 50000 "INR" (Some "receipt_1") "created" 1699999000000.

Definition production : Env := mkEnv None None None None.

(** The merchant's endpoint does not answer. *)
Definition unreachable (r : HttpRequest) : WireOutcome :=
  NoResponse "connect ECONNREFUSED 127.0.0.1:4000".

Definition event_payload : json :=
  JObj [("event", JStr "payment.success");
        ("timestamp", JNum 1700000000);
        ("data", JObj [("payment", JObj [("id", JStr "pay_1"); ("amount", JNum 50000)])])].

Definition log1 (attempts : Z) : WebhookLog :=
  mkWebhookLog "log-1" "m1" "payment.success" (jsonb_in event_payload)
               "pending" attempts None None None None 1700000000000.

Definition job1 : Job WebhookJobData :=
  mkJob "deliver-webhook" (mkWebhookJobData "log-1" "m1" "payment.success" event_payload) 0.

Definition world_of_tables (d : Database) (net : HttpRequest -> WireOutcome) : World :=
  mkWorld d (mkQueues [] [] []) 1700000000000 production [] [] [] net [].

(** One log waiting for delivery. *)
Definition delivery_world (attempts : Z) (net : HttpRequest -> WireOutcome) : World :=
  world_of_tables (mkDatabase [merchant1] [order1] [] [] [log1 attempts] []) net.

(** A log whose automatic retries are used up. *)
Definition given_up_log : WebhookLog :=
  mkWebhookLog "log-1" "m1" "payment.success" (jsonb_in event_payload)
               "failed" 5 (Some 1700000000000) (Some 1700007200000)
               (Some 0) (Some "connect ECONNREFUSED 127.0.0.1:4000") 1699990000000.

Definition given_up_world : World :=
  world_of_tables (mkDatabase [merchant1] [order1] [] [] [given_up_log] []) unreachable.

(** A log under the id that [gen_random_uuid()] gave it. *)
Definition stored_log_id : string := "0b9f6a52-3c1d-4e8a-9f27-5d6c1a2b3c4d".

Definition stored_log : WebhookLog :=
  mkWebhookLog stored_log_id "m1" "payment.success" (jsonb_in event_payload)
               "failed" 5 (Some 1700000000000) (Some 1700007200000)
               (Some 0) (Some "connect ECONNREFUSED 127.0.0.1:4000") 1699990000000.

Definition stored_world : World :=
  world_of_tables (mkDatabase [merchant1] [order1] [] [] [stored_log] []) unreachable.

(** Two secrets with the same HMAC: one of 70 characters, longer than the
    block of SHA-256, and the text whose 32 bytes are its SHA-256 digest,
    27 characters. *)
Definition long_secret : string :=
  "whsec_00000000000000000000000000000000000000000000000000000000049c1aa5".

Definition digest_secret : string :=
  Crypto.string_of_bytes
    [69; 227; 131; 138; 42; 67; 71; 90; 108; 199; 190; 17; 68; 72; 89; 127;
     73; 66; 52; 223; 163; 37; 122; 97; 122; 86; 1; 100; 13; 208; 179; 19].

End Scenario.

(** ** What a run computes, as pure functions of the world it starts in *)

Module Runs.

(** The string [generateRandomString] builds from the coming draws. *)
Fixpoint draw_string (length : nat) (draws : list Z) : string :=
  match length with
  | O => EmptyString
  | S n =>
      match draws with
      | k :: rest => charAt (floor_of_product k 62) chars +++ draw_string n rest
      | [] => charAt (floor_of_product 0 62) chars +++ draw_string n []
      end
  end.

(** The payment a creation request inserts. *)
Definition created_payment (merchant : string) (req : PaymentRequest) (order : Order)
           (w : World) : Payment :=
  new_payment ("pay_" +++ draw_string 16 (random w)) merchant order req (clock w).

(** The world after a creation request that went through. *)
Definition created_world (merchant : string) (req : PaymentRequest) (order : Order)
           (w : World) : World :=
  let p := created_payment merchant req order w in
  let w1 := set_random (skipn 16 (random w)) w in
  let w2 := set_db (set_payments (payments (db w) ++ [p]) (db w)) w1 in
  let w3 := set_queues
              (set_paymentQueue
                 (paymentQueue (queues w)
                    ++ [mkJob "process-payment" (mkPaymentJobData (pay_id p)) 0])
                 (queues w)) w2 in
  match idempotency_header req with
  | Some key =>
      set_db (upsert_key key merchant (payment_response p)
                         (clock w + 24 * 60 * 60 * 1000) (clock w) (db w3)) w3
  | None => w3
  end.

(** The world after a delivery attempt on [log] that succeeded. *)
Definition after_success (w : World) (job : Job WebhookJobData) (url secret : string)
           (log : WebhookLog) (code : option Z) (body : option string) : World :=
  let id := webhookLogId (job_data job) in
  let n := log_attempts log + 1 in
  let posted := set_sent (sent w ++ [signed_request url secret (payload (job_data job))]) w in
  set_db (update_log id (mark_success n code body (clock w)) (db w)) posted.

(** The world after a delivery attempt on [log] that failed. *)
Definition after_failure (w : World) (job : Job WebhookJobData) (url secret : string)
           (log : WebhookLog) (code : option Z) (body : option string) : World :=
  let id := webhookLogId (job_data job) in
  let n := log_attempts log + 1 in
  let posted := set_sent (sent w ++ [signed_request url secret (payload (job_data job))]) w in
  let marked :=
    set_db (update_log id
              (mark_failure (if 5 <=? n then "failed" else "pending") n
                            (clock w + getRetryDelay (env w) n) code body (clock w))
              (db w)) posted in
  if n <? 5 then
    set_queues (set_webhookQueue
                  (webhookQueue (queues w)
                     ++ [mkJob "deliver-webhook" (job_data job) (getRetryDelay (env w) n)])
                  (queues w)) marked
  else marked.

(** The method-specific fields the handler insists on. *)
Definition method_fields_given (req : PaymentRequest) : Prop :=
  (rq_method req = "card"
   /\ truthy (rq_card_number req) = true
   /\ truthy (rq_card_expiry req) = true
   /\ truthy (rq_card_cvv req) = true)
  \/ (rq_method req = "upi" /\ truthy (rq_vpa req) = true).

(** The fields of a request that go into a column, each stored as it comes
    by its column: [card_number VARCHAR(19)],
    [card_expiry VARCHAR(7)], [card_cvv VARCHAR(4)] and [vpa VARCHAR(255)]. *)
Definition payment_fields_fit (req : PaymentRequest) : Prop :=
  varchar_null 19 (or_null (rq_card_number req)) = Some (or_null (rq_card_number req))
  /\ varchar_null 7 (or_null (rq_card_expiry req)) = Some (or_null (rq_card_expiry req))
  /\ varchar_null 4 (or_null (rq_card_cvv req)) = Some (or_null (rq_card_cvv req))
  /\ varchar_null 255 (or_null (rq_vpa req)) = Some (or_null (rq_vpa req)).

End Runs.
Export Runs.

(** ** A shop with one order, and a client that names its request *)

Module Shop.

Definition draws : list Z :=
  map (fun i => i * 100000000000000)
      [ 1;  2;  3;  4;  5;  6;  7;  8;  9; 10; 11; 12; 13; 14; 15; 16; 17; 18; 19; 20;
       21; 22; 23; 24; 25; 26; 27; 28; 29; 30; 31; 32; 33; 34; 35; 36; 37; 38; 39; 40;
       41; 42; 43; 44; 45; 46; 47; 48; 49; 50; 51; 52; 53; 54; 55; 56; 57; 58; 59; 60;
       61; 62; 63; 64; 65; 66; 67; 68; 69; 70; 71; 72; 73; 74; 75; 76; 77; 78; 79; 80].

Definition tables : Database :=
  mkDatabase [Scenario.merchant1] [Scenario.order1] [] [] [] [].

Definition world : World :=
  mkWorld tables (mkQueues [] [] []) 1700000000000 Scenario.production
          draws ["uuid-1"; "uuid-2"; "uuid-3"; "uuid-4"] []
          Scenario.unreachable [].

Definition request : PaymentRequest :=
  mkPaymentRequest "order_1" "upi" None None None (Some "user@paytm") (Some "key-1").

(** The same world a day and a second later. *)
Definition later (w : World) : World := set_clock (clock w + 86401000) w.

(** The world once the request has been served for the first time. *)
Definition after_first : World := world_of (createPayment "m1" request world).

End Shop.

(** ** routes/orders.js *)

Module OrdersRoute.

Record OrderRequest := mkOrderRequest {
  rq_order_amount : option Z;
  rq_currency : option string;
  rq_receipt : option string }.

Definition new_order (id merchant : string) (amount : Z) (currency : string)
           (receipt : option string) (now : Z) : Order :=
  mkOrder id merchant amount currency receipt "created" now.

(** What the columns [amount INTEGER], [currency VARCHAR(3)] and
    [receipt VARCHAR(255)] store for the values of a request, [None] when
    one of them is refused. *)
Definition order_columns (amount : Z) (currency : string) (receipt : option string)
  : option (string * option string) :=
  if fits_integer amount then
    match varchar 3 currency with
    | Some c =>
        match varchar_null 255 receipt with
        | Some r => Some (c, r)
        | None => None
        end
    | None => None
    end
  else None.

Definition order_response (o : Order) : json :=
  JObj [("id", JStr (ord_id o)); ("amount", JNum (ord_amount o));
        ("currency", JStr (ord_currency o)); ("receipt", nullable (ord_receipt o));
        ("status", JStr (ord_status o)); ("created_at", JDate (ord_created_at o))].

(** [POST /api/v1/orders]; the file has its own copy of
    [generateRandomString], the same function. The request is the body with
    an integer or no [amount], and a string or nothing for [currency] and
    for [receipt]. *)
Definition createOrder (merchant : string) (req : OrderRequest) : M Response :=
  try_catch
    (match rq_order_amount req with
     | None => ret (reject 400 "BAD_REQUEST_ERROR" "Amount must be a positive integer")
     | Some amount =>
         if amount <=? 0 then
           ret (reject 400 "BAD_REQUEST_ERROR" "Amount must be a positive integer")
         else
           suffix <- generateRandomString 16 ;;
           let orderId := "order_" +++ suffix in
           match order_columns amount
                               (match rq_currency req with Some c => c | None => "INR" end)
                               (rq_receipt req) with
           | None => io ;;; throw data_exception
           | Some (currency, receipt) =>
               order <- insert_row
                          (fun d => existsb (fun o => String.eqb (ord_id o) orderId) (orders d))
                          (new_order orderId merchant amount currency receipt)
                          (fun o d => set_orders (orders d ++ [o]) d) ;;
               ret (mkResponse 201 (order_response order))
           end
     end)
    (fun _ => ret server_error).

End OrdersRoute.
Export OrdersRoute.

(** ** The system: requests and jobs, one after the other *)

Module System.

(** What can happen: a request is served, or a worker runs a job. A worker
    is handed the jobs of its queue, and may be handed a job again (the
    queue delivers at least once). *)
Inductive Operation :=
| CreateOrder (merchant : string) (req : OrderRequest)
| CreatePayment (merchant : string) (req : PaymentRequest)
| CapturePayment (merchant id : string) (amount : option Z)
| CreateRefund (merchant payment_id : string) (req : RefundRequest)
| RetryWebhook (merchant webhook_id : string)
| ProcessPayment (job : Job PaymentJobData)
| ProcessRefund (job : Job RefundJobData)
| DeliverWebhook (job : Job WebhookJobData).

(** The world after an operation that ran from its first statement to its
    last with nothing in between. *)
Definition run (op : Operation) (w : World) : World :=
  match op with
  | CreateOrder merchant req => world_of (createOrder merchant req w)
  | CreatePayment merchant req => world_of (createPayment merchant req w)
  | CapturePayment merchant id amount => world_of (capturePayment merchant id amount w)
  | CreateRefund merchant payment_id req => world_of (createRefund merchant payment_id req w)
  | RetryWebhook merchant webhook_id => world_of (retryWebhook merchant webhook_id w)
  | ProcessPayment job => world_of (processPayment job w)
  | ProcessRefund job => world_of (processRefund job w)
  | DeliverWebhook job => world_of (deliverWebhook job w)
  end.

(** A history: operations one at a time, and between them anything may
    happen to the surroundings (time passes, the network and the store come
    and go) as long as tables and queues are left alone. *)
Inductive history : World -> list Operation -> World -> Prop :=
| history_done (w : World) : history w [] w
| history_surroundings (w w' w'' : World) (ops : list Operation) :
    db w' = db w -> queues w' = queues w ->
    history w' ops w'' -> history w ops w''
| history_operation (w w'' : World) (op : Operation) (ops : list Operation) :
    history (run op w) ops w'' -> history w (op :: ops) w''.

Definition payment_ids (d : Database) : list string := map pay_id (payments d).

(** What the schema and the code keep true of the tables: payment ids are a
    primary key, a refund refers to a payment, order amounts are positive,
    and a refund is [pending] or [processed]. *)
Record consistent (d : Database) : Prop := mkConsistent {
  payments_unique : NoDup (payment_ids d);
  refunds_reference : forall r, In r (refunds d) -> In (ref_payment_id r) (payment_ids d);
  orders_positive : forall o, In o (orders d) -> 0 < ord_amount o;
  refunds_counted : forall r, In r (refunds d) -> counts_as_refunded r = true }.

(** The effect of one operation on orders, payments and refunds, apart from
    the settlement of a payment. *)
Inductive quiet_effect (d d' : Database) : Prop :=
| effect_none :
    orders d' = orders d -> payments d' = payments d -> refunds d' = refunds d ->
    quiet_effect d d'
| effect_order (o : Order) :
    0 < ord_amount o ->
    orders d' = orders d ++ [o] -> payments d' = payments d -> refunds d' = refunds d ->
    quiet_effect d d'
| effect_payment (p : Payment) (o : Order) :
    In o (orders d) -> pay_amount p = ord_amount o -> pay_status p = "pending" ->
    ~ In (pay_id p) (payment_ids d) ->
    orders d' = orders d -> payments d' = payments d ++ [p] -> refunds d' = refunds d ->
    quiet_effect d d'
| effect_touched (f : Payment -> Payment) :
    (forall p, pay_id (f p) = pay_id p /\ pay_amount (f p) = pay_amount p
               /\ pay_status (f p) = pay_status p) ->
    orders d' = orders d -> payments d' = map f (payments d) -> refunds d' = refunds d ->
    quiet_effect d d'
| effect_refund (r : Refund) (p : Payment) :
    In p (payments d) -> ref_payment_id r = pay_id p -> ref_status r = "pending" ->
    total_refunded (pay_id p) d + ref_amount r <= pay_amount p ->
    orders d' = orders d -> payments d' = payments d -> refunds d' = refunds d ++ [r] ->
    quiet_effect d d'
| effect_processed (f : Refund -> Refund) :
    (forall r, ref_payment_id (f r) = ref_payment_id r /\ ref_amount (f r) = ref_amount r
               /\ (f r = r \/ ref_status (f r) = "processed")) ->
    orders d' = orders d -> payments d' = payments d -> refunds d' = map f (refunds d) ->
    quiet_effect d d'.

(** The settlement of the payments with a given id: they take a terminal
    status; nothing else moves. *)
Definition settled (id : string) (d d' : Database) : Prop :=
  exists f : Payment -> Payment,
    (forall p, pay_id (f p) = pay_id p /\ pay_amount (f p) = pay_amount p
               /\ terminal (pay_status (f p)) = true)
    /\ orders d' = orders d
    /\ payments d' = map (fun p => if String.eqb (pay_id p) id then f p else p) (payments d)
    /\ refunds d' = refunds d.

(** The payment an operation settles, if it is a run of the payment job. *)
Definition settles (op : Operation) : option string :=
  match op with
  | ProcessPayment job => Some (paymentId (job_data job))
  | _ => None
  end.


End System.
Export System.

(** ** A settled payment, for the refund and settlement scenarios *)

Module Ledger.

Definition paid : Payment :=
  mkPayment "pay_1" "order_1" "m1" 50000 "INR" "upi" None None None (Some "user@paytm")
            "success" None None false 1700000000000 1700000007000.

Definition earlier_refund : Refund :=
  mkRefund "rfnd_0" "pay_1" "m1" 30000 (Some "damaged") "processed"
           1700000100000 (Some 1700000104000).

Definition tables (rs : list Refund) : Database :=
  mkDatabase [Scenario.merchant1] [Scenario.order1] [paid] rs [] [].

Definition world (rs : list Refund) (draws : list Z) : World :=
  mkWorld (tables rs) (mkQueues [] [] []) 1700000200000 Scenario.production
          draws ["uuid-1"; "uuid-2"; "uuid-3"; "uuid-4"] [] Scenario.unreachable [].

Definition refund_of (amount : Z) : RefundRequest :=
  mkRefundRequest (Some amount) (Some "customer request").

Definition settle_again : Job PaymentJobData :=
  mkJob "process-payment" (mkPaymentJobData "pay_1") 0.

(** Draws under which the settlement of a UPI payment fails: the first is
    spent on the processing delay, the second is above the success rate. *)
Definition unlucky : list Z := [0; 9000000000000000].

End Ledger.

(** ** The read routes: [GET /api/v1/payments/:id], [GET /api/v1/orders/:id]
       and [GET /api/v1/refunds/:id] *)

Module ReadRoutes.

Definition refunds_by_id_and_merchant (id merchant : string) (d : Database) : list Refund :=
  filter (fun r => String.eqb (ref_id r) id && String.eqb (ref_merchant_id r) merchant)
         (refunds d).

Definition nullable_date (v : option Z) : json :=
  match v with Some ms => JDate ms | None => JNull end.



(** [GET /api/v1/orders/:id] (routes/orders.js) *)
Definition getOrder (merchant id : string) : M Response :=
  try_catch
    (result <- query (orders_by_id_and_merchant id merchant) ;;
     match result with
     | [] => ret (reject 404 "NOT_FOUND_ERROR" "Order not found")
     | order :: _ => ret (mkResponse 200 (order_response order))
     end)
    (fun _ => ret server_error).

Definition refund_details (r : Refund) : json :=
  JObj [("id", JStr (ref_id r)); ("payment_id", JStr (ref_payment_id r));
        ("amount", JNum (ref_amount r)); ("reason", nullable (ref_reason r));
        ("status", JStr (ref_status r)); ("created_at", JDate (ref_created_at r));
        ("processed_at", nullable_date (ref_processed_at r))].

(** [GET /api/v1/refunds/:id] (routes/refunds.js) *)
Definition getRefund (merchant id : string) : M Response :=
  try_catch
    (result <- query (refunds_by_id_and_merchant id merchant) ;;
     match result with
     | [] => ret (reject 404 "NOT_FOUND_ERROR" "Refund not found")
     | refund :: _ => ret (mkResponse 200 (refund_details refund))
     end)
    (fun _ => ret server_error).

End ReadRoutes.
Export ReadRoutes.

(** ** routes/webhooks.js: the list of deliveries and the test event *)

Module WebhookAdmin.








Definition test_payload (now : Z) : json :=
  JObj [("event", JStr "webhook.test");
        ("timestamp", JNum (now / 1000));
        ("data", JObj [("test", JBool true);
                       ("message", JStr "This is a test webhook from your payment gateway")])].

(** [POST /api/v1/webhooks/test] *)
Definition testWebhook (merchant : string) : M Response :=
  try_catch
    (merchantResult <- query (merchants_by_id merchant) ;;
     match merchantResult with
     | [] => throw (Error "TypeError: cannot read properties of undefined")
     | m :: _ =>
         if negb (truthy (mer_webhook_url m)) then
           ret (reject 400 "BAD_REQUEST_ERROR" "Webhook URL not configured")
         else
           now <- Date_now ;;
           let payload := test_payload now in
           webhookLogId <- insert_webhook_log merchant "webhook.test" payload ;;
           add_webhook_job "deliver-webhook"
             (mkWebhookJobData webhookLogId merchant "webhook.test" payload) 0 ;;;
           ret (mkResponse 200 (JObj [("id", JStr webhookLogId);
                                      ("message", JStr "Test webhook enqueued for delivery")]))
     end)
    (fun _ => ret (reject 500 "SERVER_ERROR" "Failed to send test webhook")).

End WebhookAdmin.
Export WebhookAdmin.

(** ** workers/index.js: the worker of the webhook queue

    [webhookQueue.process('deliver-webhook', job => deliverWebhook(job))]:
    the queue hands its jobs to the handler one at a time, in the order they
    were added. A job added with a delay is handed over once the delay has
    passed, counted from the moment the handler that added it returned: the
    timing of the retry jobs, each of which is added by the run before it.
    The loop ends when the queue is empty, and stops at a handler that
    throws, where the retry policy of the queue itself would take over. *)

Module Worker.

Definition take_webhook_job (w : World) : option (Job WebhookJobData * World) :=
  match webhookQueue (queues w) with
  | [] => None
  | job :: rest =>
      Some (job, set_clock (clock w + job_delay job)
                           (set_queues (set_webhookQueue rest (queues w)) w))
  end.

Fixpoint drain_webhooks (fuel : nat) : M unit :=
  match fuel with
  | O => ret tt
  | S n =>
      fun w => match take_webhook_job w with
               | None => Ok tt w
               | Some (job, w1) => (deliverWebhook job ;;; drain_webhooks n) w1
               end
  end.

(** The waits of [k] retries in a row, the first of them after attempt
    [n]. *)
Fixpoint retry_waits (e : Env) (k : nat) (n : Z) : Z :=
  match k with
  | O => 0
  | S k' => getRetryDelay e n + retry_waits e k' (n + 1)
  end.

End Worker.
Export Worker.

(* ====================================================================== *)
(** * Properties *)
(* ====================================================================== *)

(** ** The platform model agrees with the published test vectors *)

Example sha256_abc :
  Crypto.hex (Crypto.sha256 (Crypto.bytes_of_string "abc"))
  = "ba7816bf8f01cfea414140de5dae2223b00361a396177a9cb410ff61f20015ad".
Proof. vm_compute. reflexivity. Qed.

Example sha256_empty :
  Crypto.hex (Crypto.sha256 [])
  = "e3b0c44298fc1c149afbf4c8996fb92427ae41e4649b934ca495991b7852b855".
Proof. vm_compute. reflexivity. Qed.

Example sha256_two_blocks :
  Crypto.hex (Crypto.sha256 (Crypto.bytes_of_string
     "abcdbcdecdefdefgefghfghighijhijkijkljklmklmnlmnomnopnopq"))
  = "248d6a61d20638b8e5c026930c3e6039a33ce45964ff2167f6ecedd419db06c1".
Proof. vm_compute. reflexivity. Qed.

Example hmac_rfc4231_case2 :
  Crypto.createHmac_sha256_hex "Jefe" "what do ya want for nothing?"
  = "5bdcc146bf60754e6a042426089575c75a003f089d2739839dec58b964ec3843".
Proof. vm_compute. reflexivity. Qed.

Example hmac_quick_brown_fox :
  Crypto.createHmac_sha256_hex "key" "The quick brown fox jumps over the lazy dog"
  = "f7bc83f430538424b13298e6aa6fb143ef4d59a14946175997479dbc2d1a3cd8".
Proof. vm_compute. reflexivity. Qed.

Example toISOString_epoch : toISOString 0 = "1970-01-01T00:00:00.000Z".
Proof. vm_compute. reflexivity. Qed.

Example toISOString_2023 : toISOString 1700000000123 = "2023-11-14T22:13:20.123Z".
Proof. vm_compute. reflexivity. Qed.

Example toISOString_leap_day : toISOString 951782400000 = "2000-02-29T00:00:00.000Z".
Proof. vm_compute. reflexivity. Qed.

Example stringify_object :
  stringify (JObj [("id", JStr "pay_1"); ("amount", JNum 50000); ("ok", JBool true)])
  = "{" +++ quote "id" +++ ":" +++ quote "pay_1" +++ "," +++ quote "amount" +++ ":50000,"
        +++ quote "ok" +++ ":true}".
Proof. vm_compute. reflexivity. Qed.

Example jsonb_in_reorders :
  jsonb_in (JObj [("order_id", JStr "o"); ("amount", JNum 1); ("id", JStr "p"); ("amount", JNum 2)])
  = JObj [("id", JStr "p"); ("amount", JNum 2); ("order_id", JStr "o")].
Proof. vm_compute. reflexivity. Qed.

(** ** Running the primitives when the store and the queues answer *)

Lemma io_no_faults (w : World) : faults w = [] -> io w = Ok tt w.
Proof. unfold io. intros ->. reflexivity. Qed.

Lemma query_no_faults {A} (f : Database -> A) (w : World) :
  faults w = [] -> query f w = Ok (f (db w)) w.
Proof. intros H. unfold query, bind. rewrite (io_no_faults w H). reflexivity. Qed.

Lemma execute_no_faults (f : Z -> Database -> Database) (w : World) :
  faults w = [] -> execute f w = Ok tt (set_db (f (clock w) (db w)) w).
Proof. intros H. unfold execute, bind. rewrite (io_no_faults w H). reflexivity. Qed.

Lemma add_webhook_job_no_faults (name : string) (data : WebhookJobData) (delay : Z) (w : World) :
  faults w = [] ->
  add_webhook_job name data delay w
  = Ok tt (set_queues (set_webhookQueue (webhookQueue (queues w) ++ [mkJob name data delay])
                                        (queues w)) w).
Proof. intros H. unfold add_webhook_job, bind. rewrite (io_no_faults w H). reflexivity. Qed.

Lemma bind_ok {A B} (m : M A) (k : A -> M B) (w w' : World) (a : A) :
  m w = Ok a w' -> bind m k w = k a w'.
Proof. intros H. unfold bind. rewrite H. reflexivity. Qed.

Lemma try_catch_ok {A} (m : M A) (h : Exn -> M A) (w w' : World) (a : A) :
  m w = Ok a w' -> try_catch m h w = Ok a w'.
Proof. intros H. unfold try_catch. rewrite H. reflexivity. Qed.

Lemma truthy_some (s : string) : s <> EmptyString -> truthy (Some s) = true.
Proof.
  intros H. unfold truthy. destruct (String.eqb_spec s EmptyString); [contradiction | reflexivity].
Qed.

(** ** The retry delay *)

Lemma getRetryDelay_production (e : Env) (n : Z) :
  env_is (WEBHOOK_RETRY_INTERVALS_TEST e) "true" = false ->
  1 <= n ->
  getRetryDelay e n = production_delay n.
Proof.
  intros Hmode Hn. unfold getRetryDelay, production_delay, array_get. rewrite Hmode.
  destruct (Z.ltb_spec n 0); [lia|].
  destruct (Z.to_nat n) as [|[|[|[|[|k]]]]] eqn:E; try lia.
  - replace n with 1 by lia. reflexivity.
  - replace n with 2 by lia. reflexivity.
  - replace n with 3 by lia. reflexivity.
  - replace n with 4 by lia. reflexivity.
  - replace (Z.min n 4) with 4 by lia. simpl. destruct k; reflexivity.
Qed.

(** ** One run of the delivery job *)

Section DeliverRun.

Variables (w : World) (job : Job WebhookJobData).
Variables (merchant : Merchant) (other_merchants : list Merchant).
Variables (url secret : string) (log : WebhookLog) (other_logs : list WebhookLog).

Hypothesis store_up : faults w = [].
Hypothesis merchant_found :
  merchants_by_id (merchantId (job_data job)) (db w) = merchant :: other_merchants.
Hypothesis url_set : mer_webhook_url merchant = Some url.
Hypothesis url_not_empty : url <> EmptyString.
Hypothesis secret_set : mer_webhook_secret merchant = Some secret.
Hypothesis log_found :
  webhook_logs_by_id (webhookLogId (job_data job)) (db w) = log :: other_logs.

Let id := webhookLogId (job_data job).
Let n := log_attempts log + 1.
Let request := signed_request url secret (payload (job_data job)).
Let posted := set_sent (sent w ++ [request]) w.

Lemma deliverWebhook_run :
  deliverWebhook job w =
  match classify (axios_settle (network w request)) with
  | (code, body, true) =>
      Ok (DeliverDone id true n) (after_success w job url secret log code body)
  | (code, body, false) =>
      Ok (DeliverDone id false n) (after_failure w job url secret log code body)
  end.
Proof.
  unfold deliverWebhook, try_catch.
  rewrite (bind_ok _ _ _ _ _ (query_no_faults _ w store_up)), merchant_found.
  rewrite url_set, (truthy_some url url_not_empty). cbn [negb].
  rewrite (bind_ok _ _ _ _ _ (query_no_faults _ w store_up)), log_found.
  rewrite secret_set.
  unfold axios_post at 1.
  unfold bind at 1.
  unfold after_success, after_failure.
  fold id n. change (mkHttpRequest url _ _ 5000) with request. fold posted.
  destruct (classify (axios_settle (network w request))) as [[code body] [|]].
  - unfold bind at 1. rewrite execute_no_faults by exact store_up. reflexivity.
  - unfold bind at 1. unfold calculateNextRetry, Date_now, gets, bind at 1 2 3, ret.
    unfold bind at 1. rewrite execute_no_faults by exact store_up.
    destruct (n <? 5); cbn beta iota.
    + unfold bind at 1. rewrite add_webhook_job_no_faults by exact store_up.
      destruct job as [nm [a b c d] dl]. reflexivity.
    + reflexivity.
Qed.

End DeliverRun.

Lemma classify_flag (o : WireOutcome) :
  snd (classify (axios_settle o)) = wire_success o.
Proof.
  destruct o as [status data | message]; [| reflexivity].
  unfold axios_settle, validateStatus, wire_success.
  destruct ((200 <=? status) && (status <? 300)) eqn:E; simpl; [exact E | reflexivity].
Qed.

Lemma logs_by_id_update_same (id : string) (f : WebhookLog -> WebhookLog) (d : Database) :
  (forall l, log_id (f l) = log_id l) ->
  webhook_logs_by_id id (update_log id f d) = map f (webhook_logs_by_id id d).
Proof.
  intros Hf. unfold webhook_logs_by_id, update_log. simpl.
  induction (webhook_logs d) as [|l ls IH]; [reflexivity|].
  simpl. destruct (String.eqb (log_id l) id) eqn:E.
  - rewrite Hf, E. simpl. now rewrite IH.
  - rewrite E. exact IH.
Qed.

(** ** Webhook retry schedule *)

(** C1. A delivery attempt that fails (a response outside 2xx, or no
    response at all) adds exactly one to the attempts of the log, leaves it
    [pending] when the new count is below 5 and [failed] otherwise, sets
    [next_retry_at] to now plus the production delay for the new count, and
    appends one delivery job for the same log with that delay exactly when
    the new count is below 5; from the fifth failure on the queue is left as
    it is. Production configuration: the test-interval switch is off. *)
Theorem failed_attempt_follows_retry_schedule
  (w : World) (job : Job WebhookJobData)
  (merchant : Merchant) (other_merchants : list Merchant)
  (url secret : string) (log : WebhookLog) (other_logs : list WebhookLog) :
  faults w = [] ->
  env_is (WEBHOOK_RETRY_INTERVALS_TEST (env w)) "true" = false ->
  merchants_by_id (merchantId (job_data job)) (db w) = merchant :: other_merchants ->
  mer_webhook_url merchant = Some url ->
  url <> EmptyString ->
  mer_webhook_secret merchant = Some secret ->
  webhook_logs_by_id (webhookLogId (job_data job)) (db w) = log :: other_logs ->
  0 <= log_attempts log ->
  wire_success (network w (signed_request url secret (payload (job_data job)))) = false ->
  let id := webhookLogId (job_data job) in
  let n := log_attempts log + 1 in
  exists (w' : World) (log' : WebhookLog) (rest : list WebhookLog),
    deliverWebhook job w = Ok (DeliverDone id false n) w'
    /\ webhook_logs_by_id id (db w') = log' :: rest
    /\ log_attempts log' = log_attempts log + 1
    /\ log_status log' = (if n <? 5 then "pending" else "failed")
    /\ log_next_retry_at log' = Some (clock w + production_delay n)
    /\ log_last_attempt_at log' = Some (clock w)
    /\ webhookQueue (queues w')
       = webhookQueue (queues w)
         ++ (if n <? 5
             then [mkJob "deliver-webhook" (job_data job) (production_delay n)]
             else []).
Proof.
  intros Hf Hmode Hm Hurl Hne Hsec Hlog Hatt Hfail id n.
  pose proof (deliverWebhook_run w job merchant other_merchants url secret log other_logs
                Hf Hm Hurl Hne Hsec Hlog) as Hrun.
  pose proof (classify_flag (network w (signed_request url secret (payload (job_data job)))))
    as Hflag.
  destruct (classify _) as [[code body] flag]. simpl in Hflag.
  rewrite Hfail in Hflag. subst flag.
  assert (Hdelay : getRetryDelay (env w) n = production_delay n)
    by (apply getRetryDelay_production; [exact Hmode | unfold n; lia]).
  assert (Hstatus : (if 5 <=? n then "failed" else "pending")
                    = (if n <? 5 then "pending" else "failed")).
  { destruct (Z.leb_spec 5 n), (Z.ltb_spec n 5); try reflexivity; lia. }
  eexists. exists (mark_failure (if n <? 5 then "pending" else "failed") n
                                (clock w + production_delay n) code body (clock w) log).
  exists (map (mark_failure (if n <? 5 then "pending" else "failed") n
                            (clock w + production_delay n) code body (clock w)) other_logs).
  split; [exact Hrun|].
  unfold after_failure. fold id n. rewrite Hdelay, Hstatus.
  split.
  - destruct (n <? 5); simpl db;
      (rewrite logs_by_id_update_same by reflexivity); unfold id; rewrite Hlog; reflexivity.
  - repeat split; destruct (n <? 5); simpl; try reflexivity; now rewrite app_nil_r.
Qed.

Lemma failed_attempt_follows_retry_schedule_witness :
  exists (w' : World) (log' : WebhookLog) (rest : list WebhookLog),
    deliverWebhook Scenario.job1 (Scenario.delivery_world 0 Scenario.unreachable)
    = Ok (DeliverDone "log-1" false 1) w'
    /\ webhook_logs_by_id "log-1" (db w') = log' :: rest
    /\ log_attempts log' = 1
    /\ log_status log' = "pending"
    /\ log_next_retry_at log' = Some (1700000000000 + 60000)
    /\ log_last_attempt_at log' = Some 1700000000000
    /\ webhookQueue (queues w')
       = [mkJob "deliver-webhook" (job_data Scenario.job1) 60000].
Proof.
  apply (failed_attempt_follows_retry_schedule
           (Scenario.delivery_world 0 Scenario.unreachable) Scenario.job1
           Scenario.merchant1 [] "http://localhost:4000/webhook" Scenario.test_secret
           (Scenario.log1 0) []);
    try reflexivity; try discriminate; try (simpl; lia).
Defined.

(** The fifth failure in a row closes the log and schedules nothing. *)
Example fifth_failure_is_final :
  let r := deliverWebhook Scenario.job1 (Scenario.delivery_world 4 Scenario.unreachable) in
  value_of r = Some (DeliverDone "log-1" false 5)
  /\ map log_status (webhook_logs (db (world_of r))) = ["failed"]
  /\ webhookQueue (queues (world_of r)) = [].
Proof. vm_compute. repeat split. Qed.

(** ** Outcome of a delivery attempt *)

Lemma utf16_units_range (c : ascii) : (1 <= utf16_units c <= 2)%nat.
Proof. unfold utf16_units. destruct (nat_of_ascii c <? 240)%nat; lia. Qed.

Lemma cut_utf16_short (s : string) : forall n pending,
  (utf16_length_from pending s <= n)%nat -> cut_utf16 n pending s = s.
Proof.
  induction s as [|c rest IH]; intros n pending H; [reflexivity|].
  destruct pending as [|p]; cbn [cut_utf16 utf16_length_from] in *.
  - destruct (Nat.leb_spec (utf16_units c) n) as [Hle|Hgt]; [|lia].
    f_equal. apply IH. lia.
  - f_equal. now apply IH.
Qed.

Lemma cut_utf16_length (s : string) : forall n pending,
  (utf16_length_from pending (cut_utf16 n pending s) <= n)%nat.
Proof.
  induction s as [|c rest IH]; intros n pending; [simpl; lia|].
  destruct pending as [|p]; cbn [cut_utf16].
  - destruct (Nat.leb_spec (utf16_units c) n) as [Hle|Hgt].
    + cbn [utf16_length_from].
      specialize (IH (n - utf16_units c)%nat (continuation_bytes c)). lia.
    + destruct (Nat.eqb_spec n 0) as [->|Hn]; [simpl; lia|].
      vm_compute. lia.
  - cbn [utf16_length_from]. apply IH.
Qed.

Lemma cut_utf16_long (s : string) : forall n pending,
  (n <= utf16_length_from pending s)%nat ->
  utf16_length_from pending (cut_utf16 n pending s) = n.
Proof.
  induction s as [|c rest IH]; intros n pending H; [simpl in *; lia|].
  destruct pending as [|p]; cbn [cut_utf16 utf16_length_from] in *.
  - destruct (Nat.leb_spec (utf16_units c) n) as [Hle|Hgt].
    + cbn [utf16_length_from].
      rewrite IH by lia. lia.
    + pose proof (utf16_units_range c).
      destruct (Nat.eqb_spec n 0) as [->|Hn]; [reflexivity|].
      assert (n = 1%nat) as -> by lia. reflexivity.
  - cbn [utf16_length_from]. now apply IH.
Qed.

Lemma cut_utf16_prefix (s : string) : forall n pending,
  exists kept rest,
    s = kept +++ rest
    /\ (cut_utf16 n pending s = kept
        \/ cut_utf16 n pending s = kept +++ replacement_character).
Proof.
  induction s as [|c rest IH]; intros n pending.
  - exists EmptyString, EmptyString. split; [reflexivity | left; reflexivity].
  - destruct pending as [|p]; cbn [cut_utf16].
    + destruct (utf16_units c <=? n)%nat.
      * destruct (IH (n - utf16_units c)%nat (continuation_bytes c))
          as (kept & rest' & -> & [Hc|Hc]);
          exists (String c kept), rest'; rewrite Hc;
          (split; [reflexivity|]); [left | right]; reflexivity.
      * exists EmptyString, (String c rest). split; [reflexivity|].
        destruct (n =? 0)%nat; [left | right]; reflexivity.
    + destruct (IH n p) as (kept & rest' & -> & [Hc|Hc]);
        exists (String c kept), rest'; rewrite Hc;
        (split; [reflexivity|]); [left | right]; reflexivity.
Qed.

Lemma cut_utf16_ascii (s : string) : forall n,
  is_ascii s = true -> cut_utf16 n 0 s = String.substring 0 n s.
Proof.
  unfold is_ascii.
  induction s as [|c rest IH]; intros n H.
  - destruct n; reflexivity.
  - cbn [list_ascii_of_string forallb] in H. apply andb_true_iff in H.
    destruct H as [Hc Hrest]. apply Nat.ltb_lt in Hc.
    cbn [cut_utf16].
    assert (Hu : utf16_units c = 1%nat).
    { unfold utf16_units. destruct (Nat.ltb_spec (nat_of_ascii c) 240); [reflexivity | lia]. }
    assert (Hk : continuation_bytes c = 0%nat).
    { unfold continuation_bytes. cbv zeta.
      destruct (Nat.ltb_spec (nat_of_ascii c) 192); [reflexivity | lia]. }
    rewrite Hu, Hk.
    destruct n as [|n]; [reflexivity|].
    replace (S n - 1)%nat with n by lia.
    cbn [Nat.leb String.substring]. f_equal. now apply IH.
Qed.

Lemma utf16_length_ascii (s : string) :
  is_ascii s = true -> utf16_length s = String.length s.
Proof.
  unfold is_ascii, utf16_length.
  induction s as [|c rest IH]; intros H; [reflexivity|].
  cbn [list_ascii_of_string forallb] in H. apply andb_true_iff in H.
  destruct H as [Hc Hrest]. apply Nat.ltb_lt in Hc.
  cbn [utf16_length_from String.length].
  assert (Hu : utf16_units c = 1%nat).
  { unfold utf16_units. destruct (Nat.ltb_spec (nat_of_ascii c) 240); [reflexivity | lia]. }
  assert (Hk : continuation_bytes c = 0%nat).
  { unfold continuation_bytes. cbv zeta.
    destruct (Nat.ltb_spec (nat_of_ascii c) 192); [reflexivity | lia]. }
  rewrite Hu, Hk, IH by assumption. reflexivity.
Qed.

(** The cut on some texts: [e] with an acute accent is one code unit in two
    bytes, the emoji U+1F600 two code units in four bytes. *)
Example substring0_cuts :
  let accent := Crypto.string_of_bytes [195; 169] in
  let emoji := Crypto.string_of_bytes [240; 159; 152; 128] in
  substring0 3 "abcdef" = "abc"
  /\ substring0 5 "ab" = "ab"
  /\ substring0 0 "ab" = EmptyString
  /\ substring0 2 ("a" +++ accent +++ "b") = "a" +++ accent
  /\ substring0 1 ("a" +++ emoji +++ "b") = "a"
  /\ substring0 2 ("a" +++ emoji +++ "b") = "a" +++ replacement_character
  /\ substring0 3 ("a" +++ emoji +++ "b") = "a" +++ emoji
  /\ utf16_length ("a" +++ emoji +++ accent) = 4%nat.
Proof. vm_compute. repeat split. Qed.

Lemma wire_success_iff (o : WireOutcome) :
  wire_success o = true <->
  exists status data, o = Responded status data /\ 200 <= status < 300.
Proof.
  split.
  - destruct o as [status data | message]; simpl; [| discriminate].
    intros H. apply andb_true_iff in H. destruct H as [H1 H2].
    exists status, data. split; [reflexivity | lia].
  - intros (status & data & -> & H). simpl. apply andb_true_iff. split; lia.
Qed.

(** C6. For every delivery attempt the job reports success exactly when a
    response came back with a status in [200, 300); no response at all is
    a failure recorded with response code 0; and on success the log is
    stored with status [success], the attempts count raised by one, the
    time of the attempt, the response code, and the serialized response
    body cut to at most 1000 characters. Characters are counted as
    JavaScript counts them, in UTF-16 code units: a text of at most 1000 is
    stored whole; of a longer one exactly 1000 are stored, which are the
    leading bytes of the text, followed by U+FFFD where the cut falls inside
    a character of two code units; on one-byte characters that is the first
    1000 bytes. *)
Theorem delivery_outcome_and_success_record
  (w : World) (job : Job WebhookJobData)
  (merchant : Merchant) (other_merchants : list Merchant)
  (url secret : string) (log : WebhookLog) (other_logs : list WebhookLog) :
  faults w = [] ->
  merchants_by_id (merchantId (job_data job)) (db w) = merchant :: other_merchants ->
  mer_webhook_url merchant = Some url ->
  url <> EmptyString ->
  mer_webhook_secret merchant = Some secret ->
  webhook_logs_by_id (webhookLogId (job_data job)) (db w) = log :: other_logs ->
  let id := webhookLogId (job_data job) in
  let n := log_attempts log + 1 in
  let outcome := network w (signed_request url secret (payload (job_data job))) in
  exists (w' : World) (log' : WebhookLog) (rest : list WebhookLog),
    deliverWebhook job w = Ok (DeliverDone id (wire_success outcome) n) w'
    /\ (wire_success outcome = true <->
        exists status data, outcome = Responded status data /\ 200 <= status < 300)
    /\ webhook_logs_by_id id (db w') = log' :: rest
    /\ log_attempts log' = n
    /\ log_last_attempt_at log' = Some (clock w)
    /\ (forall message, outcome = NoResponse message ->
          log_response_code log' = Some 0 /\ log_status log' <> "success")
    /\ (forall status data, outcome = Responded status data -> 200 <= status < 300 ->
          let text := stringify data in
          exists body : string,
            log_status log' = "success"
            /\ log_response_code log' = Some status
            /\ log_response_body log' = Some body
            /\ body = substring0 1000 text
            /\ ((utf16_length text <= 1000)%nat -> body = text)
            /\ ((1000 <= utf16_length text)%nat -> utf16_length body = 1000%nat)
            /\ (exists kept rest : string,
                  text = kept +++ rest
                  /\ (body = kept \/ body = kept +++ replacement_character))
            /\ (is_ascii text = true -> body = String.substring 0 1000 text)
            /\ log_next_retry_at log' = log_next_retry_at log
            /\ queues w' = queues w).
Proof.
  intros Hf Hm Hurl Hne Hsec Hlog id n outcome.
  pose proof (deliverWebhook_run w job merchant other_merchants url secret log other_logs
                Hf Hm Hurl Hne Hsec Hlog) as Hrun.
  fold outcome in Hrun.
  pose proof (classify_flag outcome) as Hflag.
  pose proof (wire_success_iff outcome) as Hiff.
  destruct (wire_success outcome) eqn:Hw.
  - (* a response in 2xx *)
    destruct (proj1 (wire_success_iff outcome) Hw) as (status & data & Ho & Hrange).
    rewrite Ho in Hrun, Hflag. unfold axios_settle, validateStatus in Hrun.
    replace ((200 <=? status) && (status <? 300)) with true in Hrun
      by (symmetry; apply andb_true_iff; split; lia).
    simpl classify in Hrun.
    replace ((200 <=? status) && (status <? 300)) with true in Hrun
      by (symmetry; apply andb_true_iff; split; lia).
    eexists. eexists. eexists. split; [exact Hrun|].
    split; [exact Hiff|].
    unfold after_success. simpl db.
    rewrite logs_by_id_update_same by reflexivity. rewrite Hlog. simpl map.
    split; [reflexivity|]. split; [reflexivity|]. split; [reflexivity|].
    split.
    + intros message Hno. rewrite Ho in Hno. discriminate.
    + intros status' data' Hresp _. rewrite Ho in Hresp. injection Hresp as <- <-.
      exists (substring0 1000 (stringify data)).
      do 4 (split; [reflexivity|]).
      split; [intros H; now apply cut_utf16_short|].
      split; [intros H; now apply cut_utf16_long|].
      split; [apply cut_utf16_prefix|].
      split; [intros H; now apply cut_utf16_ascii|].
      split; reflexivity.
  - (* anything else *)
    destruct (classify (axios_settle outcome)) as [[code body] flag] eqn:Hc.
    simpl in Hflag. subst flag.
    eexists. eexists. eexists. split; [exact Hrun|].
    split; [exact Hiff|].
    unfold after_failure. fold n.
    assert (Hlogs : forall st, webhook_logs_by_id id
              (update_log id (mark_failure st n (clock w + getRetryDelay (env w) n)
                                           code body (clock w)) (db w))
              = map (mark_failure st n (clock w + getRetryDelay (env w) n)
                                  code body (clock w)) (log :: other_logs)).
    { intros st. rewrite logs_by_id_update_same by reflexivity.
      unfold id. now rewrite Hlog. }
    split; [destruct (n <? 5); simpl db; fold id; rewrite Hlogs; reflexivity|].
    split; [reflexivity|]. split; [reflexivity|].
    split.
    + intros message Hno. rewrite Hno in Hc. simpl in Hc. injection Hc as <- <-.
      split; [reflexivity|]. simpl. destruct (5 <=? n); discriminate.
    + intros status data Hresp Hrange. rewrite Hresp in Hw. simpl in Hw.
      apply andb_false_iff in Hw. destruct Hw as [Hw|Hw]; lia.
Qed.

Lemma delivery_outcome_and_success_record_witness :
  exists w' : World,
    deliverWebhook Scenario.job1
      (Scenario.delivery_world 0 (receiver Scenario.test_secret))
    = Ok (DeliverDone "log-1" true 1) w'.
Proof.
  destruct (delivery_outcome_and_success_record
              (Scenario.delivery_world 0 (receiver Scenario.test_secret)) Scenario.job1
              Scenario.merchant1 [] "http://localhost:4000/webhook" Scenario.test_secret
              (Scenario.log1 0) [] eq_refl eq_refl eq_refl
              ltac:(discriminate) eq_refl eq_refl)
    as (w' & _ & _ & Hrun & _).
  exists w'. rewrite Hrun. vm_compute. reflexivity.
Defined.

(** ** Webhook signatures *)

Lemma hmac_key_zero_padding (key msg : list Z) :
  (List.length key < 64)%nat ->
  Crypto.hmac_sha256 (key ++ [0]) msg = Crypto.hmac_sha256 key msg.
Proof.
  intros Hlen. unfold Crypto.hmac_sha256.
  assert (Hk : Crypto.block_key (key ++ [0]) = Crypto.block_key key).
  { unfold Crypto.block_key. rewrite length_app. simpl List.length.
    destruct (Z.ltb_spec 64 (Z.of_nat (List.length key + 1))); [lia|].
    destruct (Z.ltb_spec 64 (Z.of_nat (List.length key))); [lia|].
    rewrite length_app. simpl List.length. rewrite <- app_assoc. f_equal.
    replace (64 - List.length key)%nat with (S (64 - (List.length key + 1)))%nat by lia.
    reflexivity. }
  now rewrite Hk.
Qed.

Lemma verify_iff (secret body signature : string) :
  verify secret body (Some signature) = true
  <-> signature = Crypto.createHmac_sha256_hex secret body.
Proof. unfold verify. apply String.eqb_eq. Qed.

Lemma hex_digit_injective (a b : Z) :
  0 <= a < 16 -> 0 <= b < 16 -> Crypto.hex_digit a = Crypto.hex_digit b -> a = b.
Proof.
  intros Ha Hb.
  assert (Ea : a = 0 \/ a = 1 \/ a = 2 \/ a = 3 \/ a = 4 \/ a = 5 \/ a = 6 \/ a = 7 \/ a = 8
               \/ a = 9 \/ a = 10 \/ a = 11 \/ a = 12 \/ a = 13 \/ a = 14 \/ a = 15) by lia.
  assert (Eb : b = 0 \/ b = 1 \/ b = 2 \/ b = 3 \/ b = 4 \/ b = 5 \/ b = 6 \/ b = 7 \/ b = 8
               \/ b = 9 \/ b = 10 \/ b = 11 \/ b = 12 \/ b = 13 \/ b = 14 \/ b = 15) by lia.
  clear Ha Hb.
  repeat (destruct Ea as [->|Ea]); try subst a;
    repeat (destruct Eb as [->|Eb]); try subst b;
    intros H; try reflexivity; vm_compute in H; discriminate H.
Qed.

Lemma hex_injective (a : list Z) : forall b,
  Forall (fun b => 0 <= b < 256) a -> Forall (fun b => 0 <= b < 256) b -> Crypto.hex a = Crypto.hex b -> a = b.
Proof.
  induction a as [|x a IH]; intros [|y b] Ha Hb H; try reflexivity; try discriminate.
  inversion Ha as [|? ? Hx Ha']; subst. inversion Hb as [|? ? Hy Hb']; subst.
  cbn [Crypto.hex] in H. injection H as H1 H2 H3.
  cbv beta in Hx, Hy.
  apply hex_digit_injective in H1;
    [| split; [apply Z.div_pos | apply Z.div_lt_upper_bound]; lia
     | split; [apply Z.div_pos | apply Z.div_lt_upper_bound]; lia].
  apply hex_digit_injective in H2; [| apply Z.mod_pos_bound; lia | apply Z.mod_pos_bound; lia].
  f_equal; [| now apply IH].
  rewrite (Z.div_mod x 16), (Z.div_mod y 16) by lia. now rewrite H1, H2.
Qed.

Lemma bytes_of_words (ws : list Z) :
  Forall (fun b => 0 <= b < 256) (flat_map Crypto.bytes_of_word ws)
  /\ List.length (flat_map Crypto.bytes_of_word ws) = (4 * List.length ws)%nat.
Proof.
  induction ws as [|w ws [IH1 IH2]]; [split; [constructor | reflexivity]|].
  split.
  - cbn [flat_map Crypto.bytes_of_word app].
    repeat (constructor; [apply Z.mod_pos_bound; lia|]). exact IH1.
  - cbn [flat_map Crypto.bytes_of_word app List.length]. rewrite IH2. lia.
Qed.

Lemma absorb_length (fuel : nat) : forall h bs,
  List.length h = 8%nat -> List.length (Crypto.absorb fuel h bs) = 8%nat.
Proof.
  induction fuel as [|fuel IH]; intros h bs Hh.
  - destruct bs; exact Hh.
  - destruct bs as [|b bs]; [exact Hh|].
    cbn [Crypto.absorb]. apply IH. reflexivity.
Qed.

Lemma sha256_bytes (msg : list Z) :
  Forall (fun b => 0 <= b < 256) (Crypto.sha256 msg) /\ List.length (Crypto.sha256 msg) = 32%nat.
Proof.
  unfold Crypto.sha256. cbv zeta.
  destruct (bytes_of_words (Crypto.absorb (List.length (Crypto.pad msg)) Crypto.initial_hash
                                          (Crypto.pad msg))) as [H1 H2].
  split; [exact H1|]. rewrite H2, absorb_length; reflexivity.
Qed.

Lemma block_key_length (key : list Z) : List.length (Crypto.block_key key) = 64%nat.
Proof.
  unfold Crypto.block_key. cbv zeta. rewrite length_app, repeat_length.
  destruct (Z.ltb_spec 64 (Z.of_nat (List.length key))) as [H|H].
  - rewrite (proj2 (sha256_bytes key)). reflexivity.
  - lia.
Qed.

Lemma hmac_sha256_outer (key msg : list Z) :
  Crypto.hmac_sha256 key msg = Crypto.sha256 (Crypto.hmac_outer_input key msg).
Proof. reflexivity. Qed.

Lemma app_same_length {A} (a b c d : list A) :
  List.length a = List.length c -> a ++ b = c ++ d -> a = c /\ b = d.
Proof.
  revert c. induction a as [|x a IH]; intros [|y c] Hlen H; try discriminate.
  - split; [reflexivity | exact H].
  - cbn [app] in H. injection H as -> H. injection Hlen as Hlen.
    destruct (IH c Hlen H) as [-> ->]. split; reflexivity.
Qed.

Lemma map_lxor_injective (c : Z) (a : list Z) : forall b,
  map (Z.lxor c) a = map (Z.lxor c) b -> a = b.
Proof.
  induction a as [|x a IH]; intros [|y b] H; try reflexivity; try discriminate.
  cbn [map] in H. injection H as H1 H2. f_equal; [| now apply IH].
  rewrite <- (Z.lxor_0_l x), <- (Z.lxor_0_l y), <- (Z.lxor_nilpotent c).
  rewrite !Z.lxor_assoc. now rewrite H1.
Qed.

Lemma bytes_of_string_injective (s : string) : forall t,
  Crypto.bytes_of_string s = Crypto.bytes_of_string t -> s = t.
Proof.
  induction s as [|c s IH]; intros [|d t] H; try reflexivity; try discriminate.
  cbn [Crypto.bytes_of_string] in H. injection H as H1 H2.
  apply Nat2Z.inj in H1.
  f_equal; [| now apply IH].
  rewrite <- (ascii_nat_embedding c), <- (ascii_nat_embedding d). now rewrite H1.
Qed.

(** A signature that verifies was made from the same key block and over the
    same body, or else the two computations of the HMAC show a collision of
    SHA-256. *)
Lemma verified_signature_or_collision (secret secret' body body' : string) :
  verify secret' body' (Some (Crypto.createHmac_sha256_hex secret body)) = true ->
  (Crypto.block_key (Crypto.bytes_of_string secret')
   = Crypto.block_key (Crypto.bytes_of_string secret)
   /\ body' = body)
  \/ Crypto.collision (Crypto.hmac_inner_input (Crypto.bytes_of_string secret') (Crypto.bytes_of_string body'))
               (Crypto.hmac_inner_input (Crypto.bytes_of_string secret) (Crypto.bytes_of_string body))
  \/ Crypto.collision (Crypto.hmac_outer_input (Crypto.bytes_of_string secret') (Crypto.bytes_of_string body'))
               (Crypto.hmac_outer_input (Crypto.bytes_of_string secret) (Crypto.bytes_of_string body)).
Proof.
  intros H. unfold verify in H. apply String.eqb_eq in H.
  unfold Crypto.createHmac_sha256_hex in H.
  apply hex_injective in H;
    [| rewrite hmac_sha256_outer; apply sha256_bytes
     | rewrite hmac_sha256_outer; apply sha256_bytes].
  rewrite !hmac_sha256_outer in H.
  set (k := Crypto.bytes_of_string secret) in *.
  set (k' := Crypto.bytes_of_string secret') in *.
  set (m := Crypto.bytes_of_string body) in *.
  set (m' := Crypto.bytes_of_string body') in *.
  destruct (list_eq_dec Z.eq_dec (Crypto.hmac_outer_input k' m') (Crypto.hmac_outer_input k m)) as [Ho|Ho];
    [| right; right; split; [exact Ho | now symmetry]].
  unfold Crypto.hmac_outer_input in Ho.
  apply app_same_length in Ho; [| now rewrite !length_map, !block_key_length].
  destruct Ho as [Hk Hi]. apply map_lxor_injective in Hk.
  destruct (list_eq_dec Z.eq_dec (Crypto.hmac_inner_input k' m') (Crypto.hmac_inner_input k m)) as [Hin|Hin];
    [| right; left; split; assumption].
  left. split; [exact Hk|].
  unfold Crypto.hmac_inner_input in Hin. rewrite Hk in Hin. apply app_inv_head in Hin.
  now apply bytes_of_string_injective.
Qed.


Lemma bytes_of_string_length (s : string) :
  List.length (Crypto.bytes_of_string s) = String.length s.
Proof. induction s as [|c s IH]; [reflexivity |]. cbn. now rewrite IH. Qed.

Lemma zero_padding_injective (a : list Z) : forall (b : list Z) (n m : nat),
  forallb (fun x => negb (x =? 0)) a = true ->
  forallb (fun x => negb (x =? 0)) b = true ->
  a ++ repeat 0 n = b ++ repeat 0 m -> a = b.
Proof.
  induction a as [|x a IH]; intros [|y b] n m Ha Hb H.
  - reflexivity.
  - exfalso. cbn [forallb] in Hb. apply andb_true_iff in Hb. destruct Hb as [Hy _].
    destruct n as [|n]; [discriminate |]. cbn [repeat app] in H. injection H as H _.
    subst y. discriminate.
  - exfalso. cbn [forallb] in Ha. apply andb_true_iff in Ha. destruct Ha as [Hx _].
    destruct m as [|m]; [discriminate |]. cbn [repeat app] in H. injection H as H _.
    subst x. discriminate.
  - cbn [forallb] in Ha, Hb. apply andb_true_iff in Ha, Hb.
    cbn [app] in H. injection H as -> H.
    f_equal. apply (IH b n m); tauto.
Qed.

(** Two different secrets of at most 64 bytes, with no NUL, make different
    keys. *)
Lemma plain_secrets_differ (secret secret' : string) :
  plain_secret secret = true -> plain_secret secret' = true -> secret' <> secret ->
  Crypto.block_key (Crypto.bytes_of_string secret')
  <> Crypto.block_key (Crypto.bytes_of_string secret).
Proof.
  unfold plain_secret. intros H H' Hne Hk.
  apply andb_true_iff in H, H'. destruct H as [Hl Hz], H' as [Hl' Hz'].
  apply Nat.leb_le in Hl, Hl'.
  unfold Crypto.block_key in Hk. cbv zeta in Hk. rewrite !bytes_of_string_length in Hk.
  destruct (Z.ltb_spec 64 (Z.of_nat (String.length secret'))); [lia |].
  destruct (Z.ltb_spec 64 (Z.of_nat (String.length secret))); [lia |].
  apply zero_padding_injective in Hk; [| assumption | assumption].
  apply bytes_of_string_injective in Hk. contradiction.
Qed.

(** A key longer than the block stands for its digest. *)
Lemma hmac_long_key (key msg : list Z) :
  (64 < List.length key)%nat ->
  Crypto.hmac_sha256 key msg = Crypto.hmac_sha256 (Crypto.sha256 key) msg.
Proof.
  intros Hlen. unfold Crypto.hmac_sha256.
  assert (Hk : Crypto.block_key (Crypto.sha256 key) = Crypto.block_key key).
  { unfold Crypto.block_key. cbv zeta. rewrite (proj2 (sha256_bytes key)).
    destruct (Z.ltb_spec 64 (Z.of_nat 32)); [lia |].
    destruct (Z.ltb_spec 64 (Z.of_nat (List.length key))); [| lia].
    reflexivity. }
  now rewrite Hk.
Qed.

Example digest_secret_is_text :
  Crypto.bytes_of_string Scenario.digest_secret
  = Crypto.sha256 (Crypto.bytes_of_string Scenario.long_secret)
  /\ Crypto.utf8_text (Crypto.bytes_of_string Scenario.digest_secret) = true
  /\ characters Scenario.digest_secret = 27%nat
  /\ plain_secret Scenario.digest_secret = true
  /\ Crypto.utf8_text (Crypto.bytes_of_string Scenario.long_secret) = true
  /\ String.length Scenario.long_secret = 70%nat.
Proof. vm_compute. repeat split. Qed.

(** C3, as the design document has it, does not hold: HMAC hashes a key
    that is longer than the 64-byte block of SHA-256, so a receiver whose
    secret is such a key accepts the signatures made with the text of its
    digest, a different secret. Both secrets are text without NUL, and the
    shorter, of 27 characters, is one that [merchants.webhook_secret]
    holds. *)
Lemma different_secret_can_verify :
  ~ (forall (P : json) (S S' : string),
        S' <> S ->
        verify S' (stringify P) (Some (generateWebhookSignature P S)) = false).
Proof.
  intros H.
  assert (Hne : Scenario.long_secret <> Scenario.digest_secret)
    by (vm_compute; discriminate).
  assert (Hok : verify Scenario.long_secret
                       (stringify Scenario.event_payload)
                       (Some (generateWebhookSignature Scenario.event_payload
                                                       Scenario.digest_secret)) = true)
    by (vm_compute; reflexivity).
  rewrite (H _ _ _ Hne) in Hok. discriminate.
Qed.

(** C3. Every webhook that is posted carries, as [X-Webhook-Signature], the
    hex HMAC-SHA256 under the merchant's webhook secret of exactly the
    string sent as the body, which is the serialized payload; a receiver
    holding the same secret accepts that body with that header; and a
    receiver that accepts the header with any secret over any bytes either
    holds a secret that makes the same 64-byte key and has the very bytes
    that were sent, or has found two different messages with the same
    SHA-256 digest. So over a mutated body, and with a different secret
    when both secrets have at most 64 bytes and no NUL, verification fails
    unless it shows such a collision. *)
Theorem webhook_signature_covers_transmitted_body
  (w : World) (job : Job WebhookJobData)
  (merchant : Merchant) (other_merchants : list Merchant)
  (url secret : string) (log : WebhookLog) (other_logs : list WebhookLog) :
  faults w = [] ->
  merchants_by_id (merchantId (job_data job)) (db w) = merchant :: other_merchants ->
  mer_webhook_url merchant = Some url ->
  url <> EmptyString ->
  mer_webhook_secret merchant = Some secret ->
  webhook_logs_by_id (webhookLogId (job_data job)) (db w) = log :: other_logs ->
  exists (r : HttpRequest) (signature : string),
    sent (world_of (deliverWebhook job w)) = sent w ++ [r]
    /\ req_url r = url
    /\ req_body r = stringify (payload (job_data job))
    /\ header "X-Webhook-Signature" (req_headers r) = Some signature
    /\ signature = Crypto.hex (Crypto.hmac_sha256 (Crypto.bytes_of_string secret)
                                                  (Crypto.bytes_of_string (req_body r)))
    /\ signature = generateWebhookSignature (payload (job_data job)) secret
    /\ verify secret (req_body r) (Some signature) = true
    /\ (forall secret' body' : string,
          verify secret' body' (Some signature) = true ->
          (Crypto.block_key (Crypto.bytes_of_string secret')
           = Crypto.block_key (Crypto.bytes_of_string secret)
           /\ body' = req_body r)
          \/ Crypto.collision
               (Crypto.hmac_inner_input (Crypto.bytes_of_string secret')
                                        (Crypto.bytes_of_string body'))
               (Crypto.hmac_inner_input (Crypto.bytes_of_string secret)
                                        (Crypto.bytes_of_string (req_body r)))
          \/ Crypto.collision
               (Crypto.hmac_outer_input (Crypto.bytes_of_string secret')
                                        (Crypto.bytes_of_string body'))
               (Crypto.hmac_outer_input (Crypto.bytes_of_string secret)
                                        (Crypto.bytes_of_string (req_body r))))
    /\ (forall secret' body' : string,
          body' <> req_body r
          \/ (secret' <> secret
              /\ plain_secret secret = true /\ plain_secret secret' = true) ->
          verify secret' body' (Some signature) = true ->
          Crypto.collision
            (Crypto.hmac_inner_input (Crypto.bytes_of_string secret')
                                     (Crypto.bytes_of_string body'))
            (Crypto.hmac_inner_input (Crypto.bytes_of_string secret)
                                     (Crypto.bytes_of_string (req_body r)))
          \/ Crypto.collision
               (Crypto.hmac_outer_input (Crypto.bytes_of_string secret')
                                        (Crypto.bytes_of_string body'))
               (Crypto.hmac_outer_input (Crypto.bytes_of_string secret)
                                        (Crypto.bytes_of_string (req_body r)))).
Proof.
  intros Hf Hm Hurl Hne Hsec Hlog.
  pose proof (deliverWebhook_run w job merchant other_merchants url secret log other_logs
                Hf Hm Hurl Hne Hsec Hlog) as Hrun.
  exists (signed_request url secret (payload (job_data job))).
  exists (generateWebhookSignature (payload (job_data job)) secret).
  split.
  { rewrite Hrun.
    destruct (classify _) as [[code body] [|]]; unfold world_of.
    - reflexivity.
    - unfold after_failure. destruct (_ <? 5); reflexivity. }
  do 5 (split; [reflexivity |]).
  split; [apply verify_iff; reflexivity |].
  change (req_body (signed_request url secret (payload (job_data job))))
    with (stringify (payload (job_data job))).
  change (generateWebhookSignature (payload (job_data job)) secret)
    with (Crypto.createHmac_sha256_hex secret (stringify (payload (job_data job)))).
  split.
  - intros secret' body' H.
    exact (verified_signature_or_collision secret secret' _ body' H).
  - intros secret' body' Hdiffer H.
    destruct (verified_signature_or_collision secret secret' _ body' H)
      as [[Hk Hb] | Hcollision]; [exfalso | exact Hcollision].
    destruct Hdiffer as [Hbody | (Hsecret & Hplain & Hplain')]; [contradiction |].
    exact (plain_secrets_differ secret secret' Hplain Hplain' Hsecret Hk).
Qed.

Lemma webhook_signature_covers_transmitted_body_witness :
  exists (r : HttpRequest) (signature : string),
    sent (world_of (deliverWebhook Scenario.job1
                      (Scenario.delivery_world 0 (receiver Scenario.test_secret)))) = [r]
    /\ header "X-Webhook-Signature" (req_headers r) = Some signature
    /\ verify Scenario.test_secret (req_body r) (Some signature) = true.
Proof.
  destruct (webhook_signature_covers_transmitted_body
              (Scenario.delivery_world 0 (receiver Scenario.test_secret)) Scenario.job1
              Scenario.merchant1 [] "http://localhost:4000/webhook" Scenario.test_secret
              (Scenario.log1 0) [] eq_refl eq_refl eq_refl
              ltac:(discriminate) eq_refl eq_refl)
    as (r & signature & Hsent & _ & _ & Hhead & _ & _ & Hver & _).
  exists r, signature. split; [exact Hsent|]. split; [exact Hhead | exact Hver].
Defined.

(** A mutated body, and an unrelated secret, are turned down. *)
Example tampered_body_is_rejected :
  verify Scenario.test_secret
         (stringify (JObj [("event", JStr "payment.failed")]))
         (Some (generateWebhookSignature Scenario.event_payload Scenario.test_secret))
  = false.
Proof. vm_compute. reflexivity. Qed.

Example unrelated_secret_is_rejected :
  verify "whsec_other"
         (stringify Scenario.event_payload)
         (Some (generateWebhookSignature Scenario.event_payload Scenario.test_secret))
  = false.
Proof. vm_compute. reflexivity. Qed.

(** ** Manual retry *)

Lemma filter_and {A} (p q : A -> bool) (l : list A) :
  filter (fun x => p x && q x) l = filter q (filter p l).
Proof.
  induction l as [|x l IH]; [reflexivity|].
  simpl. destruct (p x); simpl; [destruct (q x); now rewrite IH | exact IH].
Qed.

Lemma logs_by_id_and_merchant_split (id merchant : string) (d : Database) :
  webhook_logs_by_id_and_merchant id merchant d
  = filter (fun l => String.eqb (log_merchant_id l) merchant) (webhook_logs_by_id id d).
Proof. unfold webhook_logs_by_id_and_merchant, webhook_logs_by_id. apply filter_and. Qed.

(** The first failing attempt on a log whose count is 0. *)
Lemma first_attempt_fails
  (w : World) (job : Job WebhookJobData) (merchant : Merchant) (others : list Merchant)
  (url secret : string) (log : WebhookLog) :
  faults w = [] ->
  webhook_logs_by_id (webhookLogId (job_data job)) (db w) = [log] ->
  log_attempts log = 0 ->
  merchants_by_id (merchantId (job_data job)) (db w) = merchant :: others ->
  mer_webhook_url merchant = Some url ->
  url <> EmptyString ->
  mer_webhook_secret merchant = Some secret ->
  env_is (WEBHOOK_RETRY_INTERVALS_TEST (env w)) "true" = false ->
  wire_success (network w (signed_request url secret (payload (job_data job)))) = false ->
  exists (w' : World) (log' : WebhookLog),
    deliverWebhook job w = Ok (DeliverDone (webhookLogId (job_data job)) false 1) w'
    /\ webhook_logs_by_id (webhookLogId (job_data job)) (db w') = [log']
    /\ log_attempts log' = 1
    /\ log_status log' = "pending"
    /\ log_next_retry_at log' = Some (clock w + 60000).
Proof.
  intros Hf Hlog Hzero Hm Hurl Hne Hsec Hmode Hfail.
  pose proof (deliverWebhook_run w job merchant others url secret log []
                Hf Hm Hurl Hne Hsec Hlog) as Hrun.
  pose proof (classify_flag (network w (signed_request url secret (payload (job_data job)))))
    as Hflag.
  destruct (classify _) as [[code body] flag]. cbn [snd] in Hflag.
  rewrite Hfail in Hflag. subst flag.
  rewrite Hzero in Hrun. change (0 + 1) with 1 in Hrun.
  eexists. eexists. split; [exact Hrun|].
  unfold after_failure. rewrite Hzero. change (0 + 1) with 1.
  change (1 <? 5) with true. change (5 <=? 1) with false. cbv iota.
  simpl db. rewrite logs_by_id_update_same by reflexivity. rewrite Hlog. simpl map.
  rewrite (getRetryDelay_production (env w) 1 Hmode) by lia.
  split; [reflexivity|]. repeat split.
Qed.

(** C8. A manual retry of a webhook log of the merchant sets attempts to 0,
    status to [pending] and [next_retry_at] to NULL, whatever they were,
    and appends a delivery job for the log with zero delay; the attempt that
    follows is therefore counted as attempt 1, and if it fails the next one
    is scheduled after the first production delay. *)
Theorem manual_retry_restarts_schedule
  (w : World) (merchant_id webhook_id : string) (log : WebhookLog) :
  faults w = [] ->
  webhook_logs_by_id webhook_id (db w) = [log] ->
  log_merchant_id log = merchant_id ->
  exists (w' : World) (body : json) (log' : WebhookLog),
    retryWebhook merchant_id webhook_id w = Ok (mkResponse 200 body) w'
    /\ webhook_logs_by_id webhook_id (db w') = [log']
    /\ log_attempts log' = 0
    /\ log_status log' = "pending"
    /\ log_next_retry_at log' = None
    /\ log_payload log' = log_payload log
    /\ webhookQueue (queues w')
       = webhookQueue (queues w)
         ++ [mkJob "deliver-webhook"
                   (mkWebhookJobData webhook_id merchant_id (log_event log) (log_payload log))
                   0]
    /\ faults w' = []
    /\ (forall (job : Job WebhookJobData) (merchant : Merchant) (others : list Merchant)
               (url secret : string),
          In job (webhookQueue (queues w')) ->
          webhookLogId (job_data job) = webhook_id ->
          merchants_by_id (merchantId (job_data job)) (db w') = merchant :: others ->
          mer_webhook_url merchant = Some url ->
          url <> EmptyString ->
          mer_webhook_secret merchant = Some secret ->
          env_is (WEBHOOK_RETRY_INTERVALS_TEST (env w')) "true" = false ->
          wire_success (network w' (signed_request url secret (payload (job_data job)))) = false ->
          exists (w'' : World) (log'' : WebhookLog),
            deliverWebhook job w' = Ok (DeliverDone webhook_id false 1) w''
            /\ webhook_logs_by_id webhook_id (db w'') = [log'']
            /\ log_attempts log'' = 1
            /\ log_status log'' = "pending"
            /\ log_next_retry_at log'' = Some (clock w' + 60000)).
Proof.
  intros Hf Hlog Hmer.
  assert (Hrows : webhook_logs_by_id_and_merchant webhook_id merchant_id (db w) = [log]).
  { rewrite logs_by_id_and_merchant_split, Hlog. simpl. rewrite Hmer, String.eqb_refl.
    reflexivity. }
  eexists. eexists. exists (reset_log log).
  split.
  { unfold retryWebhook. apply try_catch_ok.
    rewrite (bind_ok _ _ _ _ _ (query_no_faults _ w Hf)), Hrows.
    rewrite (bind_ok _ _ _ _ _ (execute_no_faults _ w Hf)).
    erewrite bind_ok by (apply add_webhook_job_no_faults; exact Hf).
    reflexivity. }
  simpl db. simpl queues.
  assert (Hafter : webhook_logs_by_id webhook_id (update_log webhook_id reset_log (db w))
                   = [reset_log log])
    by (rewrite logs_by_id_update_same by reflexivity; now rewrite Hlog).
  split; [exact Hafter|].
  do 5 (split; [reflexivity|]).
  split; [exact Hf|].
  intros job merchant others url secret _ Hid Hm Hurl Hne Hsec Hmode Hfail.
  rewrite <- Hid in Hafter |- *.
  apply (first_attempt_fails _ job merchant others url secret (reset_log log));
    try assumption; reflexivity.
Qed.

Lemma manual_retry_restarts_schedule_witness :
  exists (w' : World) (body : json) (log' : WebhookLog),
    retryWebhook "m1" "log-1" Scenario.given_up_world = Ok (mkResponse 200 body) w'
    /\ webhook_logs_by_id "log-1" (db w') = [log']
    /\ log_attempts log' = 0
    /\ log_status log' = "pending"
    /\ log_next_retry_at log' = None
    /\ map job_delay (webhookQueue (queues w')) = [0].
Proof.
  destruct (manual_retry_restarts_schedule Scenario.given_up_world "m1" "log-1"
              Scenario.given_up_log eq_refl eq_refl eq_refl)
    as (w' & body & log' & Hrun & Hlog & Ha & Hs & Hn & _ & Hq & _).
  exists w', body, log'.
  split; [exact Hrun|]. split; [exact Hlog|]. split; [exact Ha|].
  split; [exact Hs|]. split; [exact Hn|]. rewrite Hq. reflexivity.
Defined.

(** ** Creating a payment *)

Lemma set_random_same (w : World) : set_random (random w) w = w.
Proof. destruct w; reflexivity. Qed.

Lemma generateRandomString_run (n : nat) (w : World) :
  generateRandomString n w
  = Ok (draw_string n (random w)) (set_random (skipn n (random w)) w).
Proof.
  revert w. induction n as [|n IH]; intros w.
  - simpl. unfold ret. now rewrite set_random_same.
  - cbn [generateRandomString draw_string]. unfold bind at 1, Math_random.
    destruct (random w) as [|k rest] eqn:E.
    + unfold bind at 1. rewrite IH, E. destruct n; reflexivity.
    + unfold bind at 1. rewrite IH. reflexivity.
Qed.

Lemma add_payment_job_no_faults (name : string) (data : PaymentJobData) (delay : Z) (w : World) :
  faults w = [] ->
  add_payment_job name data delay w
  = Ok tt (set_queues (set_paymentQueue (paymentQueue (queues w) ++ [mkJob name data delay])
                                        (queues w)) w).
Proof. intros H. unfold add_payment_job, bind. rewrite (io_no_faults w H). reflexivity. Qed.

Lemma insert_row_no_faults {R} (taken : Database -> bool) (row : Z -> R)
      (put : R -> Database -> Database) (w : World) :
  faults w = [] ->
  taken (db w) = false ->
  insert_row taken row put w = Ok (row (clock w)) (set_db (put (row (clock w)) (db w)) w).
Proof.
  intros H Ht. unfold insert_row, bind. rewrite (io_no_faults w H), Ht. reflexivity.
Qed.

Lemma storeIdempotencyKey_no_faults (key merchant : string) (response : json) (w : World) :
  faults w = [] ->
  storeIdempotencyKey key merchant response w
  = Ok tt (set_db (upsert_key key merchant response (clock w + 24 * 60 * 60 * 1000)
                              (clock w) (db w)) w).
Proof.
  intros H. unfold storeIdempotencyKey. apply try_catch_ok.
  unfold Date_now, gets, bind at 1. now rewrite execute_no_faults.
Qed.

Lemma createPayment_fresh_run (merchant : string) (req : PaymentRequest)
      (order : Order) (other_orders : list Order) (w : World) :
  faults w = [] ->
  orders_by_id_and_merchant (rq_order_id req) merchant (db w) = order :: other_orders ->
  method_fields_given req ->
  existsb (fun p => String.eqb (pay_id p) ("pay_" +++ draw_string 16 (random w)))
          (payments (db w)) = false ->
  createPayment_fresh merchant req w
  = Ok (mkResponse 201 (payment_response (created_payment merchant req order w)))
       (created_world merchant req order w).
Proof.
  intros Hf Horder Hfields Hfresh. unfold createPayment_fresh.
  rewrite (bind_ok _ _ _ _ _ (query_no_faults _ w Hf)), Horder.
  assert (Hchecks :
    negb (String.eqb (rq_method req) "card" || String.eqb (rq_method req) "upi") = false
    /\ String.eqb (rq_method req) "card"
       && (negb (truthy (rq_card_number req)) || negb (truthy (rq_card_expiry req))
           || negb (truthy (rq_card_cvv req))) = false
    /\ String.eqb (rq_method req) "upi" && negb (truthy (rq_vpa req)) = false).
  { destruct Hfields as [(-> & -> & -> & ->) | (-> & ->)]; repeat split. }
  destruct Hchecks as (-> & -> & ->).
  rewrite (bind_ok _ _ _ _ _ (generateRandomString_run 16 w)).
  erewrite bind_ok by (apply insert_row_no_faults; [exact Hf | exact Hfresh]).
  erewrite bind_ok by (apply add_payment_job_no_faults; exact Hf).
  unfold created_world, created_payment.
  destruct (idempotency_header req) as [key|].
  - erewrite bind_ok by (apply storeIdempotencyKey_no_faults; exact Hf). reflexivity.
  - reflexivity.
Qed.

(** ** The idempotency cache *)

Lemma checkIdempotencyKey_hit (key merchant : string) (record : IdempotencyKey)
      (rest : list IdempotencyKey) (w : World) :
  faults w = [] ->
  idempotency_keys_by_key key merchant (db w) = record :: rest ->
  clock w < idk_expires_at record ->
  checkIdempotencyKey key merchant w = Ok (Some (idk_response record)) w.
Proof.
  intros Hf Hrows Hlive. unfold checkIdempotencyKey. apply try_catch_ok.
  rewrite (bind_ok _ _ _ _ _ (query_no_faults _ w Hf)), Hrows.
  unfold Date_now, gets, bind at 1.
  destruct (Z.leb_spec (idk_expires_at record) (clock w)); [lia | reflexivity].
Qed.




Lemma idempotency_match_refl (key merchant : string) (resp : json) (c e : Z) :
  idempotency_match key merchant (mkIdempotencyKey key merchant resp c e) = true.
Proof. unfold idempotency_match. simpl. now rewrite !String.eqb_refl. Qed.

Lemma filter_map_update {A} (p : A -> bool) (f : A -> A) (l : list A) :
  (forall x, p (f x) = p x) ->
  filter p (map (fun x => if p x then f x else x) l) = map f (filter p l).
Proof.
  intros Hp. induction l as [|x l IH]; [reflexivity|].
  simpl. destruct (p x) eqn:E.
  - rewrite Hp, E. simpl. now rewrite IH.
  - rewrite E. exact IH.
Qed.


Lemma existsb_false_filter {A} (p : A -> bool) (l : list A) :
  existsb p l = false -> filter p l = [].
Proof.
  induction l as [|x l IH]; [reflexivity|].
  simpl. destruct (p x); [discriminate | exact IH].
Qed.


Lemma upsert_key_payments (key merchant : string) (resp : json) (e now : Z) (d : Database) :
  payments (upsert_key key merchant resp e now d) = payments d.
Proof. unfold upsert_key. destruct (existsb _ _); reflexivity. Qed.


Lemma stored_response_is_truthy (p : Payment) :
  json_truthy (jsonb_in (payment_response p)) = true.
Proof. reflexivity. Qed.

(** What the cache holds for a first response has the members of that
    response, each with its value; only their order is the store's. *)
Lemma cached_response_same_members (p : Payment) :
  exists ms ms',
    payment_response p = JObj ms
    /\ jsonb_in (payment_response p) = JObj ms'
    /\ forall k, member k ms' = member k ms.
Proof.
  unfold payment_response, JDate.
  generalize (toISOString (pay_created_at p)) as created.
  generalize (pay_id p) as id, (pay_order_id p) as order, (pay_amount p) as amount,
             (pay_currency p) as currency, (pay_method p) as method,
             (pay_status p) as status.
  intros.
  destruct (pay_vpa p) as [vpa|], (pay_card_number p) as [card|]; unfold opt_member;
    try destruct (String.eqb vpa EmptyString); try destruct (String.eqb card EmptyString);
    (eexists; eexists; split; [reflexivity|]; split; [cbv; reflexivity|]);
    intros k; cbn [member app];
    repeat match goal with
           | |- context [String.eqb k ?s] =>
               destruct (String.eqb_spec k s); [subst k; reflexivity|]
           end;
    reflexivity.
Qed.

(** C4, as the design document has it, does not hold: the replayed body has
    the members of the first response in another order, so other bytes. *)
Lemma replay_is_not_byte_identical :
  ~ (forall (w w1 w2 : World) (merchant key : string) (req : PaymentRequest)
            (first replay : Response) (record : IdempotencyKey) (rest : list IdempotencyKey),
        idempotency_header req = Some key ->
        createPayment merchant req w = Ok first w1 ->
        res_status first = 201 ->
        idempotency_keys_by_key key merchant (db w1) = record :: rest ->
        clock w1 < idk_expires_at record ->
        createPayment merchant req w1 = Ok replay w2 ->
        res_status replay = 201
        /\ body_bytes replay = body_bytes first).
Proof.
  intros H.
  destruct (createPayment "m1" Shop.request Shop.world) as [first w1|] eqn:E1;
    [| vm_compute in E1; discriminate].
  pose proof E1 as E1'. vm_compute in E1'. injection E1' as Hfirst Hw1.
  destruct (createPayment "m1" Shop.request w1) as [replay w2|] eqn:E2;
    [| rewrite <- Hw1 in E2; vm_compute in E2; discriminate].
  pose proof E2 as E2'. rewrite <- Hw1 in E2'. vm_compute in E2'. injection E2' as Hreplay Hw2.
  destruct (idempotency_keys_by_key "key-1" "m1" (db w1)) as [|record rest] eqn:Ek;
    [rewrite <- Hw1 in Ek; vm_compute in Ek; discriminate|].
  assert (Hlive : clock w1 < idk_expires_at record).
  { rewrite <- Hw1 in Ek. vm_compute in Ek. injection Ek as <- _. rewrite <- Hw1.
    vm_compute. reflexivity. }
  assert (Hstatus : res_status first = 201) by (rewrite <- Hfirst; reflexivity).
  destruct (H Shop.world w1 w2 "m1" "key-1" Shop.request first replay record rest
              eq_refl E1 Hstatus Ek Hlive E2) as [_ Hbytes].
  rewrite <- Hfirst, <- Hreplay in Hbytes. vm_compute in Hbytes. discriminate.
Qed.

(** C4. When the request names an idempotency key for which the merchant
    has a cached entry that has not expired, the answer is the cached
    response with status 201, and the world is left exactly as it was: no
    payment row is inserted and no job is enqueued. The cached response is
    what the store holds: for an entry written by a first request, the
    members of the first response in [jsonb] order. *)
Theorem idempotent_replay_returns_cached
  (w : World) (merchant key : string) (req : PaymentRequest)
  (record : IdempotencyKey) (rest : list IdempotencyKey) :
  faults w = [] ->
  idempotency_header req = Some key ->
  idempotency_keys_by_key key merchant (db w) = record :: rest ->
  clock w < idk_expires_at record ->
  json_truthy (idk_response record) = true ->
  createPayment merchant req w = Ok (mkResponse 201 (idk_response record)) w
  /\ payments (db (world_of (createPayment merchant req w))) = payments (db w)
  /\ paymentQueue (queues (world_of (createPayment merchant req w)))
     = paymentQueue (queues w).
Proof.
  intros Hf Hkey Hrows Hlive Htruthy.
  assert (Hrun : createPayment merchant req w = Ok (mkResponse 201 (idk_response record)) w).
  { unfold createPayment. apply try_catch_ok. rewrite Hkey.
    rewrite (bind_ok _ _ _ _ _ (checkIdempotencyKey_hit _ _ _ _ _ Hf Hrows Hlive)).
    rewrite Htruthy. reflexivity. }
  rewrite Hrun. repeat split.
Qed.

Lemma idempotent_replay_returns_cached_witness :
  payments (db (world_of (createPayment "m1" Shop.request Shop.after_first)))
  = payments (db Shop.after_first)
  /\ paymentQueue (queues (world_of (createPayment "m1" Shop.request Shop.after_first)))
     = paymentQueue (queues Shop.after_first).
Proof.
  destruct (idempotency_keys_by_key "key-1" "m1" (db Shop.after_first))
    as [|record rest] eqn:Ek; [vm_compute in Ek; discriminate|].
  assert (Hrecord : clock Shop.after_first < idk_expires_at record
                    /\ json_truthy (idk_response record) = true).
  { vm_compute in Ek. injection Ek as <- _. split; vm_compute; reflexivity. }
  destruct Hrecord as [Hlive Htruthy].
  exact (proj2 (idempotent_replay_returns_cached Shop.after_first "m1" "key-1" Shop.request
                  record rest eq_refl eq_refl Ek Hlive Htruthy)).
Defined.



(** ** Enumerating the paths of a handler

    With the store allowed to fail at any call, a handler has one path per
    position of the first fault and per outcome of each test. [paths] opens
    them one by one: it reduces the monad and the record updates, then takes
    apart the innermost test that is left. *)

Ltac break_match :=
  match goal with
  | |- context [match ?x with _ => _ end] =>
      lazymatch x with
      | context [match _ with _ => _ end] => fail
      | _ => destruct x eqn:?
      end
  end.

Ltac reduce_world :=
  cbv beta delta [bind try_catch ret throw gets modify
                  query execute Date_now Math_random gen_random_uuid sleep axios_post
                  add_payment_job add_webhook_job add_refund_job
                  insert_row insert_webhook_log calculateNextRetry io] in *;
  cbn [world_of value_of
       db queues faults clock env random uuids network sent
       set_db set_queues set_faults set_random set_uuids set_sent set_clock
       payments refunds orders merchants webhook_logs idempotency_keys
       set_orders set_payments set_refunds set_webhook_logs set_idempotency_keys
       paymentQueue webhookQueue refundQueue
       set_paymentQueue set_webhookQueue set_refundQueue negb] in *.

Ltac paths := repeat (reduce_world; try break_match).

(** Two facts about the same rows are facts about the same row. *)
Ltac same_rows :=
  repeat match goal with
         | H1 : ?x = _ :: _, H2 : ?x = _ :: _ |- _ =>
             rewrite H1 in H2; inversion H2; subst; clear H2
         | H1 : ?x = _ :: _, H2 : ?x = [] |- _ =>
             rewrite H1 in H2; discriminate
         | H : _ :: _ = _ :: _ |- _ => inversion H; subst; clear H
         | H : [] = _ :: _ |- _ => discriminate
         | H : _ :: _ = [] |- _ => discriminate
         end.

(** ** Emitting a webhook event is best effort *)

Lemma createWebhookLog_total (merchant event : string) (data : json) (w : World) :
  exists w', createWebhookLog merchant event data w = Ok tt w'.
Proof.
  unfold createWebhookLog, try_catch.
  match goal with |- context [match ?m w with _ => _ end] => destruct (m w) as [[] w'|e w'] end.
  - now exists w'.
  - now exists w'.
Qed.

(** It writes to the webhook log and to the webhook queue, and nowhere
    else. *)
Lemma createWebhookLog_frame (merchant event : string) (data : json) (w : World) :
  let w' := world_of (createWebhookLog merchant event data w) in
  payments (db w') = payments (db w)
  /\ refunds (db w') = refunds (db w)
  /\ orders (db w') = orders (db w)
  /\ merchants (db w') = merchants (db w)
  /\ idempotency_keys (db w') = idempotency_keys (db w)
  /\ paymentQueue (queues w') = paymentQueue (queues w)
  /\ refundQueue (queues w') = refundQueue (queues w)
  /\ clock w' = clock w.
Proof.
  cbv zeta.
  unfold createWebhookLog, insert_webhook_log, add_webhook_job, query, io, gen_random_uuid,
    Date_now.
  paths; repeat split.
Qed.

(** C10, as the claim has it, does not hold: when the insert of the log has
    gone through and the enqueue fails, the log row is there and stays
    there, [pending], with no delivery job. *)
Lemma enqueue_failure_leaves_log_row :
  ~ (forall (w : World) (merchant event : string) (data : json) (later : list bool),
        faults w = false :: false :: true :: later ->
        webhook_logs (db (world_of (createWebhookLog merchant event data w)))
        = webhook_logs (db w)
        /\ webhookQueue (queues (world_of (createWebhookLog merchant event data w)))
           = webhookQueue (queues w)).
Proof.
  intros H.
  destruct (H (set_faults [false; false; true] Shop.world) "m1" "payment.success"
              (JObj [("payment", JObj [("id", JStr "pay_1")])]) [] eq_refl) as [Hlogs _].
  vm_compute in Hlogs. discriminate.
Qed.

Lemma payments_by_id_set_status_success (id : string) (now : Z) (d : Database) :
  payments_by_id id (set_status_success id now d)
  = map (fun p => mkPayment (pay_id p) (pay_order_id p) (pay_merchant_id p) (pay_amount p)
                    (pay_currency p) (pay_method p) (pay_card_number p) (pay_card_expiry p)
                    (pay_card_cvv p) (pay_vpa p) "success" (pay_error_code p)
                    (pay_error_description p) (pay_captured p) (pay_created_at p) now)
        (payments_by_id id d).
Proof.
  unfold payments_by_id, set_status_success. simpl payments.
  apply (filter_map_update (fun p => String.eqb (pay_id p) id)). reflexivity.
Qed.

Lemma payments_by_id_set_status_failed (id : string) (now : Z) (d : Database) :
  payments_by_id id (set_status_failed id now d)
  = map (fun p => mkPayment (pay_id p) (pay_order_id p) (pay_merchant_id p) (pay_amount p)
                    (pay_currency p) (pay_method p) (pay_card_number p) (pay_card_expiry p)
                    (pay_card_cvv p) (pay_vpa p) "failed" (Some "PAYMENT_FAILED")
                    (Some "Payment processing failed") (pay_captured p)
                    (pay_created_at p) now)
        (payments_by_id id d).
Proof.
  unfold payments_by_id, set_status_failed. simpl payments.
  apply (filter_map_update (fun p => String.eqb (pay_id p) id)). reflexivity.
Qed.

Lemma refunds_by_id_set_processed (id : string) (now : Z) (d : Database) :
  refunds_by_id id (set_refund_processed id now d)
  = map (fun r => mkRefund (ref_id r) (ref_payment_id r) (ref_merchant_id r) (ref_amount r)
                           (ref_reason r) "processed" (ref_created_at r) (Some now))
        (refunds_by_id id d).
Proof.
  unfold refunds_by_id, set_refund_processed. simpl refunds.
  apply (filter_map_update (fun r => String.eqb (ref_id r) id)). reflexivity.
Qed.

Lemma payments_by_id_same (id : string) (d d' : Database) :
  payments d = payments d' -> payments_by_id id d = payments_by_id id d'.
Proof. unfold payments_by_id. now intros ->. Qed.

Lemma refunds_by_id_same (id : string) (d d' : Database) :
  refunds d = refunds d' -> refunds_by_id id d = refunds_by_id id d'.
Proof. unfold refunds_by_id. now intros ->. Qed.

Lemma checkIdempotencyKey_total (key merchant : string) (w : World) :
  exists v w', checkIdempotencyKey key merchant w = Ok v w'.
Proof.
  unfold checkIdempotencyKey, try_catch.
  match goal with |- context [match ?m w with _ => _ end] => destruct (m w) as [v w'|e w'] end;
    eexists; eexists; reflexivity.
Qed.

Lemma checkIdempotencyKey_frame (key merchant : string) (w : World) :
  let w' := world_of (checkIdempotencyKey key merchant w) in
  orders (db w') = orders (db w)
  /\ payments (db w') = payments (db w)
  /\ refunds (db w') = refunds (db w)
  /\ queues w' = queues w.
Proof.
  cbv zeta. unfold checkIdempotencyKey, query, execute, io, Date_now, delete_key.
  paths; repeat split.
Qed.

Lemma storeIdempotencyKey_total (key merchant : string) (response : json) (w : World) :
  exists w', storeIdempotencyKey key merchant response w = Ok tt w'.
Proof.
  unfold storeIdempotencyKey, try_catch.
  match goal with |- context [match ?m w with _ => _ end] => destruct (m w) as [[] w'|e w'] end;
    eexists; reflexivity.
Qed.

Lemma storeIdempotencyKey_frame (key merchant : string) (response : json) (w : World) :
  let w' := world_of (storeIdempotencyKey key merchant response w) in
  orders (db w') = orders (db w)
  /\ payments (db w') = payments (db w)
  /\ refunds (db w') = refunds (db w)
  /\ queues w' = queues w.
Proof.
  cbv zeta. unfold storeIdempotencyKey, execute, io, Date_now, upsert_key.
  paths; repeat split.
Qed.

(** Uses, on a path, what the calls to the cache and to the webhook
    service it went through are known to do. *)
Ltac after_calls :=
  repeat match goal with
         | H : createWebhookLog ?m ?e ?d ?w = Throw _ _ |- _ =>
             exfalso; destruct (createWebhookLog_total m e d w) as [? Hok];
             rewrite Hok in H; discriminate
         | H : checkIdempotencyKey ?k ?m ?w = Throw _ _ |- _ =>
             exfalso; destruct (checkIdempotencyKey_total k m w) as (? & ? & Hok);
             rewrite Hok in H; discriminate
         | H : storeIdempotencyKey ?k ?m ?r ?w = Throw _ _ |- _ =>
             exfalso; destruct (storeIdempotencyKey_total k m r w) as (? & Hok);
             rewrite Hok in H; discriminate
         | H : createWebhookLog ?m ?e ?d ?w = Ok _ ?w' |- _ =>
             let F := fresh "Hframe" in
             pose proof (createWebhookLog_frame m e d w) as F;
             cbv zeta in F; rewrite H in F; cbn [world_of] in F;
             destruct F as (? & ? & ? & ? & ? & ? & ? & ?);
             clear H
         | H : checkIdempotencyKey ?k ?m ?w = Ok _ ?w' |- _ =>
             let F := fresh "Hframe" in
             pose proof (checkIdempotencyKey_frame k m w) as F;
             cbv zeta in F; rewrite H in F; cbn [world_of] in F;
             destruct F as (? & ? & ? & ?);
             clear H
         | H : storeIdempotencyKey ?k ?m ?r ?w = Ok _ ?w' |- _ =>
             let F := fresh "Hframe" in
             pose proof (storeIdempotencyKey_frame k m r w) as F;
             cbv zeta in F; rewrite H in F; cbn [world_of] in F;
             destruct F as (? & ? & ? & ?);
             clear H
         end.

(** Once the status is written, the payment worker completes, whatever
    becomes of the webhook event: it is enough that its first two calls to
    the store, the read and the write of the status, go through. *)
Lemma processPayment_completes (w : World) (job : Job PaymentJobData)
      (payment : Payment) (others : list Payment) :
  payments_by_id (paymentId (job_data job)) (db w) = payment :: others ->
  existsb (fun b => b) (firstn 2 (faults w)) = false ->
  exists (s : string) (w' : World),
    processPayment job w = Ok s w'
    /\ terminal s = true
    /\ payments_by_id (paymentId (job_data job)) (db w') <> []
    /\ Forall (fun p => pay_status p = s) (payments_by_id (paymentId (job_data job)) (db w')).
Proof.
  intros Hfound Hfaults.
  unfold processPayment. reduce_world.
  destruct (faults w) as [|[|] [|[|] later]] eqn:Hf; try discriminate;
    reduce_world; rewrite Hfound;
    paths; try discriminate; after_calls;
    (eexists; eexists; split; [reflexivity|]; split; [reflexivity|]);
    reduce_world;
    match goal with
    | H : payments (db ?w0) = payments ?d |- _ =>
        rewrite (payments_by_id_same (paymentId (job_data job)) (db w0) d H)
    end;
    first [ rewrite payments_by_id_set_status_success
          | rewrite payments_by_id_set_status_failed ];
    rewrite Hfound; (split; [discriminate|]);
    apply Forall_map, Forall_forall; reflexivity.
Qed.

(** The same for the refund worker, whose first four calls are the three
    reads and the write of the status. *)
Lemma processRefund_completes (w : World) (job : Job RefundJobData)
      (refund : Refund) (other_refunds : list Refund)
      (payment : Payment) (other_payments : list Payment) :
  refunds_by_id (refundId (job_data job)) (db w) = refund :: other_refunds ->
  payments_by_id (ref_payment_id refund) (db w) = payment :: other_payments ->
  pay_status payment = "success" ->
  total_refunded (ref_payment_id refund) (db w) <= pay_amount payment ->
  existsb (fun b => b) (firstn 4 (faults w)) = false ->
  exists w' : World,
    processRefund job w = Ok "processed" w'
    /\ refunds_by_id (refundId (job_data job)) (db w') <> []
    /\ Forall (fun r => ref_status r = "processed")
              (refunds_by_id (refundId (job_data job)) (db w')).
Proof.
  intros Hrefund Hpayment Hstatus Hsum Hfaults.
  assert (Hfits : (pay_amount payment <? total_refunded (ref_payment_id refund) (db w)) = false)
    by (apply Z.ltb_ge; exact Hsum).
  unfold processRefund. reduce_world.
  destruct (faults w) as [|[|] [|[|] [|[|] [|[|] later]]]] eqn:Hf; try discriminate;
    paths; try discriminate; same_rows;
    try (rewrite Hstatus in *; discriminate); try congruence;
    after_calls;
    (eexists; split; [reflexivity|]);
    reduce_world;
    match goal with
    | H : refunds (db ?w0) = refunds ?d |- _ =>
        rewrite (refunds_by_id_same (refundId (job_data job)) (db w0) d H)
    end;
    rewrite refunds_by_id_set_processed;
    match goal with H : refunds_by_id _ (db w) = _ :: _ |- _ => rewrite H end;
    (split; [discriminate|]);
    apply Forall_map, Forall_forall; reflexivity.
Qed.

Lemma createWebhookLog_skips (w : World) (merchant event : string) (data : json) :
  merchants_by_id merchant (db w) = []
  \/ (exists m rest, merchants_by_id merchant (db w) = m :: rest
                     /\ truthy (mer_webhook_url m) = false)
  \/ (exists later, faults w = true :: later)
  \/ (exists later, faults w = false :: true :: later)
  \/ (exists id ids, uuids w = id :: ids
                     /\ existsb (fun l => String.eqb (log_id l) id) (webhook_logs (db w)) = true) ->
  webhook_logs (db (world_of (createWebhookLog merchant event data w))) = webhook_logs (db w)
  /\ webhookQueue (queues (world_of (createWebhookLog merchant event data w)))
     = webhookQueue (queues w).
Proof.
  unfold createWebhookLog, insert_webhook_log, add_webhook_job, query, io, gen_random_uuid,
    Date_now.
  intros [Hnone | [(m & rest & Hm & Hurl) | [(later & Hf) | [(later & Hf) | (id & ids & Hu & Ht)]]]].
  - reduce_world. destruct (faults w) as [|[|] fs]; reduce_world; try rewrite Hnone;
      split; reflexivity.
  - reduce_world. destruct (faults w) as [|[|] fs]; reduce_world; try rewrite Hm;
      try rewrite Hurl; split; reflexivity.
  - reduce_world. rewrite Hf. split; reflexivity.
  - reduce_world. rewrite Hf. paths; split; reflexivity.
  - revert Hu. paths; intros Hu; try (split; reflexivity);
      try discriminate; injection Hu as -> ->; congruence.
Qed.

Lemma createWebhookLog_enqueue_fault (w : World) (merchant event : string) (data : json)
      (m : Merchant) (rest : list Merchant) (later : list bool)
      (id : string) (ids : list string) :
  merchants_by_id merchant (db w) = m :: rest ->
  truthy (mer_webhook_url m) = true ->
  faults w = false :: false :: true :: later ->
  uuids w = id :: ids ->
  existsb (fun l => String.eqb (log_id l) id) (webhook_logs (db w)) = false ->
  webhook_logs (db (world_of (createWebhookLog merchant event data w)))
  = webhook_logs (db w)
    ++ [new_webhook_log id merchant event
          (JObj [("event", JStr event); ("timestamp", JNum (clock w / 1000)); ("data", data)])
          (clock w)]
  /\ webhookQueue (queues (world_of (createWebhookLog merchant event data w)))
     = webhookQueue (queues w).
Proof.
  intros Hm Hurl Hf Hu Ht.
  unfold createWebhookLog, insert_webhook_log, add_webhook_job, query, io, gen_random_uuid,
    Date_now.
  reduce_world. rewrite Hf. reduce_world. rewrite Hm, Hurl. reduce_world.
  rewrite Hu. reduce_world. rewrite Ht. reduce_world. split; reflexivity.
Qed.

(** C10. [createWebhookLog] never throws: whatever fails inside it (the
    merchant lookup, the insert of the log, the enqueue) is caught, and it
    does not touch payments or refunds, so the payment worker and the refund
    worker, which call it after their status write, complete with the
    status written as soon as their own calls to the store go through. When the merchant is missing or has no webhook URL, or
    the merchant lookup or the insert fails, no log row and no delivery job
    are created. When the insert has gone through and the enqueue fails,
    the log row is there, [pending] with 0 attempts, and no delivery job
    is. *)
Theorem webhook_emission_is_best_effort
  (w : World) (merchant event : string) (data : json) :
  let w' := world_of (createWebhookLog merchant event data w) in
  createWebhookLog merchant event data w = Ok tt w'
  /\ payments (db w') = payments (db w)
  /\ refunds (db w') = refunds (db w)
  /\ (merchants_by_id merchant (db w) = []
      \/ (exists m rest, merchants_by_id merchant (db w) = m :: rest
                         /\ truthy (mer_webhook_url m) = false)
      \/ (exists later, faults w = true :: later)
      \/ (exists later, faults w = false :: true :: later)
      \/ (exists id ids, uuids w = id :: ids
                         /\ existsb (fun l => String.eqb (log_id l) id)
                                    (webhook_logs (db w)) = true) ->
      webhook_logs (db w') = webhook_logs (db w)
      /\ webhookQueue (queues w') = webhookQueue (queues w))
  /\ (forall (m : Merchant) (rest : list Merchant) (later : list bool)
             (id : string) (ids : list string),
        merchants_by_id merchant (db w) = m :: rest ->
        truthy (mer_webhook_url m) = true ->
        faults w = false :: false :: true :: later ->
        uuids w = id :: ids ->
        existsb (fun l => String.eqb (log_id l) id) (webhook_logs (db w)) = false ->
        exists row,
          webhook_logs (db w') = webhook_logs (db w) ++ [row]
          /\ log_id row = id /\ log_event row = event
          /\ log_status row = "pending" /\ log_attempts row = 0
          /\ webhookQueue (queues w') = webhookQueue (queues w))
  /\ (forall (job : Job PaymentJobData) (payment : Payment) (others : list Payment),
        payments_by_id (paymentId (job_data job)) (db w) = payment :: others ->
        existsb (fun b => b) (firstn 2 (faults w)) = false ->
        exists (s : string) (w'' : World),
          processPayment job w = Ok s w''
          /\ terminal s = true
          /\ payments_by_id (paymentId (job_data job)) (db w'') <> []
          /\ Forall (fun p => pay_status p = s)
                    (payments_by_id (paymentId (job_data job)) (db w'')))
  /\ (forall (job : Job RefundJobData) (refund : Refund) (other_refunds : list Refund)
             (payment : Payment) (other_payments : list Payment),
        refunds_by_id (refundId (job_data job)) (db w) = refund :: other_refunds ->
        payments_by_id (ref_payment_id refund) (db w) = payment :: other_payments ->
        pay_status payment = "success" ->
        total_refunded (ref_payment_id refund) (db w) <= pay_amount payment ->
        existsb (fun b => b) (firstn 4 (faults w)) = false ->
        exists w'' : World,
          processRefund job w = Ok "processed" w''
          /\ refunds_by_id (refundId (job_data job)) (db w'') <> []
          /\ Forall (fun r => ref_status r = "processed")
                    (refunds_by_id (refundId (job_data job)) (db w''))).
Proof.
  intros w'.
  destruct (createWebhookLog_frame merchant event data w) as (Hp & Hr & _).
  split.
  { destruct (createWebhookLog_total merchant event data w) as [w1 Hok].
    subst w'. rewrite Hok. reflexivity. }
  split; [exact Hp|]. split; [exact Hr|].
  split; [apply createWebhookLog_skips|].
  split.
  { intros m rest later id ids Hm Hurl Hf Hu Ht.
    destruct (createWebhookLog_enqueue_fault w merchant event data m rest later id ids
                Hm Hurl Hf Hu Ht) as [Hlogs Hq].
    eexists. split; [exact Hlogs|]. repeat split. exact Hq. }
  split.
  - intros job payment others. apply processPayment_completes.
  - intros job refund other_refunds payment other_payments.
    apply processRefund_completes.
Qed.

Lemma webhook_emission_is_best_effort_witness :
  exists row,
    webhook_logs (db (world_of (createWebhookLog "m1" "payment.success" (JStr "snapshot")
                                  (set_faults [false; false; true] Shop.world))))
    = [row]
    /\ log_status row = "pending"
    /\ webhookQueue (queues (world_of (createWebhookLog "m1" "payment.success" (JStr "snapshot")
                                         (set_faults [false; false; true] Shop.world))))
       = [].
Proof.
  destruct (webhook_emission_is_best_effort
              (set_faults [false; false; true] Shop.world) "m1" "payment.success"
              (JStr "snapshot"))
    as (_ & _ & _ & _ & Hrow & _).
  destruct (Hrow Scenario.merchant1 [] [] "uuid-1" ["uuid-2"; "uuid-3"; "uuid-4"]
              eq_refl eq_refl eq_refl eq_refl eq_refl)
    as (row & Hlogs & _ & _ & Hstatus & _ & Hq).
  exists row. split; [exact Hlogs|]. split; [exact Hstatus | exact Hq].
Defined.

(** ** Refunds beyond the refundable amount *)

(** Whatever the store does, a request for more than is left writes
    nothing and is not answered 201. *)
Lemma createRefund_rejects_excess
  (w : World) (merchant payment_id : string) (req : RefundRequest)
  (payment : Payment) (others : list Payment) (amount : Z) :
  payments_by_id_and_merchant payment_id merchant (db w) = payment :: others ->
  rq_amount req = Some amount ->
  pay_amount payment - total_refunded payment_id (db w) < amount ->
  let r := createRefund merchant payment_id req w in
  refunds (db (world_of r)) = refunds (db w)
  /\ refundQueue (queues (world_of r)) = refundQueue (queues w)
  /\ (exists response, value_of r = Some response /\ res_status response <> 201).
Proof.
  intros Hrows Hamount Hexceeds r. subst r.
  assert (Hlt : (pay_amount payment - total_refunded payment_id (db w) <? amount) = true)
    by (apply Z.ltb_lt; exact Hexceeds).
  unfold createRefund, createRefund_validate.
  split; [| split].
  - reduce_world. destruct (faults w) as [|[|] fs]; reduce_world; try reflexivity;
      rewrite Hrows, Hamount; paths; try reflexivity; congruence.
  - reduce_world. destruct (faults w) as [|[|] fs]; reduce_world; try reflexivity;
      rewrite Hrows, Hamount; paths; try reflexivity; congruence.
  - reduce_world. destruct (faults w) as [|[|] fs]; reduce_world;
      try (eexists; split; [reflexivity | discriminate]);
      rewrite Hrows, Hamount; paths;
      try (eexists; split; [reflexivity | discriminate]); congruence.
Qed.

(** C7. A refund-creation request for an existing payment of the merchant
    whose amount exceeds the payment's amount minus what its pending and
    processed refunds already sum to is turned down in the request itself:
    no refund row is inserted and no refund job is enqueued, whatever the
    store does; and when the store answers, the response is a 400
    BAD_REQUEST_ERROR, the world is left exactly as it was, and for a
    successful payment and a positive amount the description is "Refund
    amount exceeds available amount". *)
Theorem excessive_refund_is_rejected
  (w : World) (merchant payment_id : string) (req : RefundRequest)
  (payment : Payment) (others : list Payment) (amount : Z) :
  payments_by_id_and_merchant payment_id merchant (db w) = payment :: others ->
  rq_amount req = Some amount ->
  pay_amount payment - total_refunded payment_id (db w) < amount ->
  let r := createRefund merchant payment_id req w in
  refunds (db (world_of r)) = refunds (db w)
  /\ refundQueue (queues (world_of r)) = refundQueue (queues w)
  /\ (exists response, value_of r = Some response /\ res_status response <> 201)
  /\ (faults w = [] ->
      exists description,
        r = Ok (reject 400 "BAD_REQUEST_ERROR" description) w
        /\ (pay_status payment = "success" -> 0 < amount ->
            description = "Refund amount exceeds available amount")).
Proof.
  intros Hrows Hamount Hexceeds r.
  destruct (createRefund_rejects_excess w merchant payment_id req payment others amount
              Hrows Hamount Hexceeds) as (Hrefunds & Hqueue & Hanswer).
  split; [exact Hrefunds|]. split; [exact Hqueue|]. split; [exact Hanswer|].
  intros Hf. subst r.
  assert (Hlt : (pay_amount payment - total_refunded payment_id (db w) <? amount) = true)
    by (apply Z.ltb_lt; exact Hexceeds).
  unfold createRefund, createRefund_validate.
  reduce_world. rewrite Hf. reduce_world. rewrite Hrows, Hamount.
  destruct (negb (String.eqb (pay_status payment) "success")) eqn:Hstatus; reduce_world.
  - eexists. split; [reflexivity|]. intros Hs. rewrite Hs in Hstatus. discriminate.
  - rewrite Hf. reduce_world. destruct (amount <=? 0) eqn:Hpos; reduce_world.
    + eexists. split; [reflexivity|]. intros _ H. apply Z.leb_le in Hpos. lia.
    + rewrite Hlt. eexists. split; reflexivity.
Qed.

Lemma excessive_refund_is_rejected_witness :
  createRefund "m1" "pay_1" (Ledger.refund_of 30000)
               (Ledger.world [Ledger.earlier_refund] Shop.draws)
  = Ok (reject 400 "BAD_REQUEST_ERROR" "Refund amount exceeds available amount")
       (Ledger.world [Ledger.earlier_refund] Shop.draws).
Proof.
  destruct (excessive_refund_is_rejected
              (Ledger.world [Ledger.earlier_refund] Shop.draws) "m1" "pay_1"
              (Ledger.refund_of 30000) Ledger.paid [] 30000 eq_refl eq_refl eq_refl)
    as (_ & _ & _ & Hrun).
  destruct (Hrun eq_refl) as (description & Hresponse & Hdescription).
  rewrite Hresponse, (Hdescription eq_refl eq_refl). reflexivity.
Defined.

(** ** What each operation does to orders, payments and refunds *)

Lemma effect_of_deliverWebhook (job : Job WebhookJobData) (w : World) :
  quiet_effect (db w) (db (run (DeliverWebhook job) w)).
Proof.
  unfold run, deliverWebhook, classify.
  paths; apply effect_none; reflexivity.
Qed.

Lemma effect_of_retryWebhook (merchant webhook_id : string) (w : World) :
  quiet_effect (db w) (db (run (RetryWebhook merchant webhook_id) w)).
Proof.
  unfold run, retryWebhook.
  paths; apply effect_none; reflexivity.
Qed.

Lemma effect_of_capturePayment (merchant id : string) (amount : option Z) (w : World) :
  quiet_effect (db w) (db (run (CapturePayment merchant id amount) w)).
Proof.
  unfold run, capturePayment.
  paths; try (apply effect_none; reflexivity);
    (eapply effect_touched; [| reflexivity | reflexivity | reflexivity]);
    intros q; cbv beta; destruct (String.eqb (pay_id q) id); repeat split.
Qed.

Ltac paths_with_ids :=
  repeat (reduce_world; try rewrite generateRandomString_run; try break_match).

Lemma existsb_id_false {A} (key : A -> string) (id : string) (l : list A) :
  existsb (fun x => String.eqb (key x) id) l = false -> ~ In id (map key l).
Proof.
  induction l as [|x l IH]; simpl; [tauto|].
  intros H. apply orb_false_iff in H. destruct H as [Hx Hl].
  intros [E | Hin]; [| exact (IH Hl Hin)].
  rewrite E, String.eqb_refl in Hx. discriminate.
Qed.

Lemma effect_of_createOrder (merchant : string) (req : OrderRequest) (w : World) :
  quiet_effect (db w) (db (run (CreateOrder merchant req) w)).
Proof.
  unfold run, createOrder.
  paths_with_ids; try (apply effect_none; reflexivity);
    (eapply effect_order; [| reflexivity | reflexivity | reflexivity]);
    cbn [ord_amount new_order];
    match goal with H : (_ <=? 0) = false |- _ => apply Z.leb_gt in H; exact H end.
Qed.

Lemma payment_inserted (d d1 d' : Database) (o : Order) (l : list Order)
      (order_id merchant pid : string) (req : PaymentRequest) (now : Z) :
  orders d1 = orders d -> payments d1 = payments d -> refunds d1 = refunds d ->
  orders_by_id_and_merchant order_id merchant d1 = o :: l ->
  existsb (fun p => String.eqb (pay_id p) pid) (payments d1) = false ->
  orders d' = orders d1 ->
  payments d' = payments d1 ++ [new_payment pid merchant o req now] ->
  refunds d' = refunds d1 ->
  quiet_effect d d'.
Proof.
  intros Ho Hp Hr Hrows Hfresh Ho' Hp' Hr'.
  apply (effect_payment d d' (new_payment pid merchant o req now) o).
  - rewrite <- Ho. unfold orders_by_id_and_merchant in Hrows.
    assert (Hin : In o (filter (fun o0 => String.eqb (ord_id o0) order_id
                                          && String.eqb (ord_merchant_id o0) merchant)
                               (orders d1))) by (rewrite Hrows; now left).
    apply filter_In in Hin. tauto.
  - reflexivity.
  - reflexivity.
  - unfold payment_ids. rewrite <- Hp. apply existsb_id_false. exact Hfresh.
  - congruence.
  - congruence.
  - congruence.
Qed.

Lemma effect_of_createPayment (merchant : string) (req : PaymentRequest) (w : World) :
  quiet_effect (db w) (db (run (CreatePayment merchant req) w)).
Proof.
  unfold run, createPayment, createPayment_fresh.
  paths_with_ids; after_calls; reduce_world;
    try (apply effect_none; congruence);
    (eapply payment_inserted;
     [ | | | eassumption | eassumption | | | ]; try eassumption; try reflexivity;
     try congruence).
Qed.

Lemma total_refunded_same (id : string) (d d' : Database) :
  refunds d' = refunds d -> total_refunded id d' = total_refunded id d.
Proof. unfold total_refunded. now intros ->. Qed.

Lemma refund_inserted (d d' : Database) (p : Payment) (l : list Payment)
      (payment_id merchant rid : string) (amount : Z) (reason : option string) (now : Z) :
  payments_by_id_and_merchant payment_id merchant d = p :: l ->
  (pay_amount p - total_refunded payment_id d <? amount) = false ->
  orders d' = orders d ->
  payments d' = payments d ->
  refunds d' = refunds d ++ [new_refund rid payment_id merchant amount reason now] ->
  quiet_effect d d'.
Proof.
  intros Hrows Hfits Ho Hp Hr.
  assert (Hin : In p (filter (fun q => String.eqb (pay_id q) payment_id
                                       && String.eqb (pay_merchant_id q) merchant)
                             (payments d)))
    by (unfold payments_by_id_and_merchant in Hrows; rewrite Hrows; now left).
  apply filter_In in Hin. destruct Hin as [Hin Hmatch].
  apply andb_true_iff in Hmatch. destruct Hmatch as [Hid _].
  apply String.eqb_eq in Hid. apply Z.ltb_ge in Hfits.
  apply (effect_refund d d' (new_refund rid payment_id merchant amount reason now) p);
    try assumption; try reflexivity.
  - simpl. now rewrite Hid.
  - rewrite Hid. simpl. lia.
Qed.

Lemma effect_of_createRefund (merchant payment_id : string) (req : RefundRequest) (w : World) :
  quiet_effect (db w) (db (run (CreateRefund merchant payment_id req) w)).
Proof.
  unfold run, createRefund, createRefund_validate, createRefund_commit.
  paths_with_ids; try (apply effect_none; reflexivity);
    (eapply refund_inserted; [eassumption | eassumption | | | ]; reflexivity).
Qed.

Lemma effect_of_processRefund (job : Job RefundJobData) (w : World) :
  quiet_effect (db w) (db (run (ProcessRefund job) w)).
Proof.
  unfold run, processRefund.
  paths; after_calls; reduce_world;
    try (apply effect_none; congruence);
    (eapply effect_processed;
     [ | | | etransitivity; [eassumption | unfold set_refund_processed; reflexivity] ];
     [ intros r0; cbv beta;
       destruct (String.eqb (ref_id r0) (refundId (job_data job))); repeat split; tauto
     | etransitivity; [eassumption | reflexivity]
     | etransitivity; [eassumption | reflexivity] ]).
Qed.

Lemma effect_of_processPayment (job : Job PaymentJobData) (w : World) :
  quiet_effect (db w) (db (run (ProcessPayment job) w))
  \/ settled (paymentId (job_data job)) (db w) (db (run (ProcessPayment job) w)).
Proof.
  unfold run, processPayment.
  paths; after_calls; reduce_world;
    try (left; apply effect_none; congruence);
    right; unfold settled;
    (eexists; split;
     [ | split; [etransitivity; [eassumption | reflexivity] | split;
         [ etransitivity;
           [ eassumption
           | first [ unfold set_status_success | unfold set_status_failed ]; reflexivity ]
         | etransitivity; [eassumption | reflexivity] ] ] ]);
    intros q; repeat split.
Qed.

Lemma run_effect (op : Operation) (w : World) :
  quiet_effect (db w) (db (run op w))
  \/ (exists id, settles op = Some id /\ settled id (db w) (db (run op w))).
Proof.
  destruct op.
  - left. apply effect_of_createOrder.
  - left. apply effect_of_createPayment.
  - left. apply effect_of_capturePayment.
  - left. apply effect_of_createRefund.
  - left. apply effect_of_retryWebhook.
  - destruct (effect_of_processPayment job w) as [H|H]; [now left | right].
    exists (paymentId (job_data job)). split; [reflexivity | exact H].
  - left. apply effect_of_processRefund.
  - left. apply effect_of_deliverWebhook.
Qed.

(** ** What the effects keep true *)

Section MappedPayments.

Variables (d d' : Database) (g : Payment -> Payment).
Hypothesis g_keeps : forall p, pay_id (g p) = pay_id p /\ pay_amount (g p) = pay_amount p.
Hypothesis same_orders : orders d' = orders d.
Hypothesis mapped : payments d' = map g (payments d).
Hypothesis same_refunds : refunds d' = refunds d.

Lemma mapped_payment_ids : payment_ids d' = payment_ids d.
Proof.
  unfold payment_ids. rewrite mapped, map_map. apply map_ext. intros p. apply g_keeps.
Qed.

Lemma mapped_consistent : consistent d -> consistent d'.
Proof.
  intros [Hu Hr Ho Hc]. constructor.
  - now rewrite mapped_payment_ids.
  - intros r Hin. rewrite mapped_payment_ids. apply Hr. now rewrite <- same_refunds.
  - intros o Hin. apply Ho. now rewrite <- same_orders.
  - intros r Hin. apply Hc. now rewrite <- same_refunds.
Qed.

Lemma mapped_within : refunds_within_amount d -> refunds_within_amount d'.
Proof.
  intros H p' Hin. rewrite mapped in Hin. apply in_map_iff in Hin.
  destruct Hin as (p & <- & Hin). destruct (g_keeps p) as [-> ->].
  rewrite (total_refunded_same _ d d' same_refunds). now apply H.
Qed.

End MappedPayments.

Lemma sum_app (l l' : list Z) : Sql.sum (l ++ l') = Sql.sum l + Sql.sum l'.
Proof. induction l as [|x l IH]; simpl; [reflexivity | rewrite IH; lia]. Qed.

Lemma total_refunded_app (id : string) (d d' : Database) (r : Refund) :
  refunds d' = refunds d ++ [r] ->
  total_refunded id d'
  = total_refunded id d
    + (if String.eqb (ref_payment_id r) id && counts_as_refunded r then ref_amount r else 0).
Proof.
  intros H. unfold total_refunded. rewrite H, filter_app, map_app, sum_app. f_equal.
  simpl. destruct (String.eqb (ref_payment_id r) id && counts_as_refunded r); simpl; lia.
Qed.

Lemma total_refunded_none (id : string) (d : Database) :
  (forall r, In r (refunds d) -> ref_payment_id r <> id) -> total_refunded id d = 0.
Proof.
  unfold total_refunded. induction (refunds d) as [|r l IH]; intros H; [reflexivity|].
  simpl. destruct (String.eqb_spec (ref_payment_id r) id) as [E|E].
  - exfalso. apply (H r); [now left | exact E].
  - simpl. apply IH. intros r' Hin. apply H. now right.
Qed.

Lemma total_refunded_map (id : string) (d d' : Database) (f : Refund -> Refund) :
  refunds d' = map f (refunds d) ->
  (forall r, In r (refunds d) ->
             ref_payment_id (f r) = ref_payment_id r /\ ref_amount (f r) = ref_amount r
             /\ counts_as_refunded (f r) = counts_as_refunded r) ->
  total_refunded id d' = total_refunded id d.
Proof.
  intros H Hf. unfold total_refunded. rewrite H. clear H.
  induction (refunds d) as [|r l IH]; [reflexivity|].
  simpl. destruct (Hf r (or_introl eq_refl)) as (-> & Ha & ->).
  assert (IH' := IH (fun r' Hin => Hf r' (or_intror Hin))).
  destruct (String.eqb (ref_payment_id r) id && counts_as_refunded r); simpl;
    rewrite ?Ha, IH'; reflexivity.
Qed.

Lemma unique_payment (l : list Payment) (p q : Payment) :
  NoDup (map pay_id l) -> In p l -> In q l -> pay_id p = pay_id q -> p = q.
Proof.
  induction l as [|x l IH]; simpl; [tauto|].
  intros Hnd Hp Hq E. inversion Hnd as [|? ? Hnotin Hnd']; subst.
  destruct Hp as [-> | Hp], Hq as [-> | Hq]; try reflexivity.
  - exfalso. apply Hnotin. rewrite E. now apply in_map.
  - exfalso. apply Hnotin. rewrite <- E. now apply in_map.
  - now apply IH.
Qed.

Lemma NoDup_snoc {A} (l : list A) (x : A) :
  NoDup l -> ~ In x l -> NoDup (l ++ [x]).
Proof.
  induction l as [|y l IH]; simpl; intros Hnd Hnot.
  - constructor; [tauto | constructor].
  - inversion Hnd as [|? ? Hy Hl]; subst. constructor.
    + intros Hin. apply in_app_or in Hin. destruct Hin as [Hin | [E | []]]; [tauto|].
      apply Hnot. now left.
    + apply IH; [assumption | tauto].
Qed.

Lemma quiet_consistent (d d' : Database) :
  consistent d -> quiet_effect d d' -> consistent d'.
Proof.
  intros Hc [Ho Hp Hr | o Hpos Ho Hp Hr | p o Hin Ha Hs Hfresh Ho Hp Hr
            | f Hf Ho Hp Hr | r p Hin Hid Hs Hfit Ho Hp Hr | f Hf Ho Hp Hr].
  - destruct Hc as [Hu Href Hord Hcount]. constructor; unfold payment_ids in *;
      rewrite ?Ho, ?Hp, ?Hr; assumption.
  - destruct Hc as [Hu Href Hord Hcount]. constructor; unfold payment_ids in *;
      rewrite ?Ho, ?Hp, ?Hr; try assumption.
    intros o' Hin. apply in_app_or in Hin. destruct Hin as [Hin | [<- | []]]; auto.
  - destruct Hc as [Hu Href Hord Hcount]. constructor; unfold payment_ids in *;
      rewrite ?Ho, ?Hp, ?Hr; try assumption.
    + rewrite map_app. simpl. apply NoDup_snoc; assumption.
    + intros r Hinr. rewrite map_app. apply in_or_app. left. now apply Href.
  - apply (mapped_consistent d d' f); try assumption. intros q. destruct (Hf q); tauto.
  - destruct Hc as [Hu Href Hord Hcount]. constructor; unfold payment_ids in *;
      rewrite ?Ho, ?Hp, ?Hr; try assumption.
    + intros r' Hinr. apply in_app_or in Hinr. destruct Hinr as [Hinr | [<- | []]]; auto.
      rewrite Hid. now apply in_map.
    + intros r' Hinr. apply in_app_or in Hinr. destruct Hinr as [Hinr | [<- | []]]; auto.
      unfold counts_as_refunded. now rewrite Hs.
  - destruct Hc as [Hu Href Hord Hcount]. constructor; unfold payment_ids in *;
      rewrite ?Ho, ?Hp, ?Hr; try assumption.
    + intros r' Hinr. apply in_map_iff in Hinr. destruct Hinr as (r & <- & Hinr).
      destruct (Hf r) as (-> & _). now apply Href.
    + intros r' Hinr. apply in_map_iff in Hinr. destruct Hinr as (r & <- & Hinr).
      destruct (Hf r) as (_ & _ & [-> | Hst]); [now apply Hcount|].
      unfold counts_as_refunded. rewrite Hst. reflexivity.
Qed.

Lemma quiet_within (d d' : Database) :
  consistent d -> refunds_within_amount d -> quiet_effect d d' -> refunds_within_amount d'.
Proof.
  intros [Hu Href Hord Hcount] Hw
         [Ho Hp Hr | o Hpos Ho Hp Hr | p o Hin Ha Hs Hfresh Ho Hp Hr
          | f Hf Ho Hp Hr | r p Hin Hid Hs Hfit Ho Hp Hr | f Hf Ho Hp Hr].
  - intros q Hq. rewrite Hp in Hq. rewrite (total_refunded_same _ d d' Hr). now apply Hw.
  - intros q Hq. rewrite Hp in Hq. rewrite (total_refunded_same _ d d' Hr). now apply Hw.
  - intros q Hq. rewrite Hp in Hq. rewrite (total_refunded_same _ d d' Hr).
    apply in_app_or in Hq. destruct Hq as [Hq | [<- | []]]; [now apply Hw|].
    rewrite total_refunded_none.
    + rewrite Ha. specialize (Hord o Hin). lia.
    + intros r Hinr E. apply Hfresh. rewrite <- E. now apply Href.
  - apply (mapped_within d d' f); try assumption. intros q. destruct (Hf q); tauto.
  - intros q Hq. rewrite Hp in Hq. rewrite (total_refunded_app _ d d' r Hr).
    unfold counts_as_refunded. rewrite Hs. simpl.
    destruct (String.eqb_spec (ref_payment_id r) (pay_id q)) as [E|E].
    + rewrite Hid in E. cbn [andb].
      assert (p = q) as <- by (apply (unique_payment (payments d)); assumption).
      exact Hfit.
    + cbn [andb]. specialize (Hw q Hq). lia.
  - intros q Hq. rewrite Hp in Hq.
    rewrite (total_refunded_map _ d d' f Hr); [now apply Hw|].
    intros r Hinr. destruct (Hf r) as (E1 & E2 & [-> | Hst]); repeat split; try assumption.
    rewrite (Hcount r Hinr). unfold counts_as_refunded. rewrite Hst. reflexivity.
Qed.

Lemma settled_mapped (id : string) (d d' : Database) :
  settled id d d' ->
  exists g : Payment -> Payment,
    (forall p, pay_id (g p) = pay_id p /\ pay_amount (g p) = pay_amount p)
    /\ orders d' = orders d /\ payments d' = map g (payments d) /\ refunds d' = refunds d.
Proof.
  intros (f & Hf & Ho & Hp & Hr).
  exists (fun p => if String.eqb (pay_id p) id then f p else p).
  split; [| tauto].
  intros p. destruct (String.eqb (pay_id p) id); [| tauto]. destruct (Hf p); tauto.
Qed.

(** Consistency and the bound on refunds survive every operation. *)
Lemma run_keeps_books (op : Operation) (w : World) :
  consistent (db w) -> refunds_within_amount (db w) ->
  consistent (db (run op w)) /\ refunds_within_amount (db (run op w)).
Proof.
  intros Hc Hw. destruct (run_effect op w) as [Hq | (id & _ & Hs)].
  - split; [now apply (quiet_consistent (db w)) | now apply (quiet_within (db w))].
  - destruct (settled_mapped id _ _ Hs) as (g & Hg & Ho & Hp & Hr). split.
    + now apply (mapped_consistent (db w) _ g).
    + now apply (mapped_within (db w) _ g).
Qed.

Lemma history_keeps_books (w w' : World) (ops : list Operation) :
  history w ops w' ->
  consistent (db w) -> refunds_within_amount (db w) ->
  consistent (db w') /\ refunds_within_amount (db w').
Proof.
  induction 1 as [w | w w1 w2 ops Hdb Hq Hh IH | w w2 op ops Hh IH]; intros Hc Hw.
  - now split.
  - apply IH; now rewrite Hdb.
  - destruct (run_keeps_books op w Hc Hw). now apply IH.
Qed.




(** ** The bound on refunds *)

(** The refund worker sums again and gives the job up when the sum is
    over the amount of the payment. *)
Lemma processRefund_rejects_excess (w : World) (job : Job RefundJobData)
      (refund : Refund) (other_refunds : list Refund)
      (payment : Payment) (other_payments : list Payment) :
  refunds_by_id (refundId (job_data job)) (db w) = refund :: other_refunds ->
  payments_by_id (ref_payment_id refund) (db w) = payment :: other_payments ->
  pay_amount payment < total_refunded (ref_payment_id refund) (db w) ->
  (exists e w', processRefund job w = Throw e w' /\ refunds (db w') = refunds (db w))
  /\ (faults w = [] -> pay_status payment = "success" ->
      processRefund job w = Throw (Error "Refund amount exceeds payment amount") w).
Proof.
  intros Hrefund Hpayment Hover.
  assert (Hlt : (pay_amount payment <? total_refunded (ref_payment_id refund) (db w)) = true)
    by (apply Z.ltb_lt; exact Hover).
  split.
  - unfold processRefund.
    paths; same_rows; after_calls; try (eexists; eexists; split; reflexivity);
      exfalso; same_rows; congruence.
  - intros Hf Hstatus. unfold processRefund. reduce_world.
    rewrite Hf. reduce_world. rewrite Hrefund. reduce_world.
    rewrite Hf. reduce_world. rewrite Hpayment, Hstatus.
    change (negb (String.eqb "success" "success")) with false. reduce_world.
    rewrite Hf. reduce_world. rewrite Hlt. reflexivity.
Qed.

Lemma ledger_consistent (rs : list Refund) :
  Forall (fun r => ref_payment_id r = "pay_1" /\ counts_as_refunded r = true) rs ->
  consistent (Ledger.tables rs).
Proof.
  intros Hrs. constructor.
  - repeat constructor. simpl. tauto.
  - intros r Hin. simpl in Hin. rewrite Forall_forall in Hrs.
    destruct (Hrs r Hin) as [-> _]. simpl. now left.
  - intros o [<- | []]. reflexivity.
  - intros r Hin. simpl in Hin. rewrite Forall_forall in Hrs. now destruct (Hrs r Hin).
Qed.

(** C2, as the design document has it, does not hold: two refund requests
    for the whole amount of the same payment, the second arriving while
    the first is between its sum query and its insert, are both accepted,
    and the refunds sum to twice the payment. *)
Lemma overlapping_refunds_exceed_payment :
  ~ (forall (w : World) (merchant1 payment1 : string) (req1 : RefundRequest)
            (merchant2 payment2 : string) (req2 : RefundRequest),
        consistent (db w) -> refunds_within_amount (db w) ->
        refunds_within_amount
          (db (world_of (createRefund_overlapped merchant1 payment1 req1
                                                  merchant2 payment2 req2 w)))).
Proof.
  intros H.
  assert (Hc : consistent (db (Ledger.world [] Shop.draws)))
    by (apply ledger_consistent; constructor).
  assert (Hw : refunds_within_amount (db (Ledger.world [] Shop.draws))).
  { intros p [<- | []]. vm_compute. discriminate. }
  specialize (H (Ledger.world [] Shop.draws)
                "m1" "pay_1" (Ledger.refund_of 50000)
                "m1" "pay_1" (Ledger.refund_of 50000) Hc Hw Ledger.paid).
  assert (Hin : In Ledger.paid
                   (payments (db (world_of (createRefund_overlapped
                                              "m1" "pay_1" (Ledger.refund_of 50000)
                                              "m1" "pay_1" (Ledger.refund_of 50000)
                                              (Ledger.world [] Shop.draws))))))
    by (vm_compute; left; reflexivity).
  specialize (H Hin). vm_compute in H. apply H. reflexivity.
Qed.

(** C2. As long as the requests and the jobs run one at a time, each from
    its first statement to its last, the refunds of a payment that are
    pending or processed never sum to more than the amount of the payment;
    refund creation turns down any amount that would take the sum over it,
    writing nothing; and the refund worker sums again before it processes
    and gives the job up, writing nothing, when the sum is over the
    amount. *)
Theorem refunds_stay_within_payment (w w' : World) (ops : list Operation) :
  consistent (db w) ->
  refunds_within_amount (db w) ->
  history w ops w' ->
  refunds_within_amount (db w')
  /\ (forall (v : World) (merchant payment_id : string) (req : RefundRequest)
             (payment : Payment) (others : list Payment) (amount : Z),
        payments_by_id_and_merchant payment_id merchant (db v) = payment :: others ->
        rq_amount req = Some amount ->
        pay_amount payment < total_refunded payment_id (db v) + amount ->
        refunds (db (world_of (createRefund merchant payment_id req v))) = refunds (db v)
        /\ refundQueue (queues (world_of (createRefund merchant payment_id req v)))
           = refundQueue (queues v)
        /\ exists response,
             value_of (createRefund merchant payment_id req v) = Some response
             /\ res_status response <> 201)
  /\ (forall (v : World) (job : Job RefundJobData)
             (refund : Refund) (other_refunds : list Refund)
             (payment : Payment) (other_payments : list Payment),
        refunds_by_id (refundId (job_data job)) (db v) = refund :: other_refunds ->
        payments_by_id (ref_payment_id refund) (db v) = payment :: other_payments ->
        pay_amount payment < total_refunded (ref_payment_id refund) (db v) ->
        (exists e v', processRefund job v = Throw e v' /\ refunds (db v') = refunds (db v))
        /\ (faults v = [] -> pay_status payment = "success" ->
            processRefund job v = Throw (Error "Refund amount exceeds payment amount") v)).
Proof.
  intros Hc Hw Hh. split; [| split].
  - exact (proj2 (history_keeps_books w w' ops Hh Hc Hw)).
  - intros v merchant payment_id req payment others amount Hrows Hamount Hover.
    destruct (createRefund_rejects_excess v merchant payment_id req payment others amount
                Hrows Hamount ltac:(lia)) as (H1 & H2 & H3).
    auto.
  - intros v job refund other_refunds payment other_payments.
    apply processRefund_rejects_excess.
Qed.

Lemma refunds_stay_within_payment_witness :
  refunds_within_amount
    (db (run (CreateRefund "m1" "pay_1" (Ledger.refund_of 20000))
             (run (CreateRefund "m1" "pay_1" (Ledger.refund_of 30000))
                  (Ledger.world [] Shop.draws)))).
Proof.
  assert (Hc : consistent (db (Ledger.world [] Shop.draws)))
    by (apply ledger_consistent; constructor).
  assert (Hw : refunds_within_amount (db (Ledger.world [] Shop.draws))).
  { intros p [<- | []]. vm_compute. discriminate. }
  apply (refunds_stay_within_payment
           (Ledger.world [] Shop.draws) _
           [CreateRefund "m1" "pay_1" (Ledger.refund_of 30000);
            CreateRefund "m1" "pay_1" (Ledger.refund_of 20000)] Hc Hw).
  apply history_operation, history_operation, history_done.
Defined.

(** Both refunds of the witness were accepted: the sum is the whole
    amount, and a further one is turned down. *)
Example refunds_up_to_the_amount :
  let w := run (CreateRefund "m1" "pay_1" (Ledger.refund_of 20000))
               (run (CreateRefund "m1" "pay_1" (Ledger.refund_of 30000))
                    (Ledger.world [] Shop.draws)) in
  total_refunded "pay_1" (db w) = 50000
  /\ option_map res_status (value_of (createRefund "m1" "pay_1" (Ledger.refund_of 1) w))
     = Some 400.
Proof. vm_compute. split; reflexivity. Qed.

(** ** The life of a payment *)

Lemma run_keeps_consistent (op : Operation) (w : World) :
  consistent (db w) -> consistent (db (run op w)).
Proof.
  intros Hc. destruct (run_effect op w) as [Hq | (id & _ & Hs)].
  - now apply (quiet_consistent (db w)).
  - destruct (settled_mapped id _ _ Hs) as (g & Hg & Ho & Hp & Hr).
    now apply (mapped_consistent (db w) _ g).
Qed.



Lemma createPayment_miss_run (merchant : string) (req : PaymentRequest)
      (order : Order) (other_orders : list Order) (w : World) :
  faults w = [] ->
  (forall key, idempotency_header req = Some key ->
               idempotency_keys_by_key key merchant (db w) = []) ->
  orders_by_id_and_merchant (rq_order_id req) merchant (db w) = order :: other_orders ->
  method_fields_given req ->
  existsb (fun p => String.eqb (pay_id p) ("pay_" +++ draw_string 16 (random w)))
          (payments (db w)) = false ->
  createPayment merchant req w
  = Ok (mkResponse 201 (payment_response (created_payment merchant req order w)))
       (created_world merchant req order w).
Proof.
  intros Hf Hmiss Horder Hfields Hfresh. unfold createPayment. apply try_catch_ok.
  destruct (idempotency_header req) as [key|] eqn:Hkey.
  - assert (Hcheck : checkIdempotencyKey key merchant w = Ok None w).
    { unfold checkIdempotencyKey. apply try_catch_ok.
      rewrite (bind_ok _ _ _ _ _ (query_no_faults _ w Hf)), (Hmiss key eq_refl).
      reflexivity. }
    rewrite (bind_ok _ _ _ _ _ Hcheck).
    eapply createPayment_fresh_run; eassumption.
  - unfold bind at 1, ret. eapply createPayment_fresh_run; eassumption.
Qed.




(** A payment from its creation to its settlement. *)
Example created_then_settled :
  let w1 := world_of (createPayment "m1" Shop.request Shop.world) in
  let w2 := world_of (processPayment (mkJob "process-payment"
                                            (mkPaymentJobData "pay_ABCCDEEFGGHIIJKL") 0) w1) in
  map pay_status (payments (db w1)) = ["pending"]
  /\ map (fun j => paymentId (job_data j)) (paymentQueue (queues w1)) = ["pay_ABCCDEEFGGHIIJKL"]
  /\ map pay_status (payments (db w2)) = ["success"]
  /\ map log_event (webhook_logs (db w2)) = ["payment.success"].
Proof. vm_compute. repeat split. Qed.

(** ** The retry schedule outside its table *)

Lemma array_get_beyond (a : list Z) (i : Z) :
  Z.of_nat (List.length a) <= i -> array_get a i = None.
Proof.
  intros H. unfold array_get.
  destruct (i <? 0) eqn:E; [reflexivity |].
  apply nth_error_None. lia.
Qed.

Lemma getRetryDelay_cap (e : Env) (n : Z) :
  n <= 0 \/ 5 <= n ->
  getRetryDelay e n
  = if env_is (WEBHOOK_RETRY_INTERVALS_TEST e) "true" then 20000 else 7200000.
Proof.
  intros H. unfold getRetryDelay.
  assert (Hcases : n < 0 \/ n = 0 \/ 5 <= n) by lia.
  destruct (env_is _ _); destruct Hcases as [Hn | [-> | Hn]]; try reflexivity.
  - unfold array_get. apply Z.ltb_lt in Hn. now rewrite Hn.
  - now rewrite array_get_beyond.
  - unfold array_get. apply Z.ltb_lt in Hn. now rewrite Hn.
  - now rewrite array_get_beyond.
Qed.

Lemma getRetryDelay_inside (e : Env) (n : Z) :
  1 <= n <= 4 ->
  getRetryDelay e n
  = if env_is (WEBHOOK_RETRY_INTERVALS_TEST e) "true"
    then 5000 * n
    else nth (Z.to_nat n) prodIntervals 0.
Proof.
  intros H.
  assert (Hcases : n = 1 \/ n = 2 \/ n = 3 \/ n = 4) by lia.
  unfold getRetryDelay.
  destruct (env_is _ _); destruct Hcases as [-> | [-> | [-> | ->]]]; reflexivity.
Qed.

Lemma getRetryDelay_bounds (e : Env) (n : Z) :
  5000 <= getRetryDelay e n <= 7200000
  /\ (env_is (WEBHOOK_RETRY_INTERVALS_TEST e) "true" = true -> getRetryDelay e n <= 20000)
  /\ (env_is (WEBHOOK_RETRY_INTERVALS_TEST e) "true" = false -> 60000 <= getRetryDelay e n).
Proof.
  assert (Hcases : n <= 0 \/ 5 <= n \/ n = 1 \/ n = 2 \/ n = 3 \/ n = 4) by lia.
  destruct Hcases as [Hn | [Hn | Hn]].
  - rewrite getRetryDelay_cap by lia.
    destruct (env_is _ _); repeat split; intros; try lia; discriminate.
  - rewrite getRetryDelay_cap by lia.
    destruct (env_is _ _); repeat split; intros; try lia; discriminate.
  - rewrite getRetryDelay_inside by lia.
    destruct (env_is _ _);
      destruct Hn as [-> | [-> | [-> | ->]]]; cbn; repeat split; intros; try lia; discriminate.
Qed.

(** X1. [getRetryDelay] outside the attempts 1 to 4: for attempt 0, whose
    table entry is 0, for a negative attempt number and for every attempt
    from the fifth on, the delay is the last entry of the table of the mode
    (two hours in production, twenty seconds with the test intervals). So,
    although both tables start with 0, no delay is ever 0: whatever the
    attempt number and the mode, it is at least five seconds and at most two
    hours. *)
Theorem getRetryDelay_outside_table (e : Env) (n : Z) :
  (n <= 0 \/ 5 <= n ->
   getRetryDelay e n
   = if env_is (WEBHOOK_RETRY_INTERVALS_TEST e) "true" then 20000 else 7200000)
  /\ 5000 <= getRetryDelay e n <= 7200000.
Proof.
  split.
  - intros [Hn | Hn]; unfold getRetryDelay, array_get.
    + destruct (n <? 0) eqn:Hneg.
      * destruct (env_is _ _); reflexivity.
      * assert (n = 0) by (apply Z.ltb_ge in Hneg; lia). subst n.
        destruct (env_is _ _); reflexivity.
    + assert (Hneg : (n <? 0) = false) by (apply Z.ltb_ge; lia). rewrite Hneg.
      assert (Hout : forall a : list Z, List.length a = 5%nat ->
                                        nth_error a (Z.to_nat n) = None).
      { intros a Ha. apply nth_error_None. lia. }
      rewrite !Hout by reflexivity.
      destruct (env_is _ _); reflexivity.
  - apply getRetryDelay_bounds.
Qed.

Lemma getRetryDelay_outside_table_witness :
  getRetryDelay Scenario.production 0 = 7200000
  /\ 5000 <= getRetryDelay Scenario.production 0 <= 7200000.
Proof.
  destruct (getRetryDelay_outside_table Scenario.production 0) as [Hcap Hbounds].
  split; [apply Hcap; left; lia | exact Hbounds].
Defined.

(** X2. From the first attempt on, a later attempt never waits less than an
    earlier one, in either mode. *)
Theorem getRetryDelay_monotone (e : Env) (n m : Z) :
  1 <= n -> n <= m -> getRetryDelay e n <= getRetryDelay e m.
Proof.
  intros Hn Hm.
  destruct (Z_le_gt_dec 5 m) as [Hbig | Hsmall].
  - rewrite (getRetryDelay_cap e m) by lia.
    pose proof (getRetryDelay_bounds e n) as (Hb & Ht & _).
    destruct (env_is _ _); [apply Ht; reflexivity | lia].
  - rewrite (getRetryDelay_inside e n), (getRetryDelay_inside e m) by lia.
    destruct (env_is _ _); [lia |].
    assert (Hcn : n = 1 \/ n = 2 \/ n = 3 \/ n = 4) by lia.
    assert (Hcm : m = 1 \/ m = 2 \/ m = 3 \/ m = 4) by lia.
    destruct Hcn as [-> | [-> | [-> | ->]]];
      destruct Hcm as [-> | [-> | [-> | ->]]]; try lia; vm_compute; discriminate.
Qed.

Lemma getRetryDelay_monotone_witness :
  getRetryDelay Scenario.production 2 <= getRetryDelay Scenario.production 9.
Proof. apply (getRetryDelay_monotone Scenario.production 2 9); lia. Defined.

(** ** The delivery job: what it leaves alone *)

(** X3. A merchant without a webhook URL: the job resolves as skipped, and
    neither the tables nor the queues change and nothing is posted, whether
    the store answers or not. *)
Theorem deliverWebhook_skips_without_url
  (w : World) (job : Job WebhookJobData) (merchant : Merchant) (others : list Merchant) :
  merchants_by_id (merchantId (job_data job)) (db w) = merchant :: others ->
  truthy (mer_webhook_url merchant) = false ->
  let r := deliverWebhook job w in
  db (world_of r) = db w
  /\ queues (world_of r) = queues w
  /\ sent (world_of r) = sent w
  /\ (faults w = [] -> r = Ok DeliverSkipped w)
  /\ (forall rest, faults w = false :: rest -> r = Ok DeliverSkipped (set_faults rest w)).
Proof.
  intros Hm Hurl. cbv zeta. unfold deliverWebhook.
  reduce_world.
  destruct (faults w) as [|[|] rest] eqn:Hf; reduce_world; rewrite ?Hm, ?Hurl; reduce_world.
  - repeat split; intros; congruence.
  - repeat split; intros; congruence.
  - repeat split; intros; congruence.
Qed.

Lemma deliverWebhook_skips_without_url_witness :
  deliverWebhook Scenario.job1
    (Scenario.world_of_tables
       (mkDatabase [mkMerchant "m1" None None] [] [] [] [Scenario.log1 0] [])
       Scenario.unreachable)
  = Ok DeliverSkipped
       (Scenario.world_of_tables
          (mkDatabase [mkMerchant "m1" None None] [] [] [] [Scenario.log1 0] [])
          Scenario.unreachable).
Proof.
  destruct (deliverWebhook_skips_without_url
              (Scenario.world_of_tables
                 (mkDatabase [mkMerchant "m1" None None] [] [] [] [Scenario.log1 0] [])
                 Scenario.unreachable)
              Scenario.job1 (mkMerchant "m1" None None) [] eq_refl eq_refl)
    as (_ & _ & _ & H & _).
  apply H. reflexivity.
Defined.

(** X4. The job throws, and leaves the world as it found it (no request, no
    update of the log, no retry job), when the merchant of the job is gone,
    when the log of the job is gone, or when the merchant has a URL but no
    secret. *)
Theorem deliverWebhook_throws_before_sending (w : World) (job : Job WebhookJobData) :
  faults w = [] ->
  merchants_by_id (merchantId (job_data job)) (db w) = []
  \/ (exists merchant others,
         merchants_by_id (merchantId (job_data job)) (db w) = merchant :: others
         /\ truthy (mer_webhook_url merchant) = true
         /\ (webhook_logs_by_id (webhookLogId (job_data job)) (db w) = []
             \/ mer_webhook_secret merchant = None)) ->
  exists message, deliverWebhook job w = Throw (Error message) w.
Proof.
  intros Hf H. unfold deliverWebhook, try_catch.
  rewrite (bind_ok _ _ _ _ _ (query_no_faults _ w Hf)).
  destruct H as [Hm | (merchant & others & Hm & Hurl & H)]; rewrite Hm.
  - eexists. reflexivity.
  - rewrite Hurl. cbn [negb].
    rewrite (bind_ok _ _ _ _ _ (query_no_faults _ w Hf)).
    destruct (webhook_logs_by_id (webhookLogId (job_data job)) (db w)) as [|log logs] eqn:Hl.
    + eexists. reflexivity.
    + destruct H as [H | Hs]; [discriminate |]. rewrite Hs. eexists. reflexivity.
Qed.

Lemma deliverWebhook_throws_before_sending_witness :
  exists message,
    deliverWebhook Scenario.job1
      (Scenario.world_of_tables (mkDatabase [Scenario.merchant1] [] [] [] [] [])
                                Scenario.unreachable)
    = Throw (Error message)
        (Scenario.world_of_tables (mkDatabase [Scenario.merchant1] [] [] [] [] [])
                                  Scenario.unreachable).
Proof.
  apply (deliverWebhook_throws_before_sending
           (Scenario.world_of_tables (mkDatabase [Scenario.merchant1] [] [] [] [] [])
                                     Scenario.unreachable)
           Scenario.job1).
  - reflexivity.
  - right. exists Scenario.merchant1, []. repeat split. left. reflexivity.
Defined.

Lemma logs_by_id_update_other (id other : string) (f : WebhookLog -> WebhookLog) (d : Database) :
  (forall l, log_id (f l) = log_id l) ->
  other <> id ->
  webhook_logs_by_id other (update_log id f d) = webhook_logs_by_id other d.
Proof.
  intros Hid Hne. unfold webhook_logs_by_id, update_log. cbn [webhook_logs set_webhook_logs].
  induction (webhook_logs d) as [|l ls IH]; [reflexivity |].
  cbn [map filter]. rewrite IH.
  destruct (String.eqb (log_id l) id) eqn:E; [| reflexivity].
  rewrite Hid. apply String.eqb_eq in E.
  destruct (String.eqb (log_id l) other) eqn:E'; [| reflexivity].
  apply String.eqb_eq in E'. congruence.
Qed.

Lemma log_ids_update (id : string) (f : WebhookLog -> WebhookLog) (d : Database) :
  (forall l, log_id (f l) = log_id l) ->
  map log_id (webhook_logs (update_log id f d)) = map log_id (webhook_logs d).
Proof.
  intros Hid. unfold update_log. cbn [webhook_logs set_webhook_logs].
  rewrite map_map. apply map_ext. intros l.
  destruct (String.eqb (log_id l) id); [apply Hid | reflexivity].
Qed.

Lemma none_more {A} (l : list A) :
  exists added, l = l ++ added /\ (List.length added <= 1)%nat.
Proof. exists []. rewrite app_nil_r. split; [reflexivity | cbn; lia]. Qed.

Lemma one_more {A} (l : list A) (x : A) :
  exists added, l ++ [x] = l ++ added /\ (List.length added <= 1)%nat.
Proof. exists [x]. split; [reflexivity | cbn; lia]. Qed.

Lemma nothing_added {A} (P : A -> Prop) (l : list A) :
  exists added, l = l ++ added /\ (List.length added <= 1)%nat /\ Forall P added.
Proof. exists []. rewrite app_nil_r. repeat split; [cbn; lia | constructor]. Qed.

Lemma one_added {A} (P : A -> Prop) (l : list A) (x : A) :
  P x -> exists added, l ++ [x] = l ++ added /\ (List.length added <= 1)%nat /\ Forall P added.
Proof. intros H. exists [x]. repeat split; [cbn; lia | now constructor]. Qed.

Lemma webhook_job_data_eta (x : WebhookJobData) :
  mkWebhookJobData (webhookLogId x) (merchantId x) (event x) (payload x) = x.
Proof. destruct x; reflexivity. Qed.

(** The projections of a world that was built by the handlers. *)
Ltac reduce_goal :=
  cbn [world_of value_of
       db queues faults clock env random uuids network sent
       set_db set_queues set_faults set_random set_uuids set_sent set_clock
       payments refunds orders merchants webhook_logs idempotency_keys
       set_orders set_payments set_refunds set_webhook_logs set_idempotency_keys
       paymentQueue webhookQueue refundQueue
       set_paymentQueue set_webhookQueue set_refundQueue].

(** The goal about the world an operation ends in, with that world behind a
    name while the paths of the operation are taken apart. *)
Ltac over_world r :=
  pattern (world_of r);
  match goal with |- ?P _ => let Q := fresh "Q" in set (Q := P) end.

(** X5. Whatever the store and the network do, a run of the delivery job
    changes no table but the webhook log, creates and deletes no log,
    leaves every log but its own as it was, posts at most one request and
    adds at most one job, a retry of its own delivery with a delay. *)
Theorem deliverWebhook_touches_only_its_log (w : World) (job : Job WebhookJobData) :
  let w' := world_of (deliverWebhook job w) in
  merchants (db w') = merchants (db w)
  /\ orders (db w') = orders (db w)
  /\ payments (db w') = payments (db w)
  /\ refunds (db w') = refunds (db w)
  /\ idempotency_keys (db w') = idempotency_keys (db w)
  /\ paymentQueue (queues w') = paymentQueue (queues w)
  /\ refundQueue (queues w') = refundQueue (queues w)
  /\ map log_id (webhook_logs (db w')) = map log_id (webhook_logs (db w))
  /\ (forall other, other <> webhookLogId (job_data job) ->
        webhook_logs_by_id other (db w') = webhook_logs_by_id other (db w))
  /\ (exists posted, sent w' = sent w ++ posted /\ (List.length posted <= 1)%nat)
  /\ (exists added,
        webhookQueue (queues w') = webhookQueue (queues w) ++ added
        /\ (List.length added <= 1)%nat
        /\ Forall (fun j => job_data j = job_data job /\ 0 < job_delay j) added).
Proof.
  cbv zeta. over_world (deliverWebhook job w).
  unfold deliverWebhook, classify.
  paths; subst Q; cbv beta; reduce_goal;
    (split; [reflexivity |]); (split; [reflexivity |]); (split; [reflexivity |]);
    (split; [reflexivity |]); (split; [reflexivity |]); (split; [reflexivity |]);
    (split; [reflexivity |]);
    (split; [first [reflexivity | apply log_ids_update; reflexivity] |]);
    (split; [intros other Hother;
             first [reflexivity
                   | apply logs_by_id_update_other; [reflexivity | exact Hother]] |]);
    (split; [first [apply none_more | apply one_more] |]);
    first [apply nothing_added
          | apply (one_added (fun j : Job WebhookJobData =>
                                job_data j = job_data job /\ 0 < job_delay j));
            split;
            [apply webhook_job_data_eta
            | cbn [job_delay];
              match goal with
              | |- context [getRetryDelay ?e ?n] =>
                  pose proof (getRetryDelay_bounds e n); lia
              end]].
Qed.

(** ** Delivery to the reference receiver *)

Lemma signed_request_header (url secret : string) (p : json) :
  header "X-Webhook-Signature" (req_headers (signed_request url secret p))
  = Some (Crypto.createHmac_sha256_hex secret (stringify p)).
Proof. reflexivity. Qed.

Lemma receiver_answer (secret' url secret : string) (p : json) :
  receiver secret' (signed_request url secret p)
  = if String.eqb (Crypto.createHmac_sha256_hex secret (stringify p))
                  (Crypto.createHmac_sha256_hex secret' (stringify p))
    then Responded 200 (JStr "OK")
    else Responded 401 (JStr "Invalid signature").
Proof.
  unfold receiver. rewrite signed_request_header. reflexivity.
Qed.

(** X6. The job and the receiver of the test merchant, end to end, for a
    payload that is an object or an array and whose serialization has at
    most 100kb, which [express.json()] hands to the handler: the receiver
    answers 200 exactly when the HMAC of the body under its own secret is
    the one the job computed under the merchant's, and 401 otherwise; the
    job records that code on the log and counts the attempt as delivered in
    the first case only. With the same secret on both sides every such
    delivery is accepted. *)
Theorem delivery_to_receiver
  (w : World) (job : Job WebhookJobData)
  (merchant : Merchant) (other_merchants : list Merchant)
  (url secret secret' : string) (log : WebhookLog) (other_logs : list WebhookLog) :
  faults w = [] ->
  merchants_by_id (merchantId (job_data job)) (db w) = merchant :: other_merchants ->
  mer_webhook_url merchant = Some url ->
  url <> EmptyString ->
  mer_webhook_secret merchant = Some secret ->
  webhook_logs_by_id (webhookLogId (job_data job)) (db w) = log :: other_logs ->
  network w = receiver secret' ->
  express_json_accepts (payload (job_data job)) = true ->
  let body := stringify (payload (job_data job)) in
  let accepted := String.eqb (Crypto.createHmac_sha256_hex secret body)
                             (Crypto.createHmac_sha256_hex secret' body) in
  exists (w' : World) (log' : WebhookLog) (rest : list WebhookLog),
    deliverWebhook job w
    = Ok (DeliverDone (webhookLogId (job_data job)) accepted (log_attempts log + 1)) w'
    /\ webhook_logs_by_id (webhookLogId (job_data job)) (db w') = log' :: rest
    /\ log_response_code log' = Some (if accepted then 200 else 401)
    /\ log_attempts log' = log_attempts log + 1
    /\ (accepted = true -> log_status log' = "success" /\ queues w' = queues w)
    /\ (accepted = false -> log_status log' <> "success")
    /\ (secret' = secret -> accepted = true).
Proof.
  intros Hf Hm Hurl Hne Hsec Hlog Hnet _ body accepted.
  rewrite (deliverWebhook_run w job merchant other_merchants url secret log other_logs
             Hf Hm Hurl Hne Hsec Hlog).
  rewrite Hnet, receiver_answer. fold body. fold accepted.
  destruct accepted eqn:Hacc.
  - change (classify (axios_settle (Responded 200 (JStr "OK"))))
      with (Some 200, Some (substring0 1000 (stringify (JStr "OK"))), true).
    eexists _, _, _. split; [reflexivity |].
    unfold after_success. cbn [db set_db set_sent].
    rewrite logs_by_id_update_same by reflexivity. rewrite Hlog. cbn [map].
    split; [reflexivity |]. repeat split; try reflexivity; try discriminate.
  - change (classify (axios_settle (Responded 401 (JStr "Invalid signature"))))
      with (Some 401, Some (substring0 1000 (stringify (JStr "Invalid signature"))), false).
    eexists _, _, _. split; [reflexivity |].
    assert (Hdb : db (after_failure w job url secret log (Some 401)
                        (Some (substring0 1000 (stringify (JStr "Invalid signature")))))
                  = update_log (webhookLogId (job_data job))
                      (mark_failure (if 5 <=? log_attempts log + 1 then "failed" else "pending")
                         (log_attempts log + 1)
                         (clock w + getRetryDelay (env w) (log_attempts log + 1))
                         (Some 401)
                         (Some (substring0 1000 (stringify (JStr "Invalid signature"))))
                         (clock w))
                      (db w)).
    { unfold after_failure. destruct (log_attempts log + 1 <? 5); reflexivity. }
    rewrite Hdb, logs_by_id_update_same by reflexivity. rewrite Hlog. cbn [map].
    split; [reflexivity |]. split; [reflexivity |]. split; [reflexivity |].
    split; [discriminate |]. split.
    + intros _. cbn [log_status mark_failure].
      destruct (5 <=? log_attempts log + 1); discriminate.
    + intros ->. subst accepted. rewrite String.eqb_refl in Hacc. discriminate.
Qed.

Lemma delivery_to_receiver_witness :
  exists w' : World,
    deliverWebhook Scenario.job1 (Scenario.delivery_world 0 (receiver Scenario.test_secret))
    = Ok (DeliverDone "log-1" true 1) w'.
Proof.
  destruct (delivery_to_receiver
              (Scenario.delivery_world 0 (receiver Scenario.test_secret)) Scenario.job1
              Scenario.merchant1 [] "http://localhost:4000/webhook" Scenario.test_secret
              Scenario.test_secret (Scenario.log1 0) [] eq_refl eq_refl eq_refl
              ltac:(discriminate) eq_refl eq_refl eq_refl
              ltac:(vm_compute; reflexivity))
    as (w' & log' & rest & Hrun & _ & _ & _ & _ & _ & Hsame).
  rewrite (Hsame eq_refl) in Hrun.
  exists w'. exact Hrun.
Defined.

(** ** The chain of retries *)

Lemma drain_webhooks_empty (fuel : nat) (w : World) :
  webhookQueue (queues w) = [] -> drain_webhooks fuel w = Ok tt w.
Proof.
  intros H. destruct fuel; [reflexivity |].
  cbn [drain_webhooks]. unfold take_webhook_job. now rewrite H.
Qed.

Lemma drain_webhooks_step (fuel : nat) (w w0 w1 : World) (job : Job WebhookJobData)
      (r : DeliverResult) :
  take_webhook_job w = Some (job, w0) ->
  deliverWebhook job w0 = Ok r w1 ->
  drain_webhooks (S fuel) w = drain_webhooks fuel w1.
Proof.
  intros Ht Hd. cbn [drain_webhooks]. rewrite Ht. unfold bind. now rewrite Hd.
Qed.

Lemma merchants_by_id_same (id : string) (d d' : Database) :
  merchants d' = merchants d -> merchants_by_id id d' = merchants_by_id id d.
Proof. unfold merchants_by_id. now intros ->. Qed.

(** One failed attempt of the job at the head of the queue. *)
Lemma failed_delivery_step
  (w : World) (job : Job WebhookJobData) (waiting : list (Job WebhookJobData))
  (merchant : Merchant) (others : list Merchant)
  (url secret : string) (log : WebhookLog) :
  faults w = [] ->
  merchants_by_id (merchantId (job_data job)) (db w) = merchant :: others ->
  mer_webhook_url merchant = Some url ->
  url <> EmptyString ->
  mer_webhook_secret merchant = Some secret ->
  webhook_logs_by_id (webhookLogId (job_data job)) (db w) = [log] ->
  wire_success (network w (signed_request url secret (payload (job_data job)))) = false ->
  webhookQueue (queues w) = job :: waiting ->
  let n := log_attempts log + 1 in
  exists (w0 w1 : World) (log1 : WebhookLog),
    take_webhook_job w = Some (job, w0)
    /\ deliverWebhook job w0 = Ok (DeliverDone (webhookLogId (job_data job)) false n) w1
    /\ faults w1 = []
    /\ env w1 = env w
    /\ network w1 = network w
    /\ merchants (db w1) = merchants (db w)
    /\ webhook_logs_by_id (webhookLogId (job_data job)) (db w1) = [log1]
    /\ log_attempts log1 = n
    /\ log_status log1 = (if 5 <=? n then "failed" else "pending")
    /\ log_last_attempt_at log1 = Some (clock w + job_delay job)
    /\ clock w1 = clock w + job_delay job
    /\ sent w1 = sent w ++ [signed_request url secret (payload (job_data job))]
    /\ webhookQueue (queues w1)
       = waiting ++ (if n <? 5
                     then [mkJob "deliver-webhook" (job_data job) (getRetryDelay (env w) n)]
                     else []).
Proof.
  intros Hf Hm Hurl Hne Hsec Hlog Hwire Hq n.
  set (w0 := set_clock (clock w + job_delay job)
               (set_queues (set_webhookQueue waiting (queues w)) w)).
  assert (Htake : take_webhook_job w = Some (job, w0)).
  { unfold take_webhook_job. rewrite Hq. reflexivity. }
  pose proof (deliverWebhook_run w0 job merchant others url secret log []
                Hf Hm Hurl Hne Hsec Hlog) as Hrun.
  change (network w0) with (network w) in Hrun.
  pose proof (classify_flag
                (network w (signed_request url secret (payload (job_data job))))) as Hflag.
  rewrite Hwire in Hflag.
  destruct (classify (axios_settle
                        (network w (signed_request url secret (payload (job_data job))))))
    as [[code body] flag].
  cbn [snd] in Hflag. subst flag.
  exists w0, (after_failure w0 job url secret log code body).
  eexists. split; [exact Htake |]. split; [exact Hrun |].
  unfold after_failure. fold n.
  destruct (n <? 5) eqn:Hn; reduce_goal;
    rewrite logs_by_id_update_same by reflexivity;
    change (db w0) with (db w); rewrite Hlog; cbn [map];
    repeat split; try assumption; try (subst w0; cbn; now rewrite app_nil_r).
Qed.

(** From a log with [4 - k] attempts behind it, [k + 1] failing attempts
    end the chain. *)
Lemma retries_run_out (k : nat) :
  forall (w : World) (job : Job WebhookJobData)
         (merchant : Merchant) (others : list Merchant)
         (url secret : string) (log : WebhookLog),
    faults w = [] ->
    merchants_by_id (merchantId (job_data job)) (db w) = merchant :: others ->
    mer_webhook_url merchant = Some url ->
    url <> EmptyString ->
    mer_webhook_secret merchant = Some secret ->
    webhook_logs_by_id (webhookLogId (job_data job)) (db w) = [log] ->
    wire_success (network w (signed_request url secret (payload (job_data job)))) = false ->
    webhookQueue (queues w) = [job] ->
    log_attempts log = 4 - Z.of_nat k ->
    exists (w' : World) (log' : WebhookLog),
      (forall extra, drain_webhooks (S k + extra) w = Ok tt w')
      /\ webhookQueue (queues w') = []
      /\ webhook_logs_by_id (webhookLogId (job_data job)) (db w') = [log']
      /\ log_status log' = "failed"
      /\ log_attempts log' = 5
      /\ sent w' = sent w ++ repeat (signed_request url secret (payload (job_data job))) (S k)
      /\ clock w' = clock w + job_delay job + retry_waits (env w) k (log_attempts log + 1)
      /\ log_last_attempt_at log' = Some (clock w').
Proof.
  induction k as [|k IH]; intros w job merchant others url secret log
                                 Hf Hm Hurl Hne Hsec Hlog Hwire Hq Ha.
  - destruct (failed_delivery_step w job [] merchant others url secret log
                Hf Hm Hurl Hne Hsec Hlog Hwire Hq)
      as (w0 & w1 & log1 & Htake & Hrun & Hf1 & He1 & Hn1 & Hm1 & Hl1 & Ha1 & Hs1 & Ht1
          & Hc1 & Hsent1 & Hq1).
    replace (log_attempts log + 1) with 5 in * by (cbn in Ha; lia).
    cbn [Z.leb Z.ltb Z.compare Pos.compare Pos.compare_cont app] in Hs1, Hq1.
    exists w1, log1. repeat split; try assumption.
    + intros extra. cbn [Nat.add].
      rewrite (drain_webhooks_step extra w w0 w1 job _ Htake Hrun).
      now apply drain_webhooks_empty.
    + cbn [retry_waits]. lia.
    + congruence.
  - destruct (failed_delivery_step w job [] merchant others url secret log
                Hf Hm Hurl Hne Hsec Hlog Hwire Hq)
      as (w0 & w1 & log1 & Htake & Hrun & Hf1 & He1 & Hn1 & Hm1 & Hl1 & Ha1 & Hs1 & Ht1
          & Hc1 & Hsent1 & Hq1).
    assert (Hlt : (log_attempts log + 1 <? 5) = true) by (apply Z.ltb_lt; lia).
    rewrite Hlt in Hq1. cbn [app] in Hq1.
    set (job' := mkJob "deliver-webhook" (job_data job)
                       (getRetryDelay (env w) (log_attempts log + 1))) in *.
    destruct (IH w1 job' merchant others url secret log1) as (w' & log' & Hdrain & Hrest);
      try assumption.
    + cbn [job' job_data]. rewrite (merchants_by_id_same _ _ _ Hm1). exact Hm.
    + cbn [job' job_data]. rewrite Hn1. exact Hwire.
    + lia.
    + destruct Hrest as (Hq' & Hl' & Hs' & Ha' & Hsent' & Hc' & Ht').
      exists w', log'. repeat split; try assumption.
      * intros extra. change (S (S k) + extra)%nat with (S (S k + extra)).
        rewrite (drain_webhooks_step (S k + extra) w w0 w1 job _ Htake Hrun).
        apply Hdrain.
      * rewrite Hsent', Hsent1. cbn [job' job_data]. rewrite <- app_assoc. reflexivity.
      * rewrite Hc', Hc1, He1, Ha1. cbn [job' job_delay retry_waits]. lia.
Qed.

(** X7. A merchant whose endpoint keeps failing: from a fresh log and its
    delivery job, the worker makes five attempts and no more, to the same
    signed request each time; the log ends [failed] with five attempts and
    the queue ends empty; and, the first attempt being made at once, the last
    one is made 2 h 36 min later in production (1 + 5 + 30 + 120 minutes),
    50 s later with the test intervals. *)
Theorem five_failed_attempts_end_the_retries
  (w : World) (job : Job WebhookJobData)
  (merchant : Merchant) (others : list Merchant)
  (url secret : string) (log : WebhookLog) :
  faults w = [] ->
  merchants_by_id (merchantId (job_data job)) (db w) = merchant :: others ->
  mer_webhook_url merchant = Some url ->
  url <> EmptyString ->
  mer_webhook_secret merchant = Some secret ->
  webhook_logs_by_id (webhookLogId (job_data job)) (db w) = [log] ->
  log_attempts log = 0 ->
  webhookQueue (queues w) = [job] ->
  job_delay job = 0 ->
  wire_success (network w (signed_request url secret (payload (job_data job)))) = false ->
  exists (w' : World) (log' : WebhookLog),
    (forall extra, drain_webhooks (5 + extra) w = Ok tt w')
    /\ webhookQueue (queues w') = []
    /\ webhook_logs_by_id (webhookLogId (job_data job)) (db w') = [log']
    /\ log_status log' = "failed"
    /\ log_attempts log' = 5
    /\ sent w' = sent w ++ repeat (signed_request url secret (payload (job_data job))) 5
    /\ clock w' = clock w + (if env_is (WEBHOOK_RETRY_INTERVALS_TEST (env w)) "true"
                             then 50000 else 9360000)
    /\ log_last_attempt_at log' = Some (clock w').
Proof.
  intros Hf Hm Hurl Hne Hsec Hlog Ha Hq Hd Hwire.
  destruct (retries_run_out 4 w job merchant others url secret log
              Hf Hm Hurl Hne Hsec Hlog Hwire Hq)
    as (w' & log' & Hdrain & Hq' & Hl' & Hs' & Ha' & Hsent' & Hc' & Ht').
  { rewrite Ha. reflexivity. }
  exists w', log'. repeat split; try assumption.
  rewrite Hc', Hd, Ha. cbn [retry_waits Z.add Pos.add Pos.succ].
  rewrite !getRetryDelay_inside by lia.
  destruct (env_is _ _); [lia |].
  change (nth (Z.to_nat 1) prodIntervals 0) with 60000.
  change (nth (Z.to_nat 2) prodIntervals 0) with 300000.
  change (nth (Z.to_nat 3) prodIntervals 0) with 1800000.
  change (nth (Z.to_nat 4) prodIntervals 0) with 7200000.
  lia.
Qed.

Lemma five_failed_attempts_end_the_retries_witness :
  exists (w' : World) (log' : WebhookLog),
    drain_webhooks 5
      (set_queues (mkQueues [] [Scenario.job1] [])
                  (Scenario.delivery_world 0 Scenario.unreachable))
    = Ok tt w'
    /\ webhook_logs_by_id "log-1" (db w') = [log']
    /\ log_status log' = "failed"
    /\ clock w' = 1700000000000 + 9360000.
Proof.
  destruct (five_failed_attempts_end_the_retries
              (set_queues (mkQueues [] [Scenario.job1] [])
                          (Scenario.delivery_world 0 Scenario.unreachable))
              Scenario.job1 Scenario.merchant1 [] "http://localhost:4000/webhook"
              Scenario.test_secret (Scenario.log1 0) eq_refl eq_refl eq_refl
              ltac:(discriminate) eq_refl eq_refl eq_refl eq_refl eq_refl eq_refl)
    as (w' & log' & Hdrain & _ & Hl & Hs & _ & _ & Hc & _).
  exists w', log'. repeat split; try assumption.
  exact (Hdrain 0%nat).
Defined.

(** ** An event that is emitted *)

Lemma createWebhookLog_run (w : World) (merchant event : string) (data : json)
      (m : Merchant) (rest : list Merchant) (id : string) (ids : list string) :
  faults w = [] ->
  merchants_by_id merchant (db w) = m :: rest ->
  truthy (mer_webhook_url m) = true ->
  uuids w = id :: ids ->
  existsb (fun l => String.eqb (log_id l) id) (webhook_logs (db w)) = false ->
  createWebhookLog merchant event data w
  = Ok tt
      (set_queues
         (set_webhookQueue
            (webhookQueue (queues w)
               ++ [mkJob "deliver-webhook"
                         (mkWebhookJobData id merchant event
                            (JObj [("event", JStr event); ("timestamp", JNum (clock w / 1000));
                                   ("data", data)]))
                         0])
            (queues w))
         (set_db
            (set_webhook_logs
               (webhook_logs (db w)
                  ++ [new_webhook_log id merchant event
                        (JObj [("event", JStr event); ("timestamp", JNum (clock w / 1000));
                               ("data", data)])
                        (clock w)])
               (db w))
            (set_uuids ids w))).
Proof.
  intros Hf Hm Hurl Hu Ht.
  unfold createWebhookLog, insert_webhook_log, add_webhook_job, query, io, gen_random_uuid,
    Date_now.
  do 6 (reduce_world; rewrite ?Hf, ?Hm, ?Hurl, ?Hu, ?Ht). reflexivity.
Qed.

Lemma logs_by_id_fresh (id : string) (logs : list WebhookLog) (row : WebhookLog) :
  existsb (fun l => String.eqb (log_id l) id) logs = false ->
  log_id row = id ->
  filter (fun l => String.eqb (log_id l) id) (logs ++ [row]) = [row].
Proof.
  intros Hfresh Hid. rewrite filter_app, (existsb_false_filter _ _ Hfresh).
  cbn [filter app]. now rewrite Hid, String.eqb_refl.
Qed.

(** X8. An event for a merchant with a webhook URL, when the store and the
    queue answer: exactly one log row and one delivery job are added, they
    carry the same log id, merchant and event, the row is [pending] with no
    attempts, the job is due at once, the job carries the payload
    [{event, timestamp, data}] with the time in whole seconds, the row holds
    what [jsonb] makes of that payload, and the row is the one a lookup by
    the id of the job finds. *)
Theorem emitted_event_is_logged_and_queued
  (w : World) (merchant event_name : string) (data : json)
  (m : Merchant) (rest : list Merchant) (id : string) (ids : list string) :
  faults w = [] ->
  merchants_by_id merchant (db w) = m :: rest ->
  truthy (mer_webhook_url m) = true ->
  uuids w = id :: ids ->
  existsb (fun l => String.eqb (log_id l) id) (webhook_logs (db w)) = false ->
  exists (w' : World) (row : WebhookLog) (job : Job WebhookJobData),
    createWebhookLog merchant event_name data w = Ok tt w'
    /\ webhook_logs (db w') = webhook_logs (db w) ++ [row]
    /\ webhookQueue (queues w') = webhookQueue (queues w) ++ [job]
    /\ webhook_logs_by_id (webhookLogId (job_data job)) (db w') = [row]
    /\ log_id row = id
    /\ log_merchant_id row = merchant /\ merchantId (job_data job) = merchant
    /\ log_event row = event_name /\ event (job_data job) = event_name
    /\ log_status row = "pending" /\ log_attempts row = 0
    /\ job_name job = "deliver-webhook" /\ job_delay job = 0
    /\ payload (job_data job)
       = JObj [("event", JStr event_name); ("timestamp", JNum (clock w / 1000));
               ("data", data)]
    /\ log_payload row = jsonb_in (payload (job_data job)).
Proof.
  intros Hf Hm Hurl Hu Hfresh.
  rewrite (createWebhookLog_run w merchant event_name data m rest id ids Hf Hm Hurl Hu Hfresh).
  eexists _, _, _. split; [reflexivity |].
  reduce_goal. split; [reflexivity |]. split; [reflexivity |].
  split.
  - unfold webhook_logs_by_id. reduce_goal. cbn [job_data webhookLogId].
    apply logs_by_id_fresh; [exact Hfresh | reflexivity].
  - repeat split.
Qed.

Lemma emitted_event_is_logged_and_queued_witness :
  exists (w' : World) (row : WebhookLog) (job : Job WebhookJobData),
    createWebhookLog "m1" "payment.success" (JStr "snapshot") Shop.world = Ok tt w'
    /\ webhook_logs (db w') = [row]
    /\ webhookQueue (queues w') = [job]
    /\ log_id row = "uuid-1"
    /\ webhookLogId (job_data job) = "uuid-1".
Proof.
  destruct (emitted_event_is_logged_and_queued Shop.world "m1" "payment.success"
              (JStr "snapshot") Scenario.merchant1 [] "uuid-1" ["uuid-2"; "uuid-3"; "uuid-4"]
              eq_refl eq_refl eq_refl eq_refl eq_refl)
    as (w' & row & job & Hrun & Hlogs & Hq & Hfind & Hid & _).
  exists w', row, job. repeat split; try assumption.
  assert (Hin : In row (webhook_logs_by_id (webhookLogId (job_data job)) (db w')))
    by (rewrite Hfind; now left).
  apply filter_In in Hin. destruct Hin as [_ Heq].
  apply String.eqb_eq in Heq. congruence.
Defined.

(** ** The payment worker *)

(** X9. A job for a payment that is not in the table: the worker throws;
    it has written nothing, queued nothing, drawn no random number and not
    waited, whether the store answers or not. *)
Theorem processPayment_unknown_payment (w : World) (job : Job PaymentJobData) :
  payments_by_id (paymentId (job_data job)) (db w) = [] ->
  let r := processPayment job w in
  (exists e, r = Throw e (world_of r))
  /\ db (world_of r) = db w
  /\ queues (world_of r) = queues w
  /\ random (world_of r) = random w
  /\ clock (world_of r) = clock w
  /\ (faults w = [] ->
      r = Throw (Error ("Payment not found: " +++ paymentId (job_data job))) w).
Proof.
  intros Hnone. cbv zeta. unfold processPayment. reduce_world.
  destruct (faults w) as [|[|] rest] eqn:Hf; reduce_world; rewrite ?Hnone; reduce_world;
    (split; [eexists; reflexivity |]); repeat split; intros; congruence.
Qed.

Lemma processPayment_unknown_payment_witness :
  processPayment (mkJob "process-payment" (mkPaymentJobData "pay_missing") 0) Shop.world
  = Throw (Error "Payment not found: pay_missing") Shop.world.
Proof.
  destruct (processPayment_unknown_payment Shop.world
              (mkJob "process-payment" (mkPaymentJobData "pay_missing") 0) eq_refl)
    as (_ & _ & _ & _ & _ & H).
  exact (H eq_refl).
Defined.

Lemma payments_by_id_logs (id : string) (d : Database) (logs : list WebhookLog) :
  payments_by_id id (set_webhook_logs logs d) = payments_by_id id d.
Proof. reflexivity. Qed.

(** X10. The status the payment worker writes and the event it emits agree.
    When the store and the queue answer and the merchant has a webhook URL,
    a run ends in [success] or [failed]; the payment carries that status;
    one log row and one delivery job are added for the payment's merchant,
    both for the event [payment.] followed by that status; a failure sets
    the error code [PAYMENT_FAILED] and its description, a success leaves
    the error columns as they were. *)
Theorem processPayment_event_matches_status
  (w : World) (job : Job PaymentJobData) (payment : Payment) (others : list Payment)
  (m : Merchant) (rest : list Merchant) (id : string) (ids : list string) :
  faults w = [] ->
  payments_by_id (paymentId (job_data job)) (db w) = payment :: others ->
  merchants_by_id (pay_merchant_id payment) (db w) = m :: rest ->
  truthy (mer_webhook_url m) = true ->
  uuids w = id :: ids ->
  existsb (fun l => String.eqb (log_id l) id) (webhook_logs (db w)) = false ->
  exists (s : string) (w' : World) (payment' : Payment) (others' : list Payment)
         (row : WebhookLog) (j : Job WebhookJobData),
    processPayment job w = Ok s w'
    /\ (s = "success" \/ s = "failed")
    /\ payments_by_id (paymentId (job_data job)) (db w') = payment' :: others'
    /\ pay_status payment' = s
    /\ webhook_logs (db w') = webhook_logs (db w) ++ [row]
    /\ webhookQueue (queues w') = webhookQueue (queues w) ++ [j]
    /\ log_event row = "payment." +++ s
    /\ event (job_data j) = "payment." +++ s
    /\ log_merchant_id row = pay_merchant_id payment
    /\ webhookLogId (job_data j) = log_id row
    /\ (s = "failed" ->
        pay_error_code payment' = Some "PAYMENT_FAILED"
        /\ pay_error_description payment' = Some "Payment processing failed")
    /\ (s = "success" ->
        pay_error_code payment' = pay_error_code payment
        /\ pay_error_description payment' = pay_error_description payment).
Proof.
  intros Hf Hpay Hm Hurl Hu Hfresh.
  unfold processPayment.
  paths; try discriminate; same_rows;
    match goal with
    | H : createWebhookLog _ _ _ _ = _ |- _ =>
        erewrite createWebhookLog_run in H by eassumption;
        first [discriminate | inversion H; subst; clear H]
    end.
  all: eexists _, _, _, _, _, _; (split; [reflexivity |]);
    (split; [first [left; reflexivity | right; reflexivity] |]);
    reduce_goal; rewrite payments_by_id_logs;
    first [rewrite payments_by_id_set_status_success
          | rewrite payments_by_id_set_status_failed];
    cbn [db set_clock] in *;
    match goal with H : payments_by_id _ (db _) = _ :: _ |- _ => rewrite H end;
    cbn [map]; (split; [reflexivity |]); repeat split; discriminate.
Qed.

Lemma processPayment_event_matches_status_witness :
  exists (s : string) (w' : World),
    processPayment Ledger.settle_again (Ledger.world [] Shop.draws) = Ok s w'
    /\ (s = "success" \/ s = "failed")
    /\ map log_event (webhook_logs (db w')) = ["payment." +++ s].
Proof.
  destruct (processPayment_event_matches_status
              (Ledger.world [] Shop.draws) Ledger.settle_again Ledger.paid []
              Scenario.merchant1 [] "uuid-1" ["uuid-2"; "uuid-3"; "uuid-4"]
              eq_refl eq_refl eq_refl eq_refl eq_refl eq_refl)
    as (s & w' & p' & l' & row & j & Hrun & Hs & _ & _ & Hlogs & _ & Hev & _).
  exists s, w'. split; [exact Hrun |]. split; [exact Hs |].
  rewrite Hlogs. cbn [Ledger.world Ledger.tables db webhook_logs app map].
  now rewrite Hev.
Defined.




(** The product is rounded to a double before the floor is taken: on these
    draws the exact quotient is one less. *)
Example product_is_rounded_before_floor :
  floor_of_product 217974221964732 5000 = 121
  /\ (217974221964732 * 5000) / two53 = 120
  /\ floor_of_product 526921156402348 2000 = 117
  /\ floor_of_product 2324438517352514 62 = 16
  /\ (2324438517352514 * 62) / two53 = 15
  /\ floor_of_product (two53 - 1) 62 = 61.
Proof. vm_compute. repeat split. Qed.

(** [parseInt] on some texts of a delay. *)
Example parseInt_reads :
  map parseInt ["1000"; "0x10"; "0X1f"; " 42px"; "-5"; "+7"; "-0x1F"; "08"; "1e3";
                "abc"; ""; "0x"; "- 5"; "9007199254740993"]
  = [Some 1000; Some 16; Some 31; Some 42; Some (-5); Some 7; Some (-31); Some 8; Some 1;
     None; None; None; None; Some 9007199254740992]
  /\ parseInt (Crypto.string_of_bytes [194; 160; 9; 55]) = Some 7.
Proof. vm_compute. split; reflexivity. Qed.



(** ** The refund worker *)

(** X12. The refund worker throws and leaves the world as it found it when
    the refund of the job is not in the table, when the payment of the
    refund is not, or when that payment is not in status [success]. *)
Theorem processRefund_preconditions (w : World) (job : Job RefundJobData) :
  faults w = [] ->
  refunds_by_id (refundId (job_data job)) (db w) = []
  \/ (exists refund others,
         refunds_by_id (refundId (job_data job)) (db w) = refund :: others
         /\ (payments_by_id (ref_payment_id refund) (db w) = []
             \/ exists payment ps,
                  payments_by_id (ref_payment_id refund) (db w) = payment :: ps
                  /\ pay_status payment <> "success")) ->
  exists message, processRefund job w = Throw (Error message) w.
Proof.
  intros Hf H. unfold processRefund, try_catch.
  rewrite (bind_ok _ _ _ _ _ (query_no_faults _ w Hf)).
  destruct H as [Hr | (refund & others & Hr & H)]; rewrite Hr.
  - eexists. reflexivity.
  - rewrite (bind_ok _ _ _ _ _ (query_no_faults _ w Hf)).
    destruct H as [Hp | (payment & ps & Hp & Hs)]; rewrite Hp.
    + eexists. reflexivity.
    + apply String.eqb_neq in Hs. rewrite Hs. cbn [negb]. eexists. reflexivity.
Qed.

Lemma processRefund_preconditions_witness :
  exists message,
    processRefund (mkJob "process-refund" (mkRefundJobData "rfnd_missing") 0)
                  (Ledger.world [] Shop.draws)
    = Throw (Error message) (Ledger.world [] Shop.draws).
Proof.
  apply (processRefund_preconditions (Ledger.world [] Shop.draws)
           (mkJob "process-refund" (mkRefundJobData "rfnd_missing") 0) eq_refl).
  left. reflexivity.
Defined.




(** ** Creating a payment *)

Lemma checkIdempotencyKey_miss (key merchant : string) (w : World) :
  faults w = [] ->
  idempotency_keys_by_key key merchant (db w) = [] ->
  checkIdempotencyKey key merchant w = Ok None w.
Proof.
  intros Hf Hmiss. unfold checkIdempotencyKey. apply try_catch_ok.
  rewrite (bind_ok _ _ _ _ _ (query_no_faults _ w Hf)), Hmiss. reflexivity.
Qed.

Lemma createPayment_uncached (merchant : string) (req : PaymentRequest) (w : World) :
  faults w = [] ->
  (forall key, idempotency_header req = Some key ->
               idempotency_keys_by_key key merchant (db w) = []) ->
  createPayment merchant req w
  = try_catch (createPayment_fresh merchant req) (fun _ => ret server_error) w.
Proof.
  intros Hf Hmiss. unfold createPayment, try_catch.
  destruct (idempotency_header req) as [key|] eqn:Hkey.
  - rewrite (bind_ok _ _ _ _ _ (checkIdempotencyKey_miss key merchant w Hf (Hmiss key eq_refl))).
    reflexivity.
  - reflexivity.
Qed.

(** X14. A request without a cached response that does not pass the checks
    is answered without anything being written or queued: 404 when the
    merchant has no order with that id (the order of another merchant
    included), 400 when the method is neither [card] nor [upi], when a card
    payment lacks the number, the expiry or the CVV, or when a UPI payment
    lacks the VPA. *)
Theorem createPayment_rejects_invalid_request
  (w : World) (merchant : string) (req : PaymentRequest) :
  faults w = [] ->
  (forall key, idempotency_header req = Some key ->
               idempotency_keys_by_key key merchant (db w) = []) ->
  orders_by_id_and_merchant (rq_order_id req) merchant (db w) = []
  \/ ~ method_fields_given req ->
  exists (status : Z) (code description : string),
    createPayment merchant req w = Ok (reject status code description) w
    /\ (status = 404 \/ status = 400)
    /\ (status = 404
        <-> orders_by_id_and_merchant (rq_order_id req) merchant (db w) = []).
Proof.
  intros Hf Hmiss Hbad.
  rewrite (createPayment_uncached merchant req w Hf Hmiss).
  unfold try_catch, createPayment_fresh.
  rewrite (bind_ok _ _ _ _ _ (query_no_faults _ w Hf)).
  destruct (orders_by_id_and_merchant (rq_order_id req) merchant (db w))
    as [|order others] eqn:Horder.
  - exists 404, "NOT_FOUND_ERROR", "Order not found". repeat split; auto.
  - destruct Hbad as [Hbad | Hbad]; [discriminate |].
    destruct (String.eqb (rq_method req) "card") eqn:Hcard;
      destruct (String.eqb (rq_method req) "upi") eqn:Hupi; cbn [orb negb andb].
    + apply String.eqb_eq in Hcard, Hupi. congruence.
    + destruct (truthy (rq_card_number req)) eqn:H1;
        destruct (truthy (rq_card_expiry req)) eqn:H2;
        destruct (truthy (rq_card_cvv req)) eqn:H3; cbn [orb negb andb];
        try (eexists 400, _, _; repeat split; auto; discriminate).
      exfalso. apply Hbad. left. apply String.eqb_eq in Hcard. auto.
    + destruct (truthy (rq_vpa req)) eqn:H1; cbn [orb negb andb];
        try (eexists 400, _, _; repeat split; auto; discriminate).
      exfalso. apply Hbad. right. apply String.eqb_eq in Hupi. auto.
    + eexists 400, _, _; repeat split; auto; discriminate.
Qed.

Lemma createPayment_rejects_invalid_request_witness :
  exists (status : Z) (code description : string),
    createPayment "m1" (mkPaymentRequest "order_1" "upi" None None None None None) Shop.world
    = Ok (reject status code description) Shop.world
    /\ (status = 404 \/ status = 400).
Proof.
  destruct (createPayment_rejects_invalid_request Shop.world "m1"
              (mkPaymentRequest "order_1" "upi" None None None None None) eq_refl)
    as (status & code & description & Hrun & Hstatus & _).
  - intros key Hkey. discriminate Hkey.
  - right. intros [(H & _) | (_ & H)]; discriminate H.
  - exists status, code, description. split; assumption.
Defined.


Lemma created_world_payments (merchant : string) (req : PaymentRequest) (order : Order)
      (w : World) :
  payments (db (created_world merchant req order w))
  = payments (db w) ++ [created_payment merchant req order w].
Proof.
  unfold created_world. destruct (idempotency_header req); reduce_goal.
  - now rewrite upsert_key_payments.
  - reflexivity.
Qed.







(** ** Capturing a payment *)

Lemma payments_by_id_and_merchant_split (id merchant : string) (d : Database) :
  payments_by_id_and_merchant id merchant d
  = filter (fun p => String.eqb (pay_merchant_id p) merchant) (payments_by_id id d).
Proof. unfold payments_by_id_and_merchant, payments_by_id. apply filter_and. Qed.

Lemma payments_by_id_set_captured (id : string) (now : Z) (d : Database) :
  payments_by_id id (set_captured id now d)
  = map (fun p => mkPayment (pay_id p) (pay_order_id p) (pay_merchant_id p) (pay_amount p)
                    (pay_currency p) (pay_method p) (pay_card_number p) (pay_card_expiry p)
                    (pay_card_cvv p) (pay_vpa p) (pay_status p) (pay_error_code p)
                    (pay_error_description p) true (pay_created_at p) now)
        (payments_by_id id d).
Proof.
  unfold payments_by_id, set_captured. cbn [payments set_payments].
  apply (filter_map_update (fun p => String.eqb (pay_id p) id)). reflexivity.
Qed.

Lemma set_captured_keeps {A} (field : Payment -> A) (id : string) (now : Z) (d : Database) :
  (forall p, field (mkPayment (pay_id p) (pay_order_id p) (pay_merchant_id p) (pay_amount p)
                      (pay_currency p) (pay_method p) (pay_card_number p) (pay_card_expiry p)
                      (pay_card_cvv p) (pay_vpa p) (pay_status p) (pay_error_code p)
                      (pay_error_description p) true (pay_created_at p) now)
             = field p) ->
  map field (payments (set_captured id now d)) = map field (payments d).
Proof.
  intros H. unfold set_captured. cbn [payments set_payments].
  rewrite map_map. apply map_ext. intros p.
  destruct (String.eqb (pay_id p) id); [apply H | reflexivity].
Qed.

(** X17. A capture that is accepted: the payment belongs to the merchant
    and is in status [success], and the request gives no amount, the amount
    0, or the amount of the payment. The answer is 200 with [captured]
    true; every payment with that id is captured afterwards; the ids, the
    statuses and the amounts of all payments are what they were; no
    payment is added or removed and nothing is queued. *)
Theorem capturePayment_marks_captured
  (w : World) (merchant id : string) (amount : option Z)
  (payment : Payment) (others : list Payment) :
  faults w = [] ->
  payments_by_id_and_merchant id merchant (db w) = payment :: others ->
  pay_status payment = "success" ->
  amount = None \/ amount = Some 0 \/ amount = Some (pay_amount payment) ->
  exists (w' : World) (p' : Payment),
    capturePayment merchant id amount w = Ok (mkResponse 200 (capture_response p')) w'
    /\ pay_captured p' = true
    /\ pay_id p' = id
    /\ payments_by_id id (db w') <> []
    /\ Forall (fun p => pay_captured p = true) (payments_by_id id (db w'))
    /\ map pay_id (payments (db w')) = map pay_id (payments (db w))
    /\ map pay_status (payments (db w')) = map pay_status (payments (db w))
    /\ map pay_amount (payments (db w')) = map pay_amount (payments (db w))
    /\ queues w' = queues w.
Proof.
  intros Hf Hfound Hstatus Hamount.
  assert (Hcheck : match amount with
                   | Some a => negb (a =? 0) && negb (a =? pay_amount payment)
                   | None => false
                   end = false).
  { destruct Hamount as [-> | [-> | ->]]; [reflexivity | reflexivity |].
    rewrite Z.eqb_refl. apply andb_false_r. }
  destruct (payments_by_id id (db w)) as [|first more] eqn:Hby.
  { rewrite payments_by_id_and_merchant_split, Hby in Hfound. discriminate. }
  assert (Hfirst : pay_id first = id).
  { assert (Hin : In first (payments_by_id id (db w))) by (rewrite Hby; now left).
    apply filter_In in Hin. now apply String.eqb_eq. }
  unfold capturePayment. 
  do 6 (reduce_world; rewrite ?Hf, ?Hfound, ?Hstatus, ?Hcheck).
  cbn [String.eqb Ascii.eqb Bool.eqb negb].
  do 6 (reduce_world; rewrite ?Hf, ?Hfound, ?Hstatus, ?Hcheck).
  rewrite payments_by_id_set_captured, Hby. cbn [map].
  eexists _, _. split; [reflexivity |].
  reduce_goal. rewrite payments_by_id_set_captured, Hby. cbn [map pay_captured pay_id].
  split; [reflexivity |]. split; [exact Hfirst |]. split; [discriminate |].
  split.
  - constructor; [reflexivity |]. apply Forall_map, Forall_forall. reflexivity.
  - repeat split; apply set_captured_keeps; reflexivity.
Qed.

Lemma capturePayment_marks_captured_witness :
  exists (w' : World) (p' : Payment),
    capturePayment "m1" "pay_1" (Some 50000) (Ledger.world [] Shop.draws)
    = Ok (mkResponse 200 (capture_response p')) w'
    /\ pay_captured p' = true.
Proof.
  destruct (capturePayment_marks_captured (Ledger.world [] Shop.draws) "m1" "pay_1"
              (Some 50000) Ledger.paid [] eq_refl eq_refl eq_refl
              (or_intror (or_intror eq_refl)))
    as (w' & p' & Hrun & Hcaptured & _).
  exists w', p'. split; assumption.
Defined.

(** X18. A capture that is refused changes nothing: 404 when the merchant
    has no payment with that id, 400 when the payment is not in status
    [success], 400 when an amount other than 0 is given that is not the
    amount of the payment. *)
Theorem capturePayment_refuses_without_writing
  (w : World) (merchant id : string) (amount : option Z) :
  faults w = [] ->
  payments_by_id_and_merchant id merchant (db w) = []
  \/ (exists payment others,
         payments_by_id_and_merchant id merchant (db w) = payment :: others
         /\ (pay_status payment <> "success"
             \/ exists a, amount = Some a /\ a <> 0 /\ a <> pay_amount payment)) ->
  exists (status : Z) (description : string) (code : string),
    capturePayment merchant id amount w = Ok (reject status code description) w
    /\ (status = 404 \/ status = 400)
    /\ (status = 404 <-> payments_by_id_and_merchant id merchant (db w) = []).
Proof.
  intros Hf H. unfold capturePayment, try_catch.
  rewrite (bind_ok _ _ _ _ _ (query_no_faults _ w Hf)).
  destruct H as [Hnone | (payment & others & Hfound & H)].
  - rewrite Hnone. eexists 404, _, _. repeat split; auto.
  - rewrite Hfound.
    destruct (String.eqb (pay_status payment) "success") eqn:Hs; cbn [negb].
    + destruct H as [H | (a & -> & Hz & Ha)].
      * apply String.eqb_eq in Hs. contradiction.
      * apply Z.eqb_neq in Hz, Ha. rewrite Hz, Ha. cbn [negb andb].
        eexists 400, _, _. repeat split; auto; discriminate.
    + eexists 400, _, _. repeat split; auto; discriminate.
Qed.

Lemma capturePayment_refuses_without_writing_witness :
  exists (status : Z) (description : string) (code : string),
    capturePayment "m1" "pay_1" (Some 100) (Ledger.world [] Shop.draws)
    = Ok (reject status code description) (Ledger.world [] Shop.draws)
    /\ (status = 404 \/ status = 400).
Proof.
  destruct (capturePayment_refuses_without_writing (Ledger.world [] Shop.draws)
              "m1" "pay_1" (Some 100) eq_refl)
    as (status & description & code & Hrun & Hstatus & _).
  - right. exists Ledger.paid, []. split; [reflexivity |].
    right. exists 100. repeat split; discriminate.
  - exists status, description, code. split; assumption.
Defined.

(** ** Creating a refund *)

Lemma add_refund_job_no_faults (name : string) (data : RefundJobData) (delay : Z) (w : World) :
  faults w = [] ->
  add_refund_job name data delay w
  = Ok tt (set_queues (set_refundQueue (refundQueue (queues w) ++ [mkJob name data delay])
                                       (queues w)) w).
Proof. intros H. unfold add_refund_job, bind. rewrite (io_no_faults w H). reflexivity. Qed.

Lemma createRefund_validate_accepts
  (w : World) (merchant payment_id : string) (req : RefundRequest)
  (payment : Payment) (others : list Payment) (amount : Z) :
  faults w = [] ->
  payments_by_id_and_merchant payment_id merchant (db w) = payment :: others ->
  pay_status payment = "success" ->
  rq_amount req = Some amount ->
  0 < amount ->
  amount <= pay_amount payment - total_refunded payment_id (db w) ->
  createRefund_validate merchant payment_id req w = Ok (inr amount) w.
Proof.
  intros Hf Hfound Hstatus Hamount Hpos Hfits. unfold createRefund_validate.
  rewrite (bind_ok _ _ _ _ _ (query_no_faults _ w Hf)), Hfound, Hstatus.
  cbn [String.eqb Ascii.eqb Bool.eqb negb].
  rewrite (bind_ok _ _ _ _ _ (query_no_faults _ w Hf)), Hamount.
  assert (H1 : (amount <=? 0) = false) by (apply Z.leb_gt; lia).
  assert (H2 : (pay_amount payment - total_refunded payment_id (db w) <? amount) = false)
    by (apply Z.ltb_ge; lia).
  rewrite H1, H2. reflexivity.
Qed.

Lemma refunds_by_id_and_merchant_fresh (id merchant : string) (l : list Refund) (r : Refund) :
  existsb (fun q => String.eqb (ref_id q) id) l = false ->
  ref_id r = id ->
  ref_merchant_id r = merchant ->
  filter (fun q => String.eqb (ref_id q) id && String.eqb (ref_merchant_id q) merchant)
         (l ++ [r])
  = [r].
Proof.
  intros Hfresh Hid Hm. rewrite filter_app.
  rewrite filter_and, (existsb_false_filter _ _ Hfresh). cbn [filter app].
  rewrite Hid, Hm, !String.eqb_refl. reflexivity.
Qed.

(** X19. A refund that is accepted: the payment belongs to the merchant and
    is in status [success], the amount is positive and within what is left
    of the payment. The answer is 201; exactly one refund is added,
    [pending], for that payment, merchant and amount, not yet processed;
    one job for it is queued; the refunded total of the payment grows by
    the amount and stays within the amount of the payment; no payment
    changes; and the refund can be fetched by its id by the same
    merchant. *)
Theorem createRefund_creates_pending_refund
  (w : World) (merchant payment_id : string) (req : RefundRequest)
  (payment : Payment) (others : list Payment) (amount : Z) :
  faults w = [] ->
  payments_by_id_and_merchant payment_id merchant (db w) = payment :: others ->
  pay_status payment = "success" ->
  rq_amount req = Some amount ->
  0 < amount ->
  amount <= pay_amount payment - total_refunded payment_id (db w) ->
  existsb (fun r => String.eqb (ref_id r) ("rfnd_" +++ draw_string 16 (random w)))
          (refunds (db w)) = false ->
  exists (r : Refund) (w' : World),
    createRefund merchant payment_id req w = Ok (mkResponse 201 (refund_response r)) w'
    /\ refunds (db w') = refunds (db w) ++ [r]
    /\ ref_status r = "pending"
    /\ ref_amount r = amount
    /\ ref_payment_id r = payment_id
    /\ ref_merchant_id r = merchant
    /\ ref_reason r = rq_reason req
    /\ ref_processed_at r = None
    /\ refundQueue (queues w')
       = refundQueue (queues w) ++ [mkJob "process-refund" (mkRefundJobData (ref_id r)) 0]
    /\ total_refunded payment_id (db w') = total_refunded payment_id (db w) + amount
    /\ total_refunded payment_id (db w') <= pay_amount payment
    /\ payments (db w') = payments (db w)
    /\ getRefund merchant (ref_id r) w' = Ok (mkResponse 200 (refund_details r)) w'.
Proof.
  intros Hf Hfound Hstatus Hamount Hpos Hfits Hfresh.
  set (id := "rfnd_" +++ draw_string 16 (random w)) in *.
  set (r := new_refund id payment_id merchant amount (rq_reason req) (clock w)).
  set (w1 := set_random (skipn 16 (random w)) w).
  set (w2 := set_db (set_refunds (refunds (db w) ++ [r]) (db w)) w1).
  set (w3 := set_queues (set_refundQueue
                           (refundQueue (queues w)
                              ++ [mkJob "process-refund" (mkRefundJobData id) 0])
                           (queues w)) w2).
  assert (Hrun : createRefund merchant payment_id req w
                 = Ok (mkResponse 201 (refund_response r)) w3).
  { unfold createRefund. apply try_catch_ok.
    rewrite (bind_ok _ _ _ _ _
               (createRefund_validate_accepts w merchant payment_id req payment others amount
                  Hf Hfound Hstatus Hamount Hpos Hfits)).
    unfold createRefund_commit.
    rewrite (bind_ok _ _ _ _ _ (generateRandomString_run 16 w)).
    fold id. fold w1.
    erewrite bind_ok by (apply insert_row_no_faults; [exact Hf | exact Hfresh]).
    erewrite bind_ok by (apply add_refund_job_no_faults; exact Hf).
    reflexivity. }
  assert (Htotal : total_refunded payment_id (db w3)
                   = total_refunded payment_id (db w) + amount).
  { rewrite (total_refunded_app payment_id (db w) (db w3) r eq_refl).
    cbn [r new_refund ref_payment_id ref_amount counts_as_refunded ref_status].
    rewrite String.eqb_refl. reflexivity. }
  exists r, w3. split; [exact Hrun |].
  repeat split; try reflexivity; try exact Htotal.
  - rewrite Htotal. lia.
  - unfold getRefund. apply try_catch_ok.
    rewrite (bind_ok _ _ _ _ _ (query_no_faults _ w3 Hf)).
    unfold refunds_by_id_and_merchant. cbn [w3 w2 db set_queues set_db refunds set_refunds].
    rewrite refunds_by_id_and_merchant_fresh; [reflexivity | exact Hfresh | | ]; reflexivity.
Qed.

Lemma createRefund_creates_pending_refund_witness :
  exists (r : Refund) (w' : World),
    createRefund "m1" "pay_1" (Ledger.refund_of 20000)
                 (Ledger.world [Ledger.earlier_refund] Shop.draws)
    = Ok (mkResponse 201 (refund_response r)) w'
    /\ total_refunded "pay_1" (db w') = 30000 + 20000.
Proof.
  destruct (createRefund_creates_pending_refund
              (Ledger.world [Ledger.earlier_refund] Shop.draws) "m1" "pay_1"
              (Ledger.refund_of 20000) Ledger.paid [] 20000
              eq_refl eq_refl eq_refl eq_refl eq_refl ltac:(vm_compute; discriminate) eq_refl)
    as (r & w' & Hrun & _ & _ & _ & _ & _ & _ & _ & _ & Htotal & _).
  exists r, w'. split; [exact Hrun | exact Htotal].
Defined.

(** X20. A refund request that does not pass the checks changes nothing: 404
    when the merchant has no payment with that id, 400 when the payment is
    not in status [success], 400 when the amount is missing, zero or
    negative. *)
Theorem createRefund_refuses_without_writing
  (w : World) (merchant payment_id : string) (req : RefundRequest) :
  faults w = [] ->
  payments_by_id_and_merchant payment_id merchant (db w) = []
  \/ (exists payment others,
         payments_by_id_and_merchant payment_id merchant (db w) = payment :: others
         /\ (pay_status payment <> "success"
             \/ rq_amount req = None
             \/ exists a, rq_amount req = Some a /\ a <= 0)) ->
  exists (status : Z) (description : string) (code : string),
    createRefund merchant payment_id req w = Ok (reject status code description) w
    /\ (status = 404 \/ status = 400)
    /\ (status = 404 <-> payments_by_id_and_merchant payment_id merchant (db w) = []).
Proof.
  intros Hf H. unfold createRefund, createRefund_validate, try_catch.
  unfold bind at 1.
  rewrite (bind_ok _ _ _ _ _ (query_no_faults _ w Hf)).
  destruct H as [Hnone | (payment & others & Hfound & H)].
  - rewrite Hnone. eexists 404, _, _. repeat split; auto.
  - rewrite Hfound.
    destruct (String.eqb (pay_status payment) "success") eqn:Hs; cbn [negb].
    + rewrite (bind_ok _ _ _ _ _ (query_no_faults _ w Hf)).
      destruct H as [H | [-> | (a & -> & Ha)]].
      * apply String.eqb_eq in Hs. contradiction.
      * eexists 400, _, _. repeat split; auto; discriminate.
      * apply Z.leb_le in Ha. rewrite Ha.
        eexists 400, _, _. repeat split; auto; discriminate.
    + eexists 400, _, _. repeat split; auto; discriminate.
Qed.

Lemma createRefund_refuses_without_writing_witness :
  exists (status : Z) (description : string) (code : string),
    createRefund "m1" "pay_1" (Ledger.refund_of (-5)) (Ledger.world [] Shop.draws)
    = Ok (reject status code description) (Ledger.world [] Shop.draws)
    /\ (status = 404 \/ status = 400).
Proof.
  destruct (createRefund_refuses_without_writing (Ledger.world [] Shop.draws)
              "m1" "pay_1" (Ledger.refund_of (-5)) eq_refl)
    as (status & description & code & Hrun & Hstatus & _).
  - right. exists Ledger.paid, []. split; [reflexivity |].
    right. right. exists (-5). split; [reflexivity | lia].
  - exists status, description, code. split; assumption.
Defined.

(** ** Generated identifiers *)





(** A draw whose product with 62 rounds up to the next integer. *)
Example generateRandomString_rounds :
  value_of (generateRandomString 1 (set_random [2324438517352514] Shop.world)) = Some "Q".
Proof. vm_compute. reflexivity. Qed.

(** ** The idempotency service on its own *)



Lemma idempotency_match_other (key merchant key' merchant' : string) (r : IdempotencyKey) :
  key' <> key \/ merchant' <> merchant ->
  idempotency_match key merchant r = true ->
  idempotency_match key' merchant' r = false.
Proof.
  unfold idempotency_match. intros Hne H.
  apply andb_true_iff in H. destruct H as [Hk Hm].
  apply String.eqb_eq in Hk, Hm. apply andb_false_iff.
  destruct Hne as [Hne | Hne]; [left | right]; apply String.eqb_neq; congruence.
Qed.

Lemma keys_by_key_upsert_other (key merchant key' merchant' : string) (resp : json)
      (e now : Z) (d : Database) :
  key' <> key \/ merchant' <> merchant ->
  idempotency_keys_by_key key' merchant' (upsert_key key merchant resp e now d)
  = idempotency_keys_by_key key' merchant' d.
Proof.
  intros Hne. unfold idempotency_keys_by_key, upsert_key.
  destruct (existsb _ _); cbn [idempotency_keys set_idempotency_keys].
  - induction (idempotency_keys d) as [|r l IH]; [reflexivity |].
    cbn [map filter]. rewrite IH.
    destruct (idempotency_match key merchant r) eqn:Hr; [| reflexivity].
    change (idempotency_match key' merchant'
              (mkIdempotencyKey (idk_key r) (idk_merchant_id r) (jsonb_in resp)
                                (idk_created_at r) e))
      with (idempotency_match key' merchant' r).
    now rewrite (idempotency_match_other key merchant key' merchant' r Hne Hr).
  - rewrite filter_app. cbn [filter].
    rewrite (idempotency_match_other key merchant key' merchant'
               (mkIdempotencyKey key merchant (jsonb_in resp) now e) Hne
               (idempotency_match_refl key merchant (jsonb_in resp) now e)).
    apply app_nil_r.
Qed.

Lemma keys_by_key_delete_other (key merchant key' merchant' : string) (now : Z)
      (d : Database) :
  key' <> key \/ merchant' <> merchant ->
  idempotency_keys_by_key key' merchant' (delete_key key merchant now d)
  = idempotency_keys_by_key key' merchant' d.
Proof.
  intros Hne. unfold idempotency_keys_by_key, delete_key.
  cbn [idempotency_keys set_idempotency_keys].
  induction (idempotency_keys d) as [|r l IH]; [reflexivity |].
  cbn [filter].
  destruct (idempotency_match key merchant r) eqn:Hr; cbn [negb filter]; rewrite IH.
  - now rewrite (idempotency_match_other key merchant key' merchant' r Hne Hr).
  - reflexivity.
Qed.

(** X23. Keys are scoped by merchant, and one key never disturbs another:
    storing a response under a key, and looking a key up (which may purge
    it), leave the entries of every other key, and of the same key of every
    other merchant, as they were, whether the store answers or not. *)
Theorem idempotency_keys_do_not_interfere
  (w : World) (key merchant key' merchant' : string) (response : json) :
  key' <> key \/ merchant' <> merchant ->
  idempotency_keys_by_key key' merchant'
    (db (world_of (storeIdempotencyKey key merchant response w)))
  = idempotency_keys_by_key key' merchant' (db w)
  /\ idempotency_keys_by_key key' merchant'
       (db (world_of (checkIdempotencyKey key merchant w)))
     = idempotency_keys_by_key key' merchant' (db w).
Proof.
  intros Hne. split.
  - unfold storeIdempotencyKey. paths; try reflexivity.
    all: apply keys_by_key_upsert_other; exact Hne.
  - unfold checkIdempotencyKey. paths; try reflexivity.
    all: apply keys_by_key_delete_other; exact Hne.
Qed.

Lemma idempotency_keys_do_not_interfere_witness :
  idempotency_keys_by_key "key-1" "m1"
    (db (world_of (storeIdempotencyKey "key-1" "m2" (JStr "other") Shop.after_first)))
  = idempotency_keys_by_key "key-1" "m1" (db Shop.after_first).
Proof.
  assert (Hne : "key-1" <> "key-1" \/ "m1" <> "m2") by (right; discriminate).
  exact (proj1 (idempotency_keys_do_not_interfere Shop.after_first "key-1" "m2" "key-1" "m1"
                  (JStr "other") Hne)).
Defined.

(** ** Orders *)

(** X24. An order without an amount, or with an amount that is zero or
    negative, is refused with 400 before the store is called at all:
    nothing is written and no random number is drawn, whatever the state of
    the store. *)
Theorem createOrder_rejects_bad_amount (w : World) (merchant : string) (req : OrderRequest) :
  rq_order_amount req = None \/ (exists a, rq_order_amount req = Some a /\ a <= 0) ->
  createOrder merchant req w
  = Ok (reject 400 "BAD_REQUEST_ERROR" "Amount must be a positive integer") w.
Proof.
  intros [H | (a & H & Ha)]; unfold createOrder, try_catch; rewrite H.
  - reflexivity.
  - apply Z.leb_le in Ha. rewrite Ha. reflexivity.
Qed.

Lemma createOrder_rejects_bad_amount_witness :
  createOrder "m1" (mkOrderRequest (Some 0) None None) (set_faults [true] Shop.world)
  = Ok (reject 400 "BAD_REQUEST_ERROR" "Amount must be a positive integer")
       (set_faults [true] Shop.world).
Proof.
  apply (createOrder_rejects_bad_amount (set_faults [true] Shop.world) "m1"
           (mkOrderRequest (Some 0) None None)).
  right. exists 0. split; [reflexivity | lia].
Defined.

Lemma orders_by_id_and_merchant_fresh (id merchant : string) (l : list Order) (o : Order) :
  existsb (fun q => String.eqb (ord_id q) id) l = false ->
  ord_id o = id ->
  ord_merchant_id o = merchant ->
  filter (fun q => String.eqb (ord_id q) id && String.eqb (ord_merchant_id q) merchant)
         (l ++ [o])
  = [o].
Proof.
  intros Hfresh Hid Hm. rewrite filter_app.
  rewrite filter_and, (existsb_false_filter _ _ Hfresh). cbn [filter app].
  rewrite Hid, Hm, !String.eqb_refl. reflexivity.
Qed.

Lemma split_characters_within (s : string) : forall n : nat,
  (characters s <= n)%nat -> split_characters n s = (s, EmptyString).
Proof.
  unfold characters.
  induction s as [|c rest IH]; intros n H; [reflexivity |].
  cbn [split_characters list_ascii_of_string filter] in *.
  destruct (is_tail c); cbn [negb List.length] in H.
  - now rewrite IH.
  - destruct n as [|m]; [lia |]. rewrite IH by lia. reflexivity.
Qed.

(** A text of at most [n] characters, with no NUL, is stored as it is. *)
Lemma varchar_within (n : nat) (s : string) :
  has_nul s = false -> (characters s <= n)%nat -> varchar n s = Some s.
Proof.
  intros Hnul Hlen. unfold varchar. rewrite Hnul, split_characters_within by exact Hlen.
  reflexivity.
Qed.

(** What [VARCHAR(3)] makes of a currency. *)
Example varchar_currency :
  varchar 3 "INR" = Some "INR"
  /\ varchar 3 "INR  " = Some "INR"
  /\ varchar 3 "RUPEE" = None
  /\ varchar 3 (Crypto.string_of_bytes [226; 130; 172; 226; 130; 185; 194; 163])
     = Some (Crypto.string_of_bytes [226; 130; 172; 226; 130; 185; 194; 163])
  /\ fits_integer 3000000000 = false.
Proof. vm_compute. repeat split. Qed.

(** X25. An order that is created, and what it is good for. With a positive
    amount that an [INTEGER] holds, a currency (that of the request, or INR
    when none is given) that [VARCHAR(3)] stores and a receipt that
    [VARCHAR(255)] stores, the answer is 201; one order is added,
    [created], for the merchant, with the amount and with the currency and
    the receipt as the columns store them; the order can be fetched by its
    id; and a payment the merchant then requests for it (with its method
    fields, each stored by its column as it comes, and no idempotency key)
    is accepted and carries the amount and the currency of the order. *)
Theorem created_order_can_be_fetched_and_paid
  (w : World) (merchant : string) (req : OrderRequest) (amount : Z)
  (currency : string) (receipt : option string) :
  faults w = [] ->
  rq_order_amount req = Some amount ->
  0 < amount <= 2147483647 ->
  varchar 3 (match rq_currency req with Some c => c | None => "INR" end) = Some currency ->
  varchar_null 255 (rq_receipt req) = Some receipt ->
  existsb (fun o => String.eqb (ord_id o) ("order_" +++ draw_string 16 (random w)))
          (orders (db w)) = false ->
  exists (o : Order) (w' : World),
    createOrder merchant req w = Ok (mkResponse 201 (order_response o)) w'
    /\ orders (db w') = orders (db w) ++ [o]
    /\ payments (db w') = payments (db w)
    /\ ord_amount o = amount
    /\ ord_status o = "created"
    /\ ord_merchant_id o = merchant
    /\ ord_currency o = currency
    /\ ord_receipt o = receipt
    /\ getOrder merchant (ord_id o) w' = Ok (mkResponse 200 (order_response o)) w'
    /\ (forall pay : PaymentRequest,
          rq_order_id pay = ord_id o ->
          idempotency_header pay = None ->
          method_fields_given pay ->
          payment_fields_fit pay ->
          existsb (fun p => String.eqb (pay_id p) ("pay_" +++ draw_string 16 (random w')))
                  (payments (db w')) = false ->
          exists (p : Payment) (w'' : World),
            createPayment merchant pay w' = Ok (mkResponse 201 (payment_response p)) w''
            /\ payments (db w'') = payments (db w') ++ [p]
            /\ pay_amount p = amount
            /\ pay_currency p = ord_currency o).
Proof.
  intros Hf Hamount Hpos Hcur Hrec Hfresh.
  set (id := "order_" +++ draw_string 16 (random w)) in *.
  set (o := new_order id merchant amount currency receipt (clock w)).
  set (w1 := set_random (skipn 16 (random w)) w).
  set (w2 := set_db (set_orders (orders (db w) ++ [o]) (db w)) w1).
  assert (Hcols : order_columns amount
                    (match rq_currency req with Some c => c | None => "INR" end)
                    (rq_receipt req)
                  = Some (currency, receipt)).
  { unfold order_columns, fits_integer.
    replace ((-2147483648 <=? amount) && (amount <=? 2147483647)) with true
      by (symmetry; apply andb_true_iff; split; apply Z.leb_le; lia).
    rewrite Hcur, Hrec. reflexivity. }
  assert (Hrun : createOrder merchant req w = Ok (mkResponse 201 (order_response o)) w2).
  { unfold createOrder. apply try_catch_ok. rewrite Hamount.
    assert (H0 : (amount <=? 0) = false) by (apply Z.leb_gt; lia). rewrite H0.
    rewrite (bind_ok _ _ _ _ _ (generateRandomString_run 16 w)). fold id. fold w1.
    rewrite Hcols.
    erewrite bind_ok by (apply insert_row_no_faults; [exact Hf | exact Hfresh]).
    reflexivity. }
  assert (Hfind : orders_by_id_and_merchant id merchant (db w2) = [o]).
  { unfold orders_by_id_and_merchant. cbn [w2 db set_db orders set_orders].
    apply orders_by_id_and_merchant_fresh; [exact Hfresh | reflexivity | reflexivity]. }
  exists o, w2. split; [exact Hrun |].
  repeat split.
  - unfold getOrder. apply try_catch_ok.
    rewrite (bind_ok _ _ _ _ _ (query_no_faults _ w2 Hf)).
    change (ord_id o) with id. rewrite Hfind. reflexivity.
  - intros pay Hid Hkey Hfields Hfit Hfreshp.
    exists (created_payment merchant pay o w2), (created_world merchant pay o w2).
    split.
    + apply createPayment_miss_run with (other_orders := []).
      * exact Hf.
      * intros key Hk. congruence.
      * rewrite Hid. exact Hfind.
      * exact Hfields.
      * exact Hfreshp.
    + rewrite created_world_payments. repeat split.
Qed.

Lemma created_order_can_be_fetched_and_paid_witness :
  exists (o : Order) (w' : World),
    createOrder "m1" (mkOrderRequest (Some 1200) None (Some "r-7")) Shop.world
    = Ok (mkResponse 201 (order_response o)) w'
    /\ ord_amount o = 1200
    /\ ord_currency o = "INR"
    /\ getOrder "m1" (ord_id o) w' = Ok (mkResponse 200 (order_response o)) w'.
Proof.
  destruct (created_order_can_be_fetched_and_paid Shop.world "m1"
              (mkOrderRequest (Some 1200) None (Some "r-7")) 1200 "INR" (Some "r-7")
              eq_refl eq_refl ltac:(lia) eq_refl eq_refl eq_refl)
    as (o & w' & Hrun & _ & _ & Hamount & _ & _ & Hcur & _ & Hget & _).
  exists o, w'. repeat split; assumption.
Defined.

(** An amount beyond 32 bits, and a currency of more than three characters,
    are answered with 500 and no order is written. *)
Example order_beyond_the_columns :
  createOrder "m1" (mkOrderRequest (Some 3000000000) None None) Shop.world
  = Ok server_error (set_random (skipn 16 Shop.draws) Shop.world)
  /\ createOrder "m1" (mkOrderRequest (Some 1200) (Some "RUPEE") None) Shop.world
     = Ok server_error (set_random (skipn 16 Shop.draws) Shop.world).
Proof. vm_compute. split; reflexivity. Qed.

(** ** The webhook routes *)

(** X26. A manual retry for a log the merchant does not have (the log of
    another merchant included) resets no log and queues no job, whatever
    the store does, and is answered with 404 when the store answers. The id
    of the request is the text of a UUID, as the ids of the logs in the
    table are, so that the column compares them as the texts are compared;
    any other id is an error of the query. *)
Theorem retryWebhook_unknown_log (w : World) (merchant webhook_id : string) :
  is_uuid webhook_id = true ->
  forallb (fun l => is_uuid (log_id l)) (webhook_logs (db w)) = true ->
  webhook_logs_by_id_and_merchant webhook_id merchant (db w) = [] ->
  let r := retryWebhook merchant webhook_id w in
  db (world_of r) = db w
  /\ queues (world_of r) = queues w
  /\ (faults w = [] -> r = Ok (reject 404 "NOT_FOUND" "Webhook log not found") w).
Proof.
  intros _ _ Hnone. cbv zeta. unfold retryWebhook. reduce_world.
  destruct (faults w) as [|[|] rest] eqn:Hf; reduce_world; rewrite ?Hnone; reduce_world;
    repeat split; intros; congruence.
Qed.

Lemma retryWebhook_unknown_log_witness :
  retryWebhook "m2" Scenario.stored_log_id Scenario.stored_world
  = Ok (reject 404 "NOT_FOUND" "Webhook log not found") Scenario.stored_world.
Proof.
  destruct (retryWebhook_unknown_log Scenario.stored_world "m2" Scenario.stored_log_id
              eq_refl eq_refl eq_refl)
    as (_ & _ & H).
  exact (H eq_refl).
Defined.

(** ** The list of deliveries *)













(** ** The test event *)

(** X28. The test event, end to end. For a merchant with a URL and a secret,
    [POST /api/v1/webhooks/test] answers 200 with the id of a new log,
    [pending], for the event [webhook.test], and queues its delivery; the
    worker then posts it, and a receiver that holds the merchant's secret
    accepts it: the log ends [success] after one attempt, with code 200,
    and the queue is empty. Without a URL the answer is 400 and nothing is
    written. *)
Theorem test_webhook_reaches_receiver
  (w : World) (merchant : string) (m : Merchant) (rest : list Merchant)
  (id : string) (ids : list string) :
  faults w = [] ->
  merchants_by_id merchant (db w) = m :: rest ->
  (truthy (mer_webhook_url m) = false ->
   testWebhook merchant w
   = Ok (reject 400 "BAD_REQUEST_ERROR" "Webhook URL not configured") w)
  /\ (forall url secret : string,
        mer_webhook_url m = Some url ->
        url <> EmptyString ->
        mer_webhook_secret m = Some secret ->
        uuids w = id :: ids ->
        existsb (fun l => String.eqb (log_id l) id) (webhook_logs (db w)) = false ->
        webhookQueue (queues w) = [] ->
        network w = receiver secret ->
        exists (w1 w2 : World) (log' : WebhookLog),
          testWebhook merchant w
          = Ok (mkResponse 200 (JObj [("id", JStr id);
                                      ("message", JStr "Test webhook enqueued for delivery")]))
               w1
          /\ webhook_logs (db w1)
             = webhook_logs (db w)
               ++ [new_webhook_log id merchant "webhook.test" (test_payload (clock w))
                                   (clock w)]
          /\ (forall extra, drain_webhooks (1 + extra) w1 = Ok tt w2)
          /\ sent w2
             = sent w ++ [signed_request url secret (test_payload (clock w))]
          /\ webhook_logs_by_id id (db w2) = [log']
          /\ log_status log' = "success"
          /\ log_attempts log' = 1
          /\ log_response_code log' = Some 200
          /\ webhookQueue (queues w2) = []).
Proof.
  intros Hf Hm. split.
  - intros Hurl. unfold testWebhook, try_catch.
    rewrite (bind_ok _ _ _ _ _ (query_no_faults _ w Hf)), Hm, Hurl. reflexivity.
  - intros url secret Hurl Hne Hsec Hu Hfresh Hq Hnet.
    set (row := new_webhook_log id merchant "webhook.test" (test_payload (clock w)) (clock w)).
    set (job := mkJob "deliver-webhook"
                      (mkWebhookJobData id merchant "webhook.test" (test_payload (clock w))) 0).
    set (w1 := set_queues (set_webhookQueue (webhookQueue (queues w) ++ [job]) (queues w))
                 (set_db (set_webhook_logs (webhook_logs (db w) ++ [row]) (db w))
                         (set_uuids ids w))).
    assert (Htruthy : truthy (mer_webhook_url m) = true)
      by (rewrite Hurl; now apply truthy_some).
    assert (Hrun : testWebhook merchant w
                   = Ok (mkResponse 200
                           (JObj [("id", JStr id);
                                  ("message", JStr "Test webhook enqueued for delivery")]))
                        w1).
    { unfold testWebhook, insert_webhook_log.
      do 8 (reduce_world; rewrite ?Hf, ?Hm, ?Htruthy, ?Hu, ?Hfresh). reflexivity. }
    set (w0 := set_clock (clock w1 + job_delay job)
                 (set_queues (set_webhookQueue [] (queues w1)) w1)).
    assert (Htake : take_webhook_job w1 = Some (job, w0)).
    { unfold take_webhook_job. cbn [w1 queues set_queues webhookQueue set_webhookQueue].
      rewrite Hq. reflexivity. }
    assert (Hlog : webhook_logs_by_id (webhookLogId (job_data job)) (db w0) = [row]).
    { unfold webhook_logs_by_id. cbn [w0 w1 db set_db set_queues set_clock webhook_logs
                                      set_webhook_logs job job_data webhookLogId].
      apply logs_by_id_fresh; [exact Hfresh | reflexivity]. }
    pose proof (deliverWebhook_run w0 job m rest url secret row [] Hf Hm Hurl Hne Hsec Hlog)
      as Hdeliver.
    change (network w0) with (network w) in Hdeliver.
    rewrite Hnet, receiver_answer, String.eqb_refl in Hdeliver.
    change (classify (axios_settle (Responded 200 (JStr "OK"))))
      with (Some 200, Some (substring0 1000 (stringify (JStr "OK"))), true) in Hdeliver.
    eexists w1, _, _. split; [exact Hrun |]. split; [reflexivity |].
    split.
    { intros extra. cbn [Nat.add].
      rewrite (drain_webhooks_step extra w1 w0 _ job _ Htake Hdeliver).
      apply drain_webhooks_empty. reflexivity. }
    unfold after_success. reduce_goal.
    split; [reflexivity |].
    rewrite logs_by_id_update_same by reflexivity.
    rewrite Hlog. cbn [map]. repeat split.
Qed.

Lemma test_webhook_reaches_receiver_witness :
  exists (w1 w2 : World) (log' : WebhookLog),
    testWebhook "m1" (set_uuids ["uuid-1"]
                        (Scenario.world_of_tables Shop.tables (receiver Scenario.test_secret)))
    = Ok (mkResponse 200 (JObj [("id", JStr "uuid-1");
                                ("message", JStr "Test webhook enqueued for delivery")]))
         w1
    /\ drain_webhooks 1 w1 = Ok tt w2
    /\ webhook_logs_by_id "uuid-1" (db w2) = [log']
    /\ log_status log' = "success".
Proof.
  destruct (test_webhook_reaches_receiver
              (set_uuids ["uuid-1"]
                 (Scenario.world_of_tables Shop.tables (receiver Scenario.test_secret)))
              "m1" Scenario.merchant1 [] "uuid-1" [] eq_refl eq_refl) as [_ H].
  destruct (H "http://localhost:4000/webhook" Scenario.test_secret eq_refl
              ltac:(discriminate) eq_refl eq_refl eq_refl eq_refl eq_refl)
    as (w1 & w2 & log' & Hrun & _ & Hdrain & _ & Hfind & Hstatus & _).
  exists w1, w2, log'. repeat split; try assumption.
  exact (Hdrain 0%nat).
Defined.

(** ** What every history keeps *)

(** X29. The integrity of the tables is an invariant of the system: from
    tables where payment ids are unique, every refund belongs to a payment
    and is [pending] or [processed], and every order has a positive amount,
    any sequence of requests and job runs, with the store and the network
    failing whenever they like in between and during them, leads to tables
    where the same holds. *)
Theorem integrity_is_invariant (w w' : World) (ops : list Operation) :
  history w ops w' ->
  consistent (db w) ->
  NoDup (map pay_id (payments (db w')))
  /\ (forall r, In r (refunds (db w')) ->
        (exists p, In p (payments (db w')) /\ pay_id p = ref_payment_id r)
        /\ (ref_status r = "pending" \/ ref_status r = "processed"))
  /\ (forall o, In o (orders (db w')) -> 0 < ord_amount o).
Proof.
  intros Hh Hc.
  assert (Hc' : consistent (db w')).
  { induction Hh as [w | w w1 w2 ops Hdb Hq Hh IH | w w2 op ops Hh IH].
    - exact Hc.
    - apply IH. now rewrite Hdb.
    - apply IH. now apply run_keeps_consistent. }
  destruct Hc' as [Hu Hr Ho Hs]. split; [exact Hu |]. split; [| exact Ho].
  intros r Hin. split.
  - specialize (Hr r Hin). unfold payment_ids in Hr. apply in_map_iff in Hr.
    destruct Hr as (p & Hid & Hp). now exists p.
  - specialize (Hs r Hin). unfold counts_as_refunded in Hs.
    apply orb_true_iff in Hs. destruct Hs as [Hs | Hs]; apply String.eqb_eq in Hs; auto.
Qed.

Lemma integrity_is_invariant_witness :
  NoDup (map pay_id
           (payments (db (run (CreateRefund "m1" "pay_1" (Ledger.refund_of 30000))
                              (Ledger.world [] Shop.draws))))).
Proof.
  apply (integrity_is_invariant (Ledger.world [] Shop.draws) _
           [CreateRefund "m1" "pay_1" (Ledger.refund_of 30000)]).
  - apply history_operation, history_done.
  - apply ledger_consistent. constructor.
Defined.

Lemma run_keeps_payment (op : Operation) (w : World) (p : Payment) :
  In p (payments (db w)) ->
  exists p', In p' (payments (db (run op w)))
             /\ pay_id p' = pay_id p /\ pay_amount p' = pay_amount p.
Proof.
  intros Hin.
  destruct (run_effect op w) as [He | (id & _ & f & Hf & _ & Hp & _)].
  - destruct He as [_ Hp _ | o _ _ Hp _ | q o _ _ _ _ _ Hp _ | f Hf _ Hp _
                   | r q _ _ _ _ _ Hp _ | f _ _ Hp _].
    + exists p. rewrite Hp. auto.
    + exists p. rewrite Hp. auto.
    + exists p. rewrite Hp. split; [apply in_or_app; now left | auto].
    + exists (f p). rewrite Hp. split; [now apply in_map |].
      destruct (Hf p) as (H1 & H2 & _). auto.
    + exists p. rewrite Hp. auto.
    + exists p. rewrite Hp. auto.
  - exists (if String.eqb (pay_id p) id then f p else p). rewrite Hp.
    split.
    + apply in_map_iff. exists p. auto.
    + destruct (String.eqb (pay_id p) id); [| auto].
      destruct (Hf p) as (H1 & H2 & _). auto.
Qed.

(** X30. No payment is ever dropped and no amount is ever changed: a
    payment that is in the table is still there, under the same id and for
    the same amount, after any sequence of requests and job runs. *)
Theorem payments_are_never_dropped (w w' : World) (ops : list Operation) (p : Payment) :
  history w ops w' ->
  In p (payments (db w)) ->
  exists p', In p' (payments (db w'))
             /\ pay_id p' = pay_id p /\ pay_amount p' = pay_amount p.
Proof.
  intros Hh. revert p.
  induction Hh as [w | w w1 w2 ops Hdb Hq Hh IH | w w2 op ops Hh IH]; intros p Hin.
  - exists p. auto.
  - apply IH. now rewrite Hdb.
  - destruct (run_keeps_payment op w p Hin) as (p1 & Hin1 & Hid1 & Ha1).
    destruct (IH p1 Hin1) as (p' & Hin' & Hid' & Ha').
    exists p'. split; [exact Hin' |]. split; congruence.
Qed.

Lemma payments_are_never_dropped_witness :
  exists p',
    In p' (payments (db (run (ProcessPayment Ledger.settle_again)
                             (Ledger.world [] Ledger.unlucky))))
    /\ pay_id p' = "pay_1" /\ pay_amount p' = 50000.
Proof.
  apply (payments_are_never_dropped (Ledger.world [] Ledger.unlucky) _
           [ProcessPayment Ledger.settle_again] Ledger.paid).
  - apply history_operation, history_done.
  - left. reflexivity.
Defined.
